(** * Position classification, resource selection and mistake learning

    A shallow embedding of the decision logic of the chess assistant:
    - [engine_wrapper.py]            (tablebase / book / engine priority chain),
    - [advanced_hybrid_engine.py]    (feature extraction, classification, budgets),
    - [deep_learning_chess_system.py] and [tournament_learning_system.py]
      (position hash, analysis cache, mistake ledger).

    Python floats are modelled as rationals ([Q]); dictionaries as [gmap];
    the python-chess library (move generation, game termination, SAN) and the
    external processes (search engine, tablebase, book) are oracles. *)

From stdpp Require Import gmap strings list pretty.
From Stdlib Require Import QArith Qminmax Qabs Qround Lqa ZArith Lia.

Close Scope Q_scope.
Open Scope nat_scope.

(* ===================================================================== *)
(** * hashlib.md5 *)
(* ===================================================================== *)

Module MD5.

#[local] Open Scope Z_scope.

Definition mask32 : Z := 0xFFFFFFFF.

Definition add32 (x y : Z) : Z := Z.land (x + y) mask32.

Definition not32 (x : Z) : Z := Z.lxor x mask32.

Definition leftrotate (x c : Z) : Z :=
  Z.land (Z.lor (Z.shiftl x c) (Z.shiftr x (32 - c))) mask32.

(** Per-round shift amounts. *)
Definition s_table : list Z :=
  [ 7; 12; 17; 22; 7; 12; 17; 22; 7; 12; 17; 22; 7; 12; 17; 22;
    5; 9; 14; 20; 5; 9; 14; 20; 5; 9; 14; 20; 5; 9; 14; 20;
    4; 11; 16; 23; 4; 11; 16; 23; 4; 11; 16; 23; 4; 11; 16; 23;
    6; 10; 15; 21; 6; 10; 15; 21; 6; 10; 15; 21; 6; 10; 15; 21 ].

(** [floor (2^32 * abs (sin (i + 1)))] for [i] in [0..63]. *)
Definition K_table : list Z :=
  [ 0xd76aa478; 0xe8c7b756; 0x242070db; 0xc1bdceee;
    0xf57c0faf; 0x4787c62a; 0xa8304613; 0xfd469501;
    0x698098d8; 0x8b44f7af; 0xffff5bb1; 0x895cd7be;
    0x6b901122; 0xfd987193; 0xa679438e; 0x49b40821;
    0xf61e2562; 0xc040b340; 0x265e5a51; 0xe9b6c7aa;
    0xd62f105d; 0x02441453; 0xd8a1e681; 0xe7d3fbc8;
    0x21e1cde6; 0xc33707d6; 0xf4d50d87; 0x455a14ed;
    0xa9e3e905; 0xfcefa3f8; 0x676f02d9; 0x8d2a4c8a;
    0xfffa3942; 0x8771f681; 0x6d9d6122; 0xfde5380c;
    0xa4beea44; 0x4bdecfa9; 0xf6bb4b60; 0xbebfbc70;
    0x289b7ec6; 0xeaa127fa; 0xd4ef3085; 0x04881d05;
    0xd9d4d039; 0xe6db99e5; 0x1fa27cf8; 0xc4ac5665;
    0xf4292244; 0x432aff97; 0xab9423a7; 0xfc93a039;
    0x655b59c3; 0x8f0ccc92; 0xffeff47d; 0x85845dd1;
    0x6fa87e4f; 0xfe2ce6e0; 0xa3014314; 0x4e0811a1;
    0xf7537e82; 0xbd3af235; 0x2ad7d2bb; 0xeb86d391 ].

Definition nthZ (l : list Z) (i : nat) : Z := nth i l 0.

(** The message bytes of a text: [str.encode()] on ASCII text. *)
Definition encode (s : string) : list Z :=
  map (fun a => Z.of_N (Ascii.N_of_ascii a)) (String.list_ascii_of_string s).

(** [n] as [k] little-endian bytes. *)
Fixpoint le_bytes (k : nat) (n : Z) : list Z :=
  match k with
  | O => []
  | S k' => Z.land n 0xFF :: le_bytes k' (Z.shiftr n 8)
  end.

(** Padding: a [0x80] byte, zeros up to 56 mod 64, the bit length on
    eight little-endian bytes. *)
Definition pad (msg : list Z) : list Z :=
  let len := Z.of_nat (length msg) in
  let zeros := Z.to_nat ((55 - len) mod 64) in
  msg ++ [0x80] ++ repeat 0 zeros ++ le_bytes 8 (Z.land (8 * len) 0xFFFFFFFFFFFFFFFF).

Fixpoint le_word (bs : list Z) : Z :=
  match bs with
  | [] => 0
  | b :: bs' => b + 256 * le_word bs'
  end.

(** Sixteen little-endian 32-bit words of a 64-byte chunk. *)
Fixpoint words (k : nat) (bs : list Z) : list Z :=
  match k with
  | O => []
  | S k' => le_word (take 4 bs) :: words k' (drop 4 bs)
  end.

Fixpoint chunks (k : nat) (bs : list Z) : list (list Z) :=
  match k with
  | O => []
  | S k' => words 16 (take 64 bs) :: chunks k' (drop 64 bs)
  end.

Definition round (M : list Z) (st : Z * Z * Z * Z) (i : nat) : Z * Z * Z * Z :=
  let '(A, B, C, D) := st in
  let '(F, g) :=
    if (i <? 16)%nat then
      (Z.lor (Z.land B C) (Z.land (not32 B) D), i)
    else if (i <? 32)%nat then
      (Z.lor (Z.land D B) (Z.land (not32 D) C), ((5 * i + 1) mod 16)%nat)
    else if (i <? 48)%nat then
      (Z.lxor (Z.lxor B C) D, ((3 * i + 5) mod 16)%nat)
    else
      (Z.lxor C (Z.lor B (not32 D)), ((7 * i) mod 16)%nat) in
  let F' := add32 (add32 (add32 F A) (nthZ K_table i)) (nthZ M g) in
  (D, add32 B (leftrotate F' (nthZ s_table i)), B, C).

Definition process (st : Z * Z * Z * Z) (M : list Z) : Z * Z * Z * Z :=
  let '(a0, b0, c0, d0) := st in
  let '(A, B, C, D) := fold_left (round M) (seq 0 64) st in
  (add32 a0 A, add32 b0 B, add32 c0 C, add32 d0 D).

Definition init : Z * Z * Z * Z :=
  (0x67452301, 0xefcdab89, 0x98badcfe, 0x10325476).

Definition digest (msg : list Z) : list Z :=
  let p := pad msg in
  let '(a, b, c, d) := fold_left process (chunks (length p / 64) p) init in
  le_bytes 4 a ++ le_bytes 4 b ++ le_bytes 4 c ++ le_bytes 4 d.

Definition hex_digit (n : Z) : string :=
  String.substring (Z.to_nat n) 1 "0123456789abcdef".

Definition hex_byte (b : Z) : string :=
  hex_digit (Z.shiftr b 4) +:+ hex_digit (Z.land b 0xF).

(** [hashlib.md5(data).hexdigest()] *)
Definition hexdigest (msg : list Z) : string :=
  fold_right (fun b acc => hex_byte b +:+ acc) "" (digest msg).

End MD5.

(* ===================================================================== *)
(** * The python-chess data the code reads *)
(* ===================================================================== *)

Module Chess.

Inductive PieceType := PAWN | KNIGHT | BISHOP | ROOK | QUEEN | KING.
Inductive Color := WHITE | BLACK.

Record Piece := mkPiece { piece_type : PieceType; color : Color }.

#[global] Instance PieceType_eq_dec : EqDecision PieceType.
Proof. solve_decision. Defined.
#[global] Instance Color_eq_dec : EqDecision Color.
Proof. solve_decision. Defined.
#[global] Instance Piece_eq_dec : EqDecision Piece.
Proof. solve_decision. Defined.

(** Squares are numbered 0 (a1) to 63 (h8). *)
Definition Square := nat.
Definition SQUARES : list Square := seq 0 64.
Definition square_file (sq : Square) : nat := sq mod 8.
Definition square_rank (sq : Square) : nat := sq / 8.
Definition square (file rank : nat) : Square := rank * 8 + file.

Definition A1 : Square := 0.
Definition H1 : Square := 7.
Definition A8 : Square := 56.
Definition H8 : Square := 63.
Definition C3 : Square := 18.
Definition D3 : Square := 19.
Definition E3 : Square := 20.
Definition F3 : Square := 21.
Definition C4 : Square := 26.
Definition D4 : Square := 27.
Definition E4 : Square := 28.
Definition F4 : Square := 29.
Definition C5 : Square := 34.
Definition D5 : Square := 35.
Definition E5 : Square := 36.
Definition F5 : Square := 37.
Definition C6 : Square := 42.
Definition D6 : Square := 43.
Definition E6 : Square := 44.
Definition F6 : Square := 45.

Record Move := mkMove {
  from_square : Square;
  to_square : Square;
  promotion : option PieceType;
  move_drop : option PieceType
}.

(** [Move.__bool__]: only the null move is falsy. *)
Definition Move_bool (m : Move) : bool :=
  negb (from_square m =? 0) || negb (to_square m =? 0)
  || bool_decide (is_Some (promotion m)) || bool_decide (is_Some (move_drop m)).

(** The truth value of an [Optional[chess.Move]] in [if move:]. *)
Definition truthy (o : option Move) : bool :=
  match o with
  | Some m => Move_bool m
  | None => false
  end.

(** A board: placement, side to move, castling rights (the bitboard of
    rooks that may still castle), the en-passant square shown by
    [fen()], both move counters, and the stack of moves played on this
    board object. *)
Record Board := mkBoard {
  piece_at : Square -> option Piece;
  turn : Color;
  castling_rights : Z;
  ep_square : option Square;
  halfmove_clock : nat;
  fullmove_number : nat;
  move_stack : list Move
}.

(** [board.piece_map()] *)
Definition piece_map (b : Board) : list (Square * Piece) :=
  omap (fun sq => (fun p => (sq, p)) <$> piece_at b sq) SQUARES.

(** [board.pieces(piece_type, color)], iterated in ascending order. *)
Definition pieces (b : Board) (pt : PieceType) (c : Color) : list Square :=
  filter (fun sq => piece_at b sq = Some (mkPiece pt c)) SQUARES.

(** The union [s1 | s2] of two square sets, iterated in ascending order. *)
Definition square_union (s1 s2 : list Square) : list Square :=
  filter (fun sq => sq ∈ s1 ∨ sq ∈ s2) SQUARES.

(** [board.king(color)] *)
Definition king (b : Board) (c : Color) : option Square :=
  last (pieces b KING c).

(** ** [board.fen()] *)

Definition piece_symbol (p : Piece) : string :=
  match color p, piece_type p with
  | WHITE, PAWN => "P" | WHITE, KNIGHT => "N" | WHITE, BISHOP => "B"
  | WHITE, ROOK => "R" | WHITE, QUEEN => "Q" | WHITE, KING => "K"
  | BLACK, PAWN => "p" | BLACK, KNIGHT => "n" | BLACK, BISHOP => "b"
  | BLACK, ROOK => "r" | BLACK, QUEEN => "q" | BLACK, KING => "k"
  end.

Definition flush_empty (empty : nat) : string :=
  if (empty =? 0) then "" else pretty empty.

(** One rank of the placement field, files a to h. *)
Definition rank_fen (b : Board) (rank : nat) : string :=
  let '(acc, empty) :=
    fold_left (fun '(acc, empty) file =>
                 match piece_at b (square file rank) with
                 | Some p => (acc +:+ flush_empty empty +:+ piece_symbol p, 0)
                 | None => (acc, S empty)
                 end)
              (seq 0 8) ("", 0) in
  acc +:+ flush_empty empty.

Definition board_fen (b : Board) : string :=
  String.concat "/" (map (rank_fen b) [7; 6; 5; 4; 3; 2; 1; 0]).

Definition turn_fen (b : Board) : string :=
  match turn b with WHITE => "w" | BLACK => "b" end.

Definition castling_xfen (b : Board) : string :=
  let flag (sq : Square) (s : string) : string :=
    if Z.testbit (castling_rights b) (Z.of_nat sq) then s else "" in
  let s := flag H1 "K" +:+ flag A1 "Q" +:+ flag H8 "k" +:+ flag A8 "q" in
  if String.eqb s "" then "-" else s.

Definition square_name (sq : Square) : string :=
  String.substring (square_file sq) 1 "abcdefgh" +:+ pretty (S (square_rank sq)).

Definition ep_fen (b : Board) : string :=
  match ep_square b with
  | Some sq => square_name sq
  | None => "-"
  end.

Definition fen (b : Board) : string :=
  String.concat " "
    [ board_fen b; turn_fen b; castling_xfen b; ep_fen b;
      pretty (halfmove_clock b); pretty (fullmove_number b) ].

(** The library behaviour the code relies on but does not implement:
    game termination, check, move generation, making a move, and SAN. *)
Class Rules := {
  is_game_over : Board -> bool;
  is_check : Board -> bool;
  legal_moves : Board -> list Move;
  push : Board -> Move -> Board;
  san : Board -> Move -> string;
  parse_san : Board -> string -> option Move
}.

(** ** Sample boards *)

Definition empty_squares : Square -> option Piece := fun _ => None.

Definition place (sq : Square) (p : Piece) (f : Square -> option Piece)
  : Square -> option Piece :=
  fun sq' => if (sq' =? sq) then Some p else f sq'.

Definition starting_squares : Square -> option Piece := fun sq =>
  let back (c : Color) (file : nat) : option Piece :=
    match file with
    | 0 | 7 => Some (mkPiece ROOK c)
    | 1 | 6 => Some (mkPiece KNIGHT c)
    | 2 | 5 => Some (mkPiece BISHOP c)
    | 3 => Some (mkPiece QUEEN c)
    | 4 => Some (mkPiece KING c)
    | _ => None
    end in
  match square_rank sq with
  | 0 => back WHITE (square_file sq)
  | 1 => Some (mkPiece PAWN WHITE)
  | 6 => Some (mkPiece PAWN BLACK)
  | 7 => back BLACK (square_file sq)
  | _ => None
  end.

Definition all_castling : Z :=
  (Z.lor (Z.lor 1 (Z.shiftl 1 7)) (Z.lor (Z.shiftl 1 56) (Z.shiftl 1 63)))%Z.

(** [chess.Board()] *)
Definition starting_board : Board :=
  mkBoard starting_squares WHITE all_castling None 0 1 [].

End Chess.

(* ===================================================================== *)
(** * advanced_hybrid_engine.py: AdvancedPositionAnalyzer *)
(* ===================================================================== *)

Module Analyzer.
Import Chess.

Inductive PositionType :=
| OPENING | TACTICAL | STRATEGIC | ENDGAME | COMPLEX | SIMPLE | CLOSED | OPEN | CRITICAL.

#[global] Instance PositionType_eq_dec : EqDecision PositionType.
Proof. solve_decision. Defined.

(** Float comparisons. *)
Definition Qgeb (x y : Q) : bool := Qle_bool y x.
Definition Qleb (x y : Q) : bool := Qle_bool x y.
Definition Qgtb (x y : Q) : bool := negb (Qle_bool x y).
Definition Qltb (x y : Q) : bool := negb (Qle_bool y x).

(** A loop whose body may raise. *)
Fixpoint foldM {A B : Type} (f : B -> A -> option B) (acc : B) (l : list A) : option B :=
  match l with
  | [] => Some acc
  | x :: l' => match f acc x with
               | Some acc' => foldM f acc' l'
               | None => None
               end
  end.

(** [piece and piece.piece_type == pt and piece.color == c] *)
Definition is_piece (o : option Piece) (pt : PieceType) (c : Color) : bool :=
  match o with
  | Some p => bool_decide (piece_type p = pt) && bool_decide (color p = c)
  | None => false
  end.

(** [if board.piece_at(square):] *)
Definition occupied (board : Board) (sq : Square) : bool :=
  bool_decide (is_Some (piece_at board sq)).

Section WithRules.
Context `{Rules}.

#[local] Open Scope Q_scope.

Definition _analyze_piece_count (board : Board) : Q :=
  let piece_count := length (piece_map board) in
  1 - inject_Z (Z.of_nat piece_count) / 32.

(** [None] stands for the [AttributeError] of [board.piece_at(square).color]
    on an empty square. *)
Definition _is_isolated_pawn (board : Board) (sq : Square) : option bool :=
  let file := Z.of_nat (square_file sq) in
  match piece_at board sq with
  | None => None
  | Some p =>
      let color := color p in
      Some (negb (existsb (fun adj_file : Z =>
              (0 <=? adj_file)%Z && (adj_file <=? 7)%Z &&
              existsb (fun r : nat =>
                         is_piece (piece_at board (square (Z.to_nat adj_file) r)) PAWN color)
                      (seq 0 8))
            [file - 1; file + 1]%Z))
  end.

Definition _analyze_pawn_structure (board : Board) : option Q :=
  let pawns := square_union (pieces board PAWN WHITE) (pieces board PAWN BLACK) in
  match foldM (fun (complexity : Q) (sq : Square) =>
                 let file := square_file sq in
                 let rank := square_rank sq in
                 let complexity :=
                   if ((2 <=? file) && (file <=? 5) && (2 <=? rank) && (rank <=? 5))%nat
                   then complexity + 0.1 else complexity in
                 match _is_isolated_pawn board sq with
                 | Some true => Some (complexity + 0.2)
                 | Some false => Some complexity
                 | None => None
                 end)
              0 pawns with
  | Some complexity => Some (Qmin 1 complexity)
  | None => None
  end.

Definition _analyze_center_control (board : Board) : Q :=
  let center_squares := [E4; E5; D4; D5] in
  fold_left (fun (control : Q) sq =>
               if occupied board sq then control + 0.25 else control)
            center_squares 0.

Definition _analyze_development (board : Board) : Q :=
  let move_count := length (move_stack board) in
  Qmin 1 (inject_Z (Z.of_nat move_count) / 20).

(** [if white_king:] is false for [None] and for square 0. *)
Definition king_term (k : option Square) (safety : Q) : Q :=
  match k with
  | Some sq =>
      if (sq =? 0)%nat then safety
      else
        let file := square_file sq in
        if ((2 <=? file) && (file <=? 5))%nat then safety + 0.5 else safety
  | None => safety
  end.

Definition _analyze_king_safety (board : Board) : Q :=
  let white_king := king board WHITE in
  let black_king := king board BLACK in
  let safety := 0 in
  let safety := king_term white_king safety in
  let safety := king_term black_king safety in
  safety.

Definition is_type_in (o : option Piece) (pts : list PieceType) : bool :=
  match o with
  | Some p => bool_decide (piece_type p ∈ pts)
  | None => false
  end.

Definition _analyze_tactical_opportunities (board : Board) : Q :=
  let opportunities := 0 in
  let opportunities := if is_check board then opportunities + 0.3 else opportunities in
  let opportunities :=
    fold_left (fun (opp : Q) sq =>
                 if is_type_in (piece_at board sq) [KNIGHT] then opp + 0.1 else opp)
              SQUARES opportunities in
  let opportunities :=
    fold_left (fun (opp : Q) sq =>
                 if is_type_in (piece_at board sq) [ROOK; BISHOP; QUEEN]
                 then opp + 0.05 else opp)
              SQUARES opportunities in
  Qmin 1 opportunities.

Definition _analyze_complexity (board : Board) : Q :=
  let legal_moves := length (legal_moves board) in
  let complexity := inject_Z (Z.of_nat legal_moves) / 50 in
  let piece_activity :=
    fold_left (fun (act : Q) sq => if occupied board sq then act + 1 else act)
              SQUARES 0 in
  Qmin 1 ((complexity + piece_activity / 32) / 2).

Definition piece_values (pt : PieceType) : Z :=
  match pt with
  | PAWN => 1 | KNIGHT => 3 | BISHOP => 3 | ROOK => 5 | QUEEN => 9 | KING => 0
  end%Z.

Definition _analyze_material_balance (board : Board) : Q :=
  let '(white_material, black_material) :=
    fold_left (fun '(w, b) sq =>
                 match piece_at board sq with
                 | Some piece =>
                     let value := piece_values (piece_type piece) in
                     match color piece with
                     | WHITE => (w + value, b)%Z
                     | BLACK => (w, b + value)%Z
                     end
                 | None => (w, b)
                 end)
              SQUARES (0, 0)%Z in
  let balance := inject_Z (Z.abs (white_material - black_material)) / 39 in
  balance.

Definition _analyze_space_control (board : Board) : Q :=
  let center_area := [C3; D3; E3; F3; C4; D4; E4; F4;
                      C5; D5; E5; F5; C6; D6; E6; F6] in
  fold_left (fun (control : Q) sq =>
               if occupied board sq then control + 0.0625 else control)
            center_area 0.

(** The scan up the file stops at the first square that does not hold
    a pawn of the same colour. *)
Fixpoint chain_scan (board : Board) (file : nat) (c : Color) (ranks : list nat)
  (len : nat) : nat :=
  match ranks with
  | [] => len
  | r :: ranks' =>
      if bool_decide (piece_at board (square file r) = Some (mkPiece PAWN c))
      then chain_scan board file c ranks' (S len)
      else len
  end.

Definition _get_pawn_chain_length (board : Board) (sq : Square) (c : Color) : nat :=
  let file := square_file sq in
  let rank := square_rank sq in
  chain_scan board file c (seq (rank + 1) (8 - (rank + 1))) 1%nat.

Definition _analyze_pawn_chains (board : Board) : Q :=
  let chains :=
    fold_left (fun (chains : Q) (c : Color) =>
                 fold_left (fun (chains : Q) sq =>
                              let chain_length := _get_pawn_chain_length board sq c in
                              chains + inject_Z (Z.of_nat chain_length) / 8)
                           (pieces board PAWN c) chains)
              [WHITE; BLACK] 0 in
  Qmin 1 chains.

(** The ten schema keys, in the order the dictionary is filled. *)
Definition schema : list string :=
  [ "piece_count"; "pawn_structure"; "center_control"; "development";
    "king_safety"; "tactical_opportunities"; "position_complexity";
    "material_balance"; "space_control"; "pawn_chain_structure" ]%string.

Definition _extract_features (board : Board) : option (gmap string Q) :=
  let features : gmap string Q := ∅ in
  let features := <["piece_count"%string := _analyze_piece_count board]> features in
  match _analyze_pawn_structure board with
  | None => None
  | Some pawn_structure =>
  let features := <["pawn_structure"%string := pawn_structure]> features in
  let features := <["center_control"%string := _analyze_center_control board]> features in
  let features := <["development"%string := _analyze_development board]> features in
  let features := <["king_safety"%string := _analyze_king_safety board]> features in
  let features := <["tactical_opportunities"%string :=
                      _analyze_tactical_opportunities board]> features in
  let features := <["position_complexity"%string := _analyze_complexity board]> features in
  let features := <["material_balance"%string := _analyze_material_balance board]> features in
  let features := <["space_control"%string := _analyze_space_control board]> features in
  let features := <["pawn_chain_structure"%string := _analyze_pawn_chains board]> features in
  Some features
  end.

(** [features[key]]: [None] stands for [KeyError]. *)
Definition getitem (features : gmap string Q) (key : string) : option Q :=
  features !! key.

(** [a and b] and [a or b] over operands that may raise; the right
    operand is only evaluated when the left one does not decide. *)
Definition and_then (a : option bool) (b : option bool) : option bool :=
  match a with
  | Some true => b
  | Some false => Some false
  | None => None
  end.

Definition or_else (a : option bool) (b : option bool) : option bool :=
  match a with
  | Some true => Some true
  | Some false => b
  | None => None
  end.

Definition ge (features : gmap string Q) (key : string) (bound : Q) : option bool :=
  (fun v => Qgeb v bound) <$> getitem features key.

Definition le (features : gmap string Q) (key : string) (bound : Q) : option bool :=
  (fun v => Qleb v bound) <$> getitem features key.

(** The chain of [if ...: return ...] statements. *)
Fixpoint first_match (rules : list (option bool * PositionType)) (default : PositionType)
  : option PositionType :=
  match rules with
  | [] => Some default
  | (cond, tag) :: rules' =>
      match cond with
      | Some true => Some tag
      | Some false => first_match rules' default
      | None => None
      end
  end.

Definition _classify_position (board : Board) (features : gmap string Q)
  : option PositionType :=
  let move_count := length (move_stack board) in
  first_match
    [ (Some (move_count <=? 8)%nat, OPENING);
      (ge features "piece_count" 0.8, ENDGAME);
      (and_then (ge features "pawn_structure" 0.7)
         (and_then (le features "center_control" 0.3)
            (ge features "position_complexity" 0.6)), CLOSED);
      (or_else (ge features "tactical_opportunities" 0.7)
         (ge features "material_balance" 0.5), CRITICAL);
      (ge features "tactical_opportunities" 0.5, TACTICAL);
      (and_then (ge features "pawn_structure" 0.6)
         (ge features "space_control" 0.5), STRATEGIC);
      (ge features "position_complexity" 0.7, COMPLEX);
      (ge features "center_control" 0.5, OPEN) ]
    SIMPLE.

Definition _calculate_time_allocation (position_type : PositionType)
  (features : gmap string Q) : option Q :=
  let base_time := 2.0 in
  match getitem features "position_complexity" with
  | None => None
  | Some complexity =>
      let base_time := if Qgeb complexity 0.7 then base_time * 1.5 else base_time in
      let base_time :=
        if bool_decide (position_type = CRITICAL) then base_time * 2.0 else base_time in
      let base_time :=
        if bool_decide (position_type = ENDGAME) then base_time * 0.7 else base_time in
      Some base_time
  end.

Definition _calculate_depth_allocation (position_type : PositionType)
  (features : gmap string Q) : option nat :=
  let base_depth := 20%nat in
  match getitem features "position_complexity" with
  | None => None
  | Some complexity =>
      let base_depth := if Qgeb complexity 0.7 then (base_depth + 10)%nat else base_depth in
      let base_depth :=
        if bool_decide (position_type = CRITICAL) then (base_depth + 15)%nat
        else base_depth in
      let base_depth :=
        if bool_decide (position_type = ENDGAME) then (base_depth + 5)%nat
        else base_depth in
      Some base_depth
  end.

Inductive EngineType := STOCKFISH | LCZERO | CUSTOM.

Definition _recommend_engine (position_type : PositionType) (features : gmap string Q)
  : EngineType :=
  match position_type with
  | TACTICAL => STOCKFISH
  | STRATEGIC => LCZERO
  | CLOSED => LCZERO
  | CRITICAL => STOCKFISH
  | ENDGAME => STOCKFISH
  | _ => STOCKFISH
  end.

Definition feature_weights : list (string * Q) :=
  [ ("piece_count", 0.15); ("pawn_structure", 0.20); ("center_control", 0.15);
    ("development", 0.10); ("king_safety", 0.15);
    ("tactical_opportunities", 0.25) ]%string.

Definition _calculate_confidence (features : gmap string Q) : Q :=
  Qmin 1 (fold_left (fun (confidence : Q) '(feature, weight) =>
                       match features !! feature with
                       | Some v => confidence + v * weight
                       | None => confidence
                       end)
                    feature_weights 0).

Record PositionAnalysis := mkPositionAnalysis {
  position_type : PositionType;
  confidence : Q;
  features : gmap string Q;
  recommended_engine : EngineType;
  time_allocation : Q;
  depth_allocation : nat
}.

Definition analyze_position (board : Board) : option PositionAnalysis :=
  features ← _extract_features board;
  position_type ← _classify_position board features;
  let confidence := _calculate_confidence features in
  let recommended_engine := _recommend_engine position_type features in
  time_allocation ← _calculate_time_allocation position_type features;
  depth_allocation ← _calculate_depth_allocation position_type features;
  Some (mkPositionAnalysis position_type confidence features recommended_engine
                           time_allocation depth_allocation).

End WithRules.

End Analyzer.

(* ===================================================================== *)
(** * config.py *)
(* ===================================================================== *)

Module Config.
Definition SYZYGY_probe_limit : nat := 6.
Definition BOOK_max_book_moves : nat := 15.
Definition GAME_book_probability : Q := 0.8%Q.
Definition GAME_engine_time_limit : Q := 0.5%Q.
End Config.

(* ===================================================================== *)
(** * engine_wrapper.py: EngineWrapper *)
(* ===================================================================== *)

Module Wrapper.
Import Chess.

(** ** The collaborators *)

(** A polyglot book entry; weights are unsigned 16-bit integers. *)
Record Entry := mkEntry { entry_move : Move; weight : N }.

(** [probe_wdl] and [probe_dtz] return an integer or raise; [None]
    stands for the exception. *)
Record Tablebase := mkTablebase {
  probe_wdl : Board -> option Z;
  probe_dtz : Board -> option Z
}.

(** A polyglot reader: the entries of its file that [find_all] meets for
    the position of a board, in file order, before it tests their
    weight; [None] stands for an exception of the reader. *)
Definition Book := Board -> option (list Entry).

(** [book.find_all(board)] of [chess.polyglot], whose keyword argument
    [minimum_weight] defaults to 1: the reader's entries for the
    position without those of a smaller weight. *)
Definition find_all (book : Book) (board : Board) (minimum_weight : N)
  : option (list Entry) :=
  filter (fun entry => (minimum_weight <= weight entry)%N) <$> book board.

(** [engine.play(board, Limit(time=t)).move]; [None] stands for an
    exception or for a result without a move. *)
Definition Engine := Board -> Q -> option Move.

(** The wrapper object after [__init__]. A field is [None] when the
    collaborator could not be opened; for the book also when the reader
    is falsy (a book file without entries has length 0). *)
Record EngineWrapper := mkWrapper {
  engine : option Engine;
  tablebase : option Tablebase;
  book : option Book
}.

(** ** Effects: the random generator and the calls to collaborators *)

Inductive Event :=
| TablebaseProbe (b : Board)
| BookLookup (b : Board)
| EnginePlay (b : Board) (time_limit : Q).

(** The generator of the [random] module. [cursor] counts the calls
    made into it so far. The call made at count [k] returns [rand k], a
    value in [0, 1), when it is [random.random()], and [below k n], a
    value less than [n], when it is [_randbelow(n)], the index draw of
    [random.choice], which takes bits from the generator and no
    [random()] value. *)
Record World := mkWorld {
  rand : nat -> Q;
  below : nat -> nat -> nat;
  cursor : nat
}.

(** A computation reads and advances the generator and reports the
    collaborator calls it made, in order. *)
Definition M (A : Type) : Type := World -> A * World * list Event.

#[global] Instance M_ret : MRet M := fun A x w => (x, w, []).
#[global] Instance M_bind : MBind M := fun A B f m w =>
  let '(x, w1, evs1) := m w in
  let '(y, w2, evs2) := f x w1 in
  (y, w2, evs1 ++ evs2).

Definition result {A : Type} (r : A * World * list Event) : A := fst (fst r).
Definition world {A : Type} (r : A * World * list Event) : World := snd (fst r).
Definition events {A : Type} (r : A * World * list Event) : list Event := snd r.

Definition emit (e : Event) : M unit := fun w => (tt, w, [e]).

(** [random.random()] *)
Definition random : M Q :=
  fun w => (rand w (cursor w), mkWorld (rand w) (below w) (S (cursor w)), []).

(** [random.uniform(a, b)] is [a + (b - a) * random()]. *)
Definition uniform (a b : Q) : M Q :=
  u ← random; mret (a + (b - a) * u)%Q.

(** [random.choice(seq)] on a non-empty sequence is
    [seq[self._randbelow(len(seq))]]. *)
Definition choice {A : Type} (l : list A) : M (option A) :=
  fun w => (l !! below w (cursor w) (length l),
            mkWorld (rand w) (below w) (S (cursor w)), []).

Definition sum_weights (entries : list Entry) : N :=
  fold_left (fun acc e => (acc + weight e)%N) entries 0%N.

Definition QofN (n : N) : Q := inject_Z (Z.of_N n).

(** The cumulative-weight scan of [_get_book_move]: the first entry
    whose running total reaches [r]. *)
Fixpoint scan (r : Q) (cumulative_weight : N) (entries : list Entry) : option Entry :=
  match entries with
  | [] => None
  | entry :: rest =>
      let cumulative_weight := (cumulative_weight + weight entry)%N in
      if Qle_bool r (QofN cumulative_weight) then Some entry
      else scan r cumulative_weight rest
  end.

(** The scan, then [entries[0]] when the loop runs out. *)
Definition weighted_pick (r : Q) (entries : list Entry) : option Entry :=
  match scan r 0%N entries with
  | Some entry => Some entry
  | None => head entries
  end.

Section WithRules.
Context `{Rules}.

Definition _should_use_tablebase (self : EngineWrapper) (board : Board) : bool :=
  match tablebase self with
  | None => false
  | Some _ =>
      let piece_count := length (piece_map board) in
      let probe_limit := Config.SYZYGY_probe_limit in
      piece_count <=? probe_limit
  end.

Definition probe (f : Board -> option Z) (board : Board) : M (option Z) :=
  _ ← emit (TablebaseProbe board); mret (f board).

(** One iteration of the loop over [board.legal_moves]; [best_dtz] is
    [None] while it still holds [float('inf')]. *)
Definition dtz_step (tb : Tablebase) (board : Board)
  (best : option Move * option Z) (move : Move) : M (option Move * option Z) :=
  let '(best_move, best_dtz) := best in
  move_dtz ← probe (probe_dtz tb) (push board move);
  mret match move_dtz with
       | Some d =>
           let better := match best_dtz with
                         | None => true
                         | Some bd => (Z.abs d <? Z.abs bd)%Z
                         end in
           if better then (Some move, Some d) else (best_move, best_dtz)
       | None => (best_move, best_dtz)
       end.

Fixpoint dtz_loop (tb : Tablebase) (board : Board) (moves : list Move)
  (best : option Move * option Z) : M (option Move * option Z) :=
  match moves with
  | [] => mret best
  | move :: rest => best' ← dtz_step tb board best move; dtz_loop tb board rest best'
  end.

Definition _get_tablebase_move (tb : Tablebase) (board : Board) : M (option Move) :=
  wdl ← probe (probe_wdl tb) board;
  match wdl with
  | None => mret None
  | Some _ =>
      dtz ← probe (probe_dtz tb) board;
      match dtz with
      | None => mret None
      | Some _ =>
          best ← dtz_loop tb board (legal_moves board) (None, None);
          mret (fst best)
      end
  end.

Definition _should_use_book (self : EngineWrapper) (board : Board) : M bool :=
  match book self with
  | None => mret false
  | Some _ =>
      let move_number := length (move_stack board) in
      let max_book_moves := Config.BOOK_max_book_moves in
      let book_probability := Config.GAME_book_probability in
      if move_number <? max_book_moves then
        u ← random; mret (negb (Qle_bool book_probability u))
      else mret false
  end.

(** The selection among the entries found, after the lookup. *)
Definition select_entry (entries : list Entry) : M (option Entry) :=
  match entries with
  | [] => mret None
  | _ =>
      let total_weight := sum_weights entries in
      if (total_weight =? 0)%N then choice entries
      else
        r ← uniform 0 (QofN total_weight);
        mret (weighted_pick r entries)
  end.

Definition _get_book_move (self : EngineWrapper) (board : Board) : M (option Move) :=
  match book self with
  | None => mret None
  | Some bk =>
      _ ← emit (BookLookup board);
      match find_all bk board 1 with
      | None => mret None
      | Some entries =>
          e ← select_entry entries; mret (entry_move <$> e)
      end
  end.

Definition _get_engine_move (self : EngineWrapper) (board : Board)
  (time_limit : option Q) : M (option Move) :=
  match engine self with
  | None => mret None
  | Some eng =>
      let time_limit := default Config.GAME_engine_time_limit time_limit in
      _ ← emit (EnginePlay board time_limit);
      mret (eng board time_limit)
  end.

(** The three guarded stages of [get_move]; each returns the move it
    hands back to the caller, or [None] to fall through. *)
Definition tablebase_stage (self : EngineWrapper) (board : Board) : M (option Move) :=
  match tablebase self with
  | Some tb =>
      if _should_use_tablebase self board then
        move ← _get_tablebase_move tb board;
        mret (if truthy move then move else None)
      else mret None
  | None => mret None
  end.

Definition book_stage (self : EngineWrapper) (board : Board) : M (option Move) :=
  match book self with
  | Some _ =>
      use ← _should_use_book self board;
      if use : bool then
        move ← _get_book_move self board;
        mret (if truthy move then move else None)
      else mret None
  | None => mret None
  end.

Definition engine_stage (self : EngineWrapper) (board : Board)
  (time_limit : option Q) : M (option Move) :=
  match engine self with
  | Some _ =>
      move ← _get_engine_move self board time_limit;
      mret (if truthy move then move else None)
  | None => mret None
  end.

Definition get_move (self : EngineWrapper) (board : Board) (time_limit : option Q)
  : M (option Move) :=
  if is_game_over board then mret None
  else
    move ← tablebase_stage self board;
    match move with
    | Some m => mret (Some m)
    | None =>
        move ← book_stage self board;
        match move with
        | Some m => mret (Some m)
        | None =>
            move ← engine_stage self board time_limit;
            match move with
            | Some m => mret (Some m)
            | None => mret None
            end
        end
    end.

End WithRules.

End Wrapper.

(* ===================================================================== *)
(** * deep_learning_chess_system.py: DeepLearningChessSystem *)
(* ===================================================================== *)

Module Learning.
Import Chess.
Import Analyzer (Qgtb).

(** One line of a multi-PV analysis: the principal variation and the
    score [score.relative.score(mate_score=10000)] in centipawns. *)
Record Info := mkInfo { pv : list Move; score : Z }.

(** [stockfish.analyse(board, limit, multipv=n)]; [None] stands for an
    exception. *)
Definition AnalysisEngine := Board -> option (list Info).

(** A value of [positions_cache]. *)
Record CachedData := mkCached {
  cached_fen : string;
  cached_evaluation : Q;
  cached_best_moves : list (string * Q)
}.

(** An element of a list in [mistakes_database]. *)
Record Mistake := mkMistake {
  move_played : string;
  best_move : string;
  mistake_type : string;
  severity : Q
}.

(** A row of the [mistakes] table (without its timestamp). *)
Record MistakeRow := mkRow {
  row_position_hash : string;
  row_move_played : string;
  row_move_evaluation : Q;
  row_best_move : string;
  row_best_evaluation : Q;
  row_mistake_type : string;
  row_severity : Q
}.

(** The fields of the [PositionAnalysis] dataclass that are read back
    by the decision logic. The descriptive fields (pawn structure text,
    tactical and strategic scores, position type, timestamp) are pure
    functions of the board and take no part in it. *)
Record PositionAnalysis := mkAnalysis {
  analysis_fen : string;
  position_hash : string;
  move_count : nat;
  piece_count : nat;
  evaluation : Q;
  best_moves : list (string * Q)
}.

(** The object state, the two tables of the database it writes, and the
    log of positions submitted to the search engine. *)
Record System := mkSystem {
  stockfish : option AnalysisEngine;
  max_variations : nat;
  positions_cache : gmap string CachedData;
  mistakes_database : gmap string (list Mistake);
  position_analyses_table : gmap string PositionAnalysis;
  mistakes_table : list MistakeRow;
  engine_queries : list Board
}.

Definition set_best_moves (a : PositionAnalysis) (l : list (string * Q)) : PositionAnalysis :=
  mkAnalysis (analysis_fen a) (position_hash a) (move_count a) (piece_count a)
             (evaluation a) l.

(** [hashlib.md5(board.fen().encode()).hexdigest()] *)
Definition _get_position_hash (board : Board) : string :=
  MD5.hexdigest (MD5.encode (fen board)).

(** The severity ladder of [record_mistake]. *)
Definition classify_mistake (evaluation_diff : Q) : string * Q :=
  if Qgtb evaluation_diff 2.0 then ("blunder"%string, 1.0%Q)
  else if Qgtb evaluation_diff 1.0 then ("mistake"%string, 0.7%Q)
  else if Qgtb evaluation_diff 0.5 then ("inaccuracy"%string, 0.4%Q)
  else ("minor"%string, 0.2%Q).

(** The set built by the loop over the recorded mistakes. *)
Definition bad_moves_of (mistakes : list Mistake) : gset string :=
  fold_left (fun bad mistake => bad ∪ {[ move_played mistake ]}) mistakes ∅.

(** The filtering block of [get_best_move_with_learning]: the new value
    of [analysis.best_moves]. *)
Definition filter_candidates (db : gmap string (list Mistake)) (position_hash : string)
  (best_moves : list (string * Q)) : list (string * Q) :=
  match db !! position_hash with
  | Some mistakes =>
      let bad_moves := bad_moves_of mistakes in
      let filtered_moves := filter (fun c => fst c ∉ bad_moves) best_moves in
      match filtered_moves with
      | [] => best_moves
      | _ => filtered_moves
      end
  | None => best_moves
  end.

Section WithRules.
Context `{Rules}.

(** The first [max_variations] lines as (SAN, score in pawns). *)
Definition variations (board : Board) (n : nat) (result : list Info) : list (string * Q) :=
  map (fun analysis =>
         (match pv analysis with
          | m :: _ => san board m
          | [] => "N/A"%string
          end,
          (inject_Z (score analysis) / 100)%Q))
      (take n result).

Definition fallback_analysis (board : Board) (position_hash : string) : PositionAnalysis :=
  mkAnalysis (fen board) position_hash (length (move_stack board))
             (length (piece_map board)) 0%Q [].

(** An exception of the engine call is the [None] of [sf board]: the
    [try] catches it and the fallback analysis follows. The insert of
    [_save_position_analysis] is taken to succeed, so an entry that
    enters the cache always has its row in the table. *)
Definition deep_position_analysis (self : System) (board : Board)
  : PositionAnalysis * System :=
  let position_hash := _get_position_hash board in
  match positions_cache self !! position_hash with
  | Some cached_data =>
      (mkAnalysis (fen board) position_hash (length (move_stack board))
                  (length (piece_map board))
                  (cached_evaluation cached_data) (cached_best_moves cached_data),
       self)
  | None =>
      match stockfish self with
      | Some sf =>
          let queried :=
            mkSystem (stockfish self) (max_variations self) (positions_cache self)
                     (mistakes_database self) (position_analyses_table self)
                     (mistakes_table self) (engine_queries self ++ [board]) in
          match sf board with
          | Some (first :: _ as result) =>
              let best_moves := variations board (max_variations self) result in
              let main_evaluation := (inject_Z (score first) / 100)%Q in
              let analysis :=
                mkAnalysis (fen board) position_hash (length (move_stack board))
                           (length (piece_map board)) main_evaluation best_moves in
              (analysis,
               mkSystem (stockfish self) (max_variations self)
                        (<[position_hash :=
                             mkCached (fen board) main_evaluation best_moves]>
                           (positions_cache self))
                        (mistakes_database self)
                        (<[position_hash := analysis]> (position_analyses_table self))
                        (mistakes_table self) (engine_queries queried))
          | _ => (fallback_analysis board position_hash, queried)
          end
      | None => (fallback_analysis board position_hash, self)
      end
  end.

Definition get_best_move_with_learning (self : System) (board : Board)
  : option Move * System :=
  let position_hash := _get_position_hash board in
  let '(analysis, self) := deep_position_analysis self board in
  let analysis :=
    set_best_moves analysis
      (filter_candidates (mistakes_database self) position_hash (best_moves analysis)) in
  let fallback := head (legal_moves board) in
  match best_moves analysis with
  | (best_move_san, _) :: _ =>
      match parse_san board best_move_san with
      | Some best_move => (Some best_move, self)
      | None => (fallback, self)
      end
  | [] => (fallback, self)
  end.

Definition record_mistake (self : System) (board : Board) (move_played : Move)
  (move_evaluation : Q) (best_move : Move) (best_evaluation : Q) : System :=
  let position_hash := _get_position_hash board in
  let move_san := san board move_played in
  let best_move_san := san board best_move in
  let evaluation_diff := (best_evaluation - move_evaluation)%Q in
  let '(mistake_type, severity) := classify_mistake evaluation_diff in
  let row := mkRow position_hash move_san move_evaluation best_move_san
                   best_evaluation mistake_type severity in
  let entry := mkMistake move_san best_move_san mistake_type severity in
  let previous := default [] (mistakes_database self !! position_hash) in
  mkSystem (stockfish self) (max_variations self) (positions_cache self)
           (<[position_hash := previous ++ [entry]]> (mistakes_database self))
           (position_analyses_table self)
           (mistakes_table self ++ [row]) (engine_queries self).

End WithRules.

End Learning.

(* ===================================================================== *)
(** * Sample positions and a small rules oracle *)
(* ===================================================================== *)

Module Samples.
Import Chess.

Definition mv (from to : Square) : Move := mkMove from to None None.

Definition opposite (c : Color) : Color :=
  match c with WHITE => BLACK | BLACK => WHITE end.

(** Making a plain move (no castling, en passant or promotion): the
    piece is carried over, the clock restarts on a pawn move or a
    capture, the move is put on the stack. *)
Definition simple_push (b : Board) (m : Move) : Board :=
  let moving := piece_at b (from_square m) in
  let capture := bool_decide (is_Some (piece_at b (to_square m))) in
  let pawn := bool_decide (piece_type <$> moving = Some PAWN) in
  mkBoard (fun sq => if sq =? to_square m then moving
                     else if sq =? from_square m then None
                     else piece_at b sq)
          (opposite (turn b)) (castling_rights b) None
          (if pawn || capture then 0 else S (halfmove_clock b))
          (match turn b with
           | WHITE => fullmove_number b
           | BLACK => S (fullmove_number b)
           end)
          (move_stack b ++ [m]).

Definition play (b : Board) (ms : list Move) : Board := fold_left simple_push ms b.

Definition near (a b : nat) : bool := (a <=? S b) && (b <=? S a).

(** The steps of the king of the side to move to squares not held by
    a piece of its own colour. *)
Definition king_steps (b : Board) : list Move :=
  match king b (turn b) with
  | Some k =>
      map (mv k)
          (filter (fun sq =>
                     sq ≠ k ∧ near (square_file sq) (square_file k) = true
                     ∧ near (square_rank sq) (square_rank k) = true
                     ∧ (color <$> piece_at b sq) ≠ Some (turn b))
                  SQUARES)
  | None => []
  end.

Definition piece_letter (pt : PieceType) : string :=
  match pt with
  | PAWN => "" | KNIGHT => "N" | BISHOP => "B" | ROOK => "R" | QUEEN => "Q" | KING => "K"
  end.

(** Short algebraic notation of a plain, unambiguous, quiet move. *)
Definition simple_san (b : Board) (m : Move) : string :=
  match piece_at b (from_square m) with
  | Some p => piece_letter (piece_type p) +:+ square_name (to_square m)
  | None => "--"
  end.

(** The first move of the side to move with that notation; a pawn
    stays on its file. *)
Definition simple_parse_san (b : Board) (s : string) : option Move :=
  head (filter (fun m => (color <$> piece_at b (from_square m)) = Some (turn b)
                         ∧ ((piece_type <$> piece_at b (from_square m)) = Some PAWN
                            → square_file (from_square m) = square_file (to_square m))
                         ∧ simple_san b m = s)
               (from ← SQUARES; to ← SQUARES; [mv from to])).

(** A stand-in for python-chess on the sample positions: the game is
    over under the seventy-five-move rule or when no move is left. *)
#[global] Instance sample_rules : Rules := {|
  is_game_over := fun b => (150 <=? halfmove_clock b) || bool_decide (king_steps b = []);
  is_check := fun _ => false;
  legal_moves := king_steps;
  push := simple_push;
  san := simple_san;
  parse_san := simple_parse_san
|}.

Definition E1 : Square := 4.
Definition D1 : Square := 3.
Definition E8 : Square := 60.
Definition D8 : Square := 59.
Definition E2 : Square := 12.
Definition E7 : Square := 52.
Definition G1 : Square := 6.
Definition B8 : Square := 57.
Definition D2 : Square := 11.

(** 1. e4 e5 2. Nf3 Nc6 *)
Definition open_game_a : Board :=
  play starting_board [mv E2 E4; mv E7 E5; mv G1 F3; mv B8 C6].

(** 1. Nf3 Nc6 2. e4 e5 *)
Definition open_game_b : Board :=
  play starting_board [mv G1 F3; mv B8 C6; mv E2 E4; mv E7 E5].

Definition bare_kings : Square -> option Piece :=
  place E1 (mkPiece KING WHITE) (place E8 (mkPiece KING BLACK) empty_squares).

(** [chess.Board("4k3/8/8/8/8/8/8/4K3 w - - 12 7")] *)
Definition kings_set_up : Board := mkBoard bare_kings WHITE 0 None 12 7 [].

(** The same position reached over the board: twelve king moves from
    [chess.Board("4k3/8/8/8/8/8/8/4K3 w - - 0 1")]. *)
Definition kings_played : Board :=
  play (mkBoard bare_kings WHITE 0 None 0 1 [])
       [ mv E1 D1; mv E8 D8; mv D1 E1; mv D8 E8;
         mv E1 D1; mv E8 D8; mv D1 E1; mv D8 E8;
         mv E1 D1; mv E8 D8; mv D1 E1; mv D8 E8 ].

Definition kqk : Square -> option Piece :=
  place D1 (mkPiece QUEEN WHITE) bare_kings.

(** [chess.Board("4k3/8/8/8/8/8/8/3QK3 w - - 0 60")] *)
Definition kqk_board : Board := mkBoard kqk WHITE 0 None 0 60 [].

(** [chess.Board("4k3/8/8/8/8/8/8/3QK3 w - - 150 100")]: the
    seventy-five-move rule has ended the game. *)
Definition kqk_drawn : Board := mkBoard kqk WHITE 0 None 150 100 [].

(** A tablebase that knows every position: a win, with a distance read
    off the last move made. *)
Definition sample_tablebase : Wrapper.Tablebase :=
  Wrapper.mkTablebase
    (fun _ => Some 2%Z)
    (fun b => match last (move_stack b) with
              | Some m => Some (Z.of_nat (to_square m) - 11)%Z
              | None => Some 21%Z
              end).

(** [chess.Board("4k3/8/8/8/8/8/3Q4/RNBQKBNR w - - 0 40")]: White has
    kept every piece and promoted a pawn, Black has a bare king. *)
Definition two_queens : Board :=
  mkBoard (fun sq => if sq =? D2 then Some (mkPiece QUEEN WHITE)
                     else if sq =? E8 then Some (mkPiece KING BLACK)
                     else if sq <? 8 then starting_squares sq
                     else None)
          WHITE 0 None 0 40 [].

(** A position without pawns. *)
Definition no_pawns : Board := kqk_board.

Definition draws (l : list Q) : nat -> Q := fun i => nth i l 0%Q.

(** Index draws that always return 0. *)
Definition first_index : nat -> nat -> nat := fun _ _ => 0.

End Samples.

(* ===================================================================== *)
(** * Checks of the embedding on known values *)
(* ===================================================================== *)

Example md5_empty : MD5.hexdigest (MD5.encode "") = "d41d8cd98f00b204e9800998ecf8427e"%string.
Proof. vm_compute. reflexivity. Qed.

Example md5_abc : MD5.hexdigest (MD5.encode "abc") = "900150983cd24fb0d6963f7d28e17f72"%string.
Proof. vm_compute. reflexivity. Qed.

Example md5_two_blocks :
  MD5.hexdigest (MD5.encode
    "12345678901234567890123456789012345678901234567890123456789012345678901234567890")
  = "57edf4a22be3c955ac49da2e2107b67a"%string.
Proof. vm_compute. reflexivity. Qed.

Example starting_fen :
  Chess.fen Chess.starting_board
  = "rnbqkbnr/pppppppp/8/8/8/8/PPPPPPPP/RNBQKBNR w KQkq - 0 1"%string.
Proof. vm_compute. reflexivity. Qed.

Example open_game_a_fen :
  Chess.fen Samples.open_game_a
  = "r1bqkbnr/pppp1ppp/2n5/4p3/4P3/5N2/PPPP1PPP/RNBQKB1R w KQkq - 2 3"%string.
Proof. vm_compute. reflexivity. Qed.

Example open_game_b_fen :
  Chess.fen Samples.open_game_b
  = "r1bqkbnr/pppp1ppp/2n5/4p3/4P3/5N2/PPPP1PPP/RNBQKB1R w KQkq - 0 3"%string.
Proof. vm_compute. reflexivity. Qed.

Example kings_fen :
  Chess.fen Samples.kings_set_up = "4k3/8/8/8/8/8/8/4K3 w - - 12 7"%string
  /\ Chess.fen Samples.kings_played = "4k3/8/8/8/8/8/8/4K3 w - - 12 7"%string.
Proof. vm_compute. split; reflexivity. Qed.

Example two_queens_fen :
  Chess.fen Samples.two_queens = "4k3/8/8/8/8/8/3Q4/RNBQKBNR w - - 0 40"%string.
Proof. vm_compute. reflexivity. Qed.

Example starting_san :
  Chess.san Chess.starting_board (Samples.mv Samples.E2 Chess.E4) = "e4"%string
  /\ Chess.parse_san Chess.starting_board "e4" = Some (Samples.mv Samples.E2 Chess.E4).
Proof. vm_compute. split; reflexivity. Qed.

(* ===================================================================== *)
(** * The mistake ledger *)
(* ===================================================================== *)

Section Ledger.
Import Chess Learning.

(** A move is flagged for a hash when some recorded mistake for that
    hash has it as [move_played]. *)
Definition flagged (db : gmap string (list Mistake)) (h : string) (move_san : string) : Prop :=
  ∃ mistakes m, db !! h = Some mistakes ∧ m ∈ mistakes ∧ move_played m = move_san.

(** The highest-ranked candidate that is not flagged, in the words of the
    specification: the first one, scanning the ranked list from the top. *)
Fixpoint highest_ranked_unflagged (bad : gset string) (moves : list (string * Q))
  : option (string * Q) :=
  match moves with
  | [] => None
  | c :: rest => if decide (fst c ∈ bad) then highest_ranked_unflagged bad rest else Some c
  end.

Definition bad_set (db : gmap string (list Mistake)) (h : string) : gset string :=
  bad_moves_of (default [] (db !! h)).

Lemma bad_moves_fold (mistakes : list Mistake) (acc : gset string) (x : string) :
  x ∈ fold_left (fun bad mistake => bad ∪ {[ move_played mistake ]}) mistakes acc
  ↔ x ∈ acc ∨ ∃ m, m ∈ mistakes ∧ move_played m = x.
Proof.
  revert acc. induction mistakes as [|m0 rest IH]; intros acc; simpl.
  - split; [auto|]. intros [?|(m & Hm & _)]; [done|]. by apply elem_of_nil in Hm.
  - rewrite IH. rewrite elem_of_union, elem_of_singleton. split.
    + intros [[?| ->]|(m & Hm & Heq)]; [auto| |].
      * right. exists m0. split; [apply list_elem_of_here|done].
      * right. exists m. split; [by apply list_elem_of_further|done].
    + intros [?|(m & Hm & Heq)]; [auto|].
      apply elem_of_cons in Hm as [-> |Hm]; [auto|].
      right. eauto.
Qed.

Lemma elem_of_bad_moves_of (mistakes : list Mistake) (x : string) :
  x ∈ bad_moves_of mistakes ↔ ∃ m, m ∈ mistakes ∧ move_played m = x.
Proof.
  unfold bad_moves_of. rewrite bad_moves_fold. split; [|auto].
  intros [Hx|?]; [|done]. by apply not_elem_of_empty in Hx.
Qed.

Lemma elem_of_bad_set (db : gmap string (list Mistake)) (h x : string) :
  x ∈ bad_set db h ↔ flagged db h x.
Proof.
  unfold bad_set, flagged. rewrite elem_of_bad_moves_of.
  destruct (db !! h) as [mistakes|]; simpl.
  - split.
    + intros (m & ? & ?). by exists mistakes, m.
    + intros (ms & m & [= <-] & ? & ?). by exists m.
  - split.
    + intros (m & Hm & _). by apply elem_of_nil in Hm.
    + intros (ms & m & ? & _). done.
Qed.

Lemma filter_none_flagged (bad : gset string) (moves : list (string * Q)) :
  (∀ c, c ∈ moves → fst c ∉ bad) → filter (fun c => fst c ∉ bad) moves = moves.
Proof.
  induction moves as [|c rest IH]; intros Hall; [done|].
  rewrite filter_cons_True by (apply Hall, list_elem_of_here).
  f_equal. apply IH. intros c' Hc'. by apply Hall, list_elem_of_further.
Qed.

(** The filtering block written over the set of flagged moves. *)
Lemma filter_candidates_unfold (db : gmap string (list Mistake)) (h : string)
  (moves : list (string * Q)) :
  filter_candidates db h moves =
    match filter (fun c => fst c ∉ bad_set db h) moves with
    | [] => moves
    | kept => kept
    end.
Proof.
  unfold filter_candidates, bad_set. destruct (db !! h) as [mistakes|]; simpl.
  { by destruct (filter _ moves). }
  rewrite filter_none_flagged; [by destruct moves|].
  intros c _. rewrite elem_of_bad_moves_of. intros (m & Hm & _).
  by apply elem_of_nil in Hm.
Qed.

Lemma head_filter_unflagged (bad : gset string) (moves : list (string * Q)) :
  head (filter (fun c => fst c ∉ bad) moves) = highest_ranked_unflagged bad moves.
Proof.
  induction moves as [|c rest IH]; [done|]. simpl.
  destruct (decide (fst c ∈ bad)) as [Hin|Hout].
  - rewrite filter_cons_False; [done|]. by intros Hn.
  - by rewrite filter_cons_True.
Qed.

Lemma filter_all_flagged (bad : gset string) (moves : list (string * Q)) :
  (∀ c, c ∈ moves → fst c ∈ bad) → filter (fun c => fst c ∉ bad) moves = [].
Proof.
  induction moves as [|c rest IH]; intros Hall; [done|].
  rewrite filter_cons_False.
  - apply IH. intros c' Hc'. apply Hall. by apply list_elem_of_further.
  - intros Hn. apply Hn, Hall, list_elem_of_here.
Qed.

End Ledger.

Section LedgerClaims.
Import Chess Learning Samples.

Lemma highest_ranked_unflagged_Some (bad : gset string) (moves : list (string * Q))
  (c : string * Q) :
  highest_ranked_unflagged bad moves = Some c →
  ∃ above below, moves = above ++ c :: below ∧ (fst c ∉ bad)
                 ∧ ∀ c', c' ∈ above → fst c' ∈ bad.
Proof.
  induction moves as [|c0 rest IH]; simpl; [done|].
  destruct (decide (fst c0 ∈ bad)) as [Hin|Hout].
  - intros Hrest. destruct (IH Hrest) as (above & below & -> & Hc & Habove).
    exists (c0 :: above), below. split; [done|]. split; [done|].
    intros c' Hc'. apply elem_of_cons in Hc' as [-> |Hc']; auto.
  - intros [= <-]. exists [], rest. split; [done|]. split; [done|].
    intros c' Hc'. by apply elem_of_nil in Hc'.
Qed.

Lemma highest_ranked_unflagged_None (bad : gset string) (moves : list (string * Q)) :
  highest_ranked_unflagged bad moves = None → ∀ c, c ∈ moves → fst c ∈ bad.
Proof.
  induction moves as [|c0 rest IH]; simpl; intros Hnone c Hc.
  - by apply elem_of_nil in Hc.
  - destruct (decide (fst c0 ∈ bad)) as [Hin|Hout]; [|done].
    apply elem_of_cons in Hc as [-> |Hc]; auto.
Qed.

Lemma deep_position_analysis_ledger `{Rules} (self : System) (board : Board) :
  mistakes_database (snd (deep_position_analysis self board)) = mistakes_database self.
Proof.
  unfold deep_position_analysis.
  destruct (positions_cache self !! _); [done|].
  destruct (stockfish self) as [sf|]; [|done].
  destruct (sf board) as [[|first rest]|]; done.
Qed.

(** The choice of [get_best_move_with_learning] written over the head of
    the filtered list. *)
Lemma get_best_move_with_learning_eq `{Rules} (self : System) (board : Board) :
  get_best_move_with_learning self board
  = (match head (filter_candidates
                   (mistakes_database self) (_get_position_hash board)
                   (best_moves (fst (deep_position_analysis self board)))) with
     | Some (best_move_san, _) =>
         match parse_san board best_move_san with
         | Some best_move => Some best_move
         | None => head (legal_moves board)
         end
     | None => head (legal_moves board)
     end,
     snd (deep_position_analysis self board)).
Proof.
  unfold get_best_move_with_learning.
  pose proof (deep_position_analysis_ledger self board) as Hdb.
  destruct (deep_position_analysis self board) as [analysis self']. cbn [fst snd] in *.
  rewrite Hdb. cbn [best_moves set_best_moves].
  destruct (filter_candidates _ _ _) as [|[san0 score0] rest]; [done|].
  cbn [head]. by destruct (parse_san board san0).
Qed.

(** A system without engine whose cache and ledger hold one entry each,
    for the starting position. *)
Definition start_hash : string := _get_position_hash starting_board.

Definition sample_system (candidates : list (string * Q)) (mistakes : list Mistake) : System :=
  mkSystem None 5
           {[ start_hash := mkCached (fen starting_board) 0.3 candidates ]}
           {[ start_hash := mistakes ]}
           ∅ [] [].

Definition e4_mistake : Mistake := mkMistake "e4" "d4" "mistake" 0.7.
Definition d4_mistake : Mistake := mkMistake "d4" "e4" "inaccuracy" 0.4.

(** C3. For every position hash and every non-empty ranked candidate
    list, the filtering of previously played mistakes never yields an
    empty list; when every candidate is a recorded [move_played] for the
    hash, the unfiltered list is kept. *)
Theorem filter_candidates_never_empty (db : gmap string (list Mistake)) (h : string)
  (moves : list (string * Q)) :
  moves ≠ [] →
  filter_candidates db h moves ≠ []
  ∧ ((∀ c, c ∈ moves → flagged db h (fst c)) → filter_candidates db h moves = moves).
Proof.
  intros Hne. rewrite filter_candidates_unfold. split.
  - by destruct (filter _ moves) eqn:Hkept.
  - intros Hall. rewrite filter_all_flagged; [done|].
    intros c Hc. by apply elem_of_bad_set, Hall.
Qed.

Lemma filter_candidates_never_empty_witness :
  [("e4"%string, 0.1%Q)] ≠ []
  ∧ filter_candidates {[ "h"%string := [e4_mistake] ]} "h" [("e4"%string, 0.1%Q)] ≠ []
  ∧ ((∀ c, c ∈ [("e4"%string, 0.1%Q)] →
           flagged {[ "h"%string := [e4_mistake] ]} "h" (fst c)) →
     filter_candidates {[ "h"%string := [e4_mistake] ]} "h" [("e4"%string, 0.1%Q)]
     = [("e4"%string, 0.1%Q)]).
Proof.
  split; [done|].
  apply (filter_candidates_never_empty {[ "h"%string := [e4_mistake] ]} "h"
           [("e4"%string, 0.1%Q)]).
  done.
Defined.

(** C10, as the code has it. The surviving candidates are a subsequence of
    the ranked list in the same order; when some candidate is not flagged
    for the hash, the list handed on starts with the highest-ranked such
    candidate, and the move returned is that candidate whenever its
    notation parses; when every candidate is flagged, the ranked list is
    handed on unchanged and the move returned is its top candidate, a
    flagged move, whenever its notation parses. In all cases the move
    returned is the parse of the candidate so chosen, and the first legal
    move when there is no candidate or its notation does not parse. *)
Theorem filter_candidates_keeps_ranking :
  (∀ (db : gmap string (list Mistake)) (h : string) (moves : list (string * Q)),
     sublist (filter_candidates db h moves) moves
     ∧ (∀ c, highest_ranked_unflagged (bad_set db h) moves = Some c →
             head (filter_candidates db h moves) = Some c
             ∧ ¬ flagged db h (fst c)
             ∧ ∃ above below, moves = above ++ c :: below
                              ∧ ∀ c', c' ∈ above → flagged db h (fst c'))
     ∧ (highest_ranked_unflagged (bad_set db h) moves = None →
        filter_candidates db h moves = moves
        ∧ ∀ c, c ∈ moves → flagged db h (fst c)))
  ∧ (∀ (R : Rules) (self : System) (board : Board) (c : string * Q) (m : Move),
       highest_ranked_unflagged
         (bad_set (mistakes_database self) (_get_position_hash board))
         (best_moves (fst (deep_position_analysis self board))) = Some c →
       parse_san board (fst c) = Some m →
       fst (get_best_move_with_learning self board) = Some m)
  ∧ (∀ (R : Rules) (self : System) (board : Board) (c : string * Q) (m : Move),
       highest_ranked_unflagged
         (bad_set (mistakes_database self) (_get_position_hash board))
         (best_moves (fst (deep_position_analysis self board))) = None →
       head (best_moves (fst (deep_position_analysis self board))) = Some c →
       parse_san board (fst c) = Some m →
       fst (get_best_move_with_learning self board) = Some m
       ∧ flagged (mistakes_database self) (_get_position_hash board) (fst c))
  ∧ (∀ (R : Rules) (self : System) (board : Board),
       fst (get_best_move_with_learning self board)
       = match
           match highest_ranked_unflagged
                   (bad_set (mistakes_database self) (_get_position_hash board))
                   (best_moves (fst (deep_position_analysis self board))) with
           | Some c => Some c
           | None => head (best_moves (fst (deep_position_analysis self board)))
           end
         with
         | Some c =>
             match parse_san board (fst c) with
             | Some m => Some m
             | None => head (legal_moves board)
             end
         | None => head (legal_moves board)
         end).
Proof.
  assert (Hchosen : ∀ (R : Rules) (self : System) (board : Board),
    head (filter_candidates (mistakes_database self) (_get_position_hash board)
            (best_moves (fst (deep_position_analysis self board))))
    = match highest_ranked_unflagged
              (bad_set (mistakes_database self) (_get_position_hash board))
              (best_moves (fst (deep_position_analysis self board))) with
      | Some c => Some c
      | None => head (best_moves (fst (deep_position_analysis self board)))
      end).
  { intros R self board. rewrite filter_candidates_unfold.
    rewrite <- head_filter_unflagged. by destruct (filter _ _). }
  assert (Hmove : ∀ (R : Rules) (self : System) (board : Board),
    fst (get_best_move_with_learning self board)
    = match
        match highest_ranked_unflagged
                (bad_set (mistakes_database self) (_get_position_hash board))
                (best_moves (fst (deep_position_analysis self board))) with
        | Some c => Some c
        | None => head (best_moves (fst (deep_position_analysis self board)))
        end
      with
      | Some c =>
          match parse_san board (fst c) with
          | Some m => Some m
          | None => head (legal_moves board)
          end
      | None => head (legal_moves board)
      end).
  { intros R self board. rewrite get_best_move_with_learning_eq. cbn [fst].
    rewrite Hchosen. by destruct (match highest_ranked_unflagged _ _ with
                                  | Some c => Some c | None => _ end) as [[san0 score0]|]. }
  split; [|split; [|split; [|exact Hmove]]].
  - intros db h moves. rewrite filter_candidates_unfold.
    pose proof (head_filter_unflagged (bad_set db h) moves) as Hhead.
    split; [|split].
    + destruct (filter _ moves) eqn:Hkept; [done|].
      rewrite <- Hkept. apply sublist_filter.
    + intros c Hc. rewrite Hc in Hhead.
      destruct (highest_ranked_unflagged_Some _ _ _ Hc) as (above & below & Hsplit & Hout & Habove).
      split; [|split].
      * by destruct (filter _ moves).
      * by rewrite <- elem_of_bad_set.
      * exists above, below. split; [done|].
        intros c' Hc'. by apply elem_of_bad_set, Habove.
    + intros Hnone. pose proof (highest_ranked_unflagged_None _ _ Hnone) as Hall.
      rewrite filter_all_flagged by done. split; [done|].
      intros c Hc. by apply elem_of_bad_set, Hall.
  - intros R self board c m Hc Hparse. by rewrite Hmove, Hc, Hparse.
  - intros R self board c m Hnone Hhead Hparse. split.
    + by rewrite Hmove, Hnone, Hhead, Hparse.
    + apply elem_of_bad_set. apply (highest_ranked_unflagged_None _ _ Hnone).
      destruct (best_moves (fst (deep_position_analysis self board))) as [|c0 rest];
        [done|]. injection Hhead as <-. apply list_elem_of_here.
Qed.

Lemma filter_candidates_keeps_ranking_witness :
  highest_ranked_unflagged
    (bad_set (mistakes_database
                (sample_system [("e4"%string, 0.1%Q); ("d4"%string, 1.3%Q)] [e4_mistake]))
             (_get_position_hash starting_board))
    (best_moves (fst (deep_position_analysis
                        (sample_system [("e4"%string, 0.1%Q); ("d4"%string, 1.3%Q)]
                                       [e4_mistake])
                        starting_board))) = Some ("d4"%string, 1.3%Q)
  ∧ parse_san starting_board "d4" = Some (mv D2 D4)
  ∧ fst (get_best_move_with_learning
           (sample_system [("e4"%string, 0.1%Q); ("d4"%string, 1.3%Q)] [e4_mistake])
           starting_board) = Some (mv D2 D4).
Proof.
  assert (H1 : highest_ranked_unflagged
    (bad_set (mistakes_database
                (sample_system [("e4"%string, 0.1%Q); ("d4"%string, 1.3%Q)] [e4_mistake]))
             (_get_position_hash starting_board))
    (best_moves (fst (deep_position_analysis
                        (sample_system [("e4"%string, 0.1%Q); ("d4"%string, 1.3%Q)]
                                       [e4_mistake])
                        starting_board))) = Some ("d4"%string, 1.3%Q))
    by (vm_compute; reflexivity).
  assert (H2 : parse_san starting_board "d4" = Some (mv D2 D4))
    by (vm_compute; reflexivity).
  split; [exact H1|]. split; [exact H2|].
  exact (proj1 (proj2 filter_candidates_keeps_ranking) sample_rules _ _ _ _ H1 H2).
Defined.

(** The claim as written fails when every candidate is flagged: the move
    returned is then the top candidate although it was recorded as a
    mistake for this very hash, and no unflagged candidate exists. *)
Lemma all_flagged_returns_flagged_move :
  fst (get_best_move_with_learning
         (sample_system [("e4"%string, 0.3%Q); ("d4"%string, 0.2%Q)]
                        [e4_mistake; d4_mistake])
         starting_board) = Some (mv E2 E4)
  ∧ san starting_board (mv E2 E4) = "e4"%string
  ∧ flagged (mistakes_database
               (sample_system [("e4"%string, 0.3%Q); ("d4"%string, 0.2%Q)]
                              [e4_mistake; d4_mistake]))
            (_get_position_hash starting_board) "e4"
  ∧ highest_ranked_unflagged
      (bad_set (mistakes_database
                  (sample_system [("e4"%string, 0.3%Q); ("d4"%string, 0.2%Q)]
                                 [e4_mistake; d4_mistake]))
               (_get_position_hash starting_board))
      [("e4"%string, 0.3%Q); ("d4"%string, 0.2%Q)] = None.
Proof.
  split; [vm_compute; reflexivity|].
  split; [vm_compute; reflexivity|].
  split.
  - exists [e4_mistake; d4_mistake], e4_mistake.
    split; [vm_compute; reflexivity|]. split; [apply list_elem_of_here|reflexivity].
  - vm_compute. reflexivity.
Qed.

End LedgerClaims.

Section SeverityClaims.
Import Chess Learning Samples Analyzer.

Lemma Qgtb_true (x y : Q) : Qgtb x y = true ↔ (y < x)%Q.
Proof.
  unfold Qgtb. rewrite negb_true_iff, <- not_true_iff_false, Qle_bool_iff.
  split; [apply Qnot_le_lt|apply Qlt_not_le].
Qed.

Lemma Qgtb_false (x y : Q) : Qgtb x y = false ↔ (x <= y)%Q.
Proof. unfold Qgtb. by rewrite negb_false_iff, Qle_bool_iff. Qed.

(** The four rungs of the ladder, each with the exact range of the
    evaluation gap that reaches it. *)
Lemma classify_mistake_ranges (diff : Q) :
  (fst (classify_mistake diff) = "blunder"%string ↔ (2 < diff)%Q)
  ∧ (fst (classify_mistake diff) = "mistake"%string ↔ (1 < diff ∧ diff <= 2)%Q)
  ∧ (fst (classify_mistake diff) = "inaccuracy"%string ↔ (0.5 < diff ∧ diff <= 1)%Q)
  ∧ (fst (classify_mistake diff) = "minor"%string ↔ (diff <= 0.5)%Q).
Proof.
  unfold classify_mistake.
  destruct (Qgtb diff 2.0) eqn:H2; [apply Qgtb_true in H2|apply Qgtb_false in H2];
    [|destruct (Qgtb diff 1.0) eqn:H1; [apply Qgtb_true in H1|apply Qgtb_false in H1];
      [|destruct (Qgtb diff 0.5) eqn:H05;
        [apply Qgtb_true in H05|apply Qgtb_false in H05]]];
    simpl; repeat split; intros; try done; try lra.
Qed.

(** C5. The severity class is derived from [diff = best_eval - move_eval]:
    blunder iff [diff > 2.0], mistake iff [1.0 < diff <= 2.0], inaccuracy
    iff [0.5 < diff <= 1.0], minor otherwise, and this is the class
    [record_mistake] stores. Recording ("e4", 0.1) against ("d4", 1.3)
    for a position, on a ledger in which "d4" is not yet flagged for that
    position, stores the class "mistake"; filtering the candidates
    [e4:0.1, d4:1.3] for the same hash afterwards drops "e4" and keeps
    "d4". *)
Theorem record_mistake_severity_and_filter :
  (∀ diff : Q,
     (fst (classify_mistake diff) = "blunder"%string ↔ (2 < diff)%Q)
     ∧ (fst (classify_mistake diff) = "mistake"%string ↔ (1 < diff ∧ diff <= 2)%Q)
     ∧ (fst (classify_mistake diff) = "inaccuracy"%string ↔ (0.5 < diff ∧ diff <= 1)%Q)
     ∧ (fst (classify_mistake diff) = "minor"%string ↔ (diff <= 0.5)%Q))
  ∧ (∀ (R : Rules) (self : System) (board : Board) (played best : Move)
       (move_eval best_eval : Q),
       let h := _get_position_hash board in
       let self' := record_mistake self board played move_eval best best_eval in
       ∃ earlier stored,
         mistakes_database self !! h = earlier
         ∧ mistakes_database self' !! h = Some (default [] earlier ++ [stored])
         ∧ move_played stored = san board played
         ∧ mistake_type stored = fst (classify_mistake (best_eval - move_eval)))
  ∧ (∀ (R : Rules) (self : System) (board : Board) (played best : Move),
       san board played = "e4"%string →
       san board best = "d4"%string →
       ¬ flagged (mistakes_database self) (_get_position_hash board) "d4" →
       let h := _get_position_hash board in
       let self' := record_mistake self board played 0.1%Q best 1.3%Q in
       mistakes_database self' !! h
       = Some (default [] (mistakes_database self !! h)
               ++ [mkMistake "e4" "d4" "mistake" 0.7%Q])
       ∧ mistakes_table self'
         = mistakes_table self ++ [mkRow h "e4" 0.1%Q "d4" 1.3%Q "mistake" 0.7%Q]
       ∧ filter_candidates (mistakes_database self') h
           [("e4"%string, 0.1%Q); ("d4"%string, 1.3%Q)]
         = [("d4"%string, 1.3%Q)]).
Proof.
  split; [exact classify_mistake_ranges|]. split.
  - intros R self board played best move_eval best_eval h self'.
    subst self'. unfold record_mistake. fold h.
    destruct (classify_mistake (best_eval - move_eval)) as [ty sev] eqn:Hcls.
    eexists _, _. split; [reflexivity|]. simpl.
    rewrite lookup_insert_eq. split; [reflexivity|]. by split.
  - intros R self board played best Hplayed Hbest Hfresh h self'.
    subst self'. unfold record_mistake. fold h. rewrite Hplayed, Hbest.
    change (classify_mistake (1.3 - 0.1)) with ("mistake"%string, 0.7%Q).
    cbn [mistakes_database mistakes_table].
    rewrite lookup_insert_eq. split; [done|]. split; [done|].
    rewrite filter_candidates_unfold.
    assert (He4 : "e4"%string ∈ bad_set
                    (<[h := default [] (mistakes_database self !! h)
                            ++ [mkMistake "e4" "d4" "mistake" 0.7%Q]]>
                       (mistakes_database self)) h).
    { apply elem_of_bad_set.
      exists (default [] (mistakes_database self !! h)
              ++ [mkMistake "e4" "d4" "mistake" 0.7%Q]),
             (mkMistake "e4" "d4" "mistake" 0.7%Q).
      split; [apply lookup_insert_eq|].
      split; [|reflexivity]. apply elem_of_app. right. apply list_elem_of_here. }
    assert (Hd4 : "d4"%string ∉ bad_set
                    (<[h := default [] (mistakes_database self !! h)
                            ++ [mkMistake "e4" "d4" "mistake" 0.7%Q]]>
                       (mistakes_database self)) h).
    { rewrite elem_of_bad_set. intros (ms & m & Hms & Hm & Hmove).
      rewrite lookup_insert_eq in Hms. injection Hms as <-.
      apply elem_of_app in Hm as [Hm|Hm].
      - apply Hfresh. destruct (mistakes_database self !! h) as [old|] eqn:Hold.
        + by exists old, m.
        + by apply elem_of_nil in Hm.
      - apply list_elem_of_singleton in Hm as ->. done. }
    rewrite filter_cons_False by (intros Hn; by apply Hn).
    rewrite filter_cons_True by done.
    by rewrite filter_nil.
Qed.

Lemma record_mistake_severity_and_filter_witness :
  san starting_board (mv E2 E4) = "e4"%string
  ∧ san starting_board (mv D2 D4) = "d4"%string
  ∧ ¬ flagged (mistakes_database (sample_system [] []))
              (_get_position_hash starting_board) "d4"
  ∧ filter_candidates
      (mistakes_database
         (record_mistake (sample_system [] []) starting_board
                         (mv E2 E4) 0.1%Q (mv D2 D4) 1.3%Q))
      (_get_position_hash starting_board)
      [("e4"%string, 0.1%Q); ("d4"%string, 1.3%Q)]
    = [("d4"%string, 1.3%Q)].
Proof.
  assert (H1 : san starting_board (mv E2 E4) = "e4"%string) by (vm_compute; reflexivity).
  assert (H2 : san starting_board (mv D2 D4) = "d4"%string) by (vm_compute; reflexivity).
  assert (H3 : ¬ flagged (mistakes_database (sample_system [] []))
                         (_get_position_hash starting_board) "d4").
  { intros (ms & m & Hms & Hm & _).
    change (_get_position_hash starting_board) with start_hash in Hms.
    unfold sample_system in Hms. cbn [mistakes_database] in Hms.
    rewrite lookup_singleton_eq in Hms. injection Hms as <-.
    by apply elem_of_nil in Hm. }
  split; [exact H1|]. split; [exact H2|]. split; [exact H3|].
  exact (proj2 (proj2 (proj2 (proj2 record_mistake_severity_and_filter)
                         sample_rules (sample_system [] []) starting_board
                         (mv E2 E4) (mv D2 D4) H1 H2 H3))).
Defined.

End SeverityClaims.

(* ===================================================================== *)
(** * Classification and search budgets *)
(* ===================================================================== *)

Section ClassifierClaims.
Import Chess Analyzer Samples.

(** The ordered rule list of the specification, over the move count and
    the seven features the rules read: the first rule that holds gives
    the tag. *)
Definition classify_spec (move_count : nat)
  (piece_count pawn_structure center_control complexity tactical material space : Q)
  : PositionType :=
  if move_count <=? 8 then OPENING
  else if Qle_bool 0.8 piece_count then ENDGAME
  else if Qle_bool 0.7 pawn_structure && Qle_bool center_control 0.3
          && Qle_bool 0.6 complexity then CLOSED
  else if Qle_bool 0.7 tactical || Qle_bool 0.5 material then CRITICAL
  else if Qle_bool 0.5 tactical then TACTICAL
  else if Qle_bool 0.6 pawn_structure && Qle_bool 0.5 space then STRATEGIC
  else if Qle_bool 0.7 complexity then COMPLEX
  else if Qle_bool 0.5 center_control then OPEN
  else SIMPLE.

(** C6, as the code has it. The tag is a function of the feature vector
    and of the number of moves on the board's move stack: boards with
    move stacks of equal length get the same tag for the same features.
    The rules are tried in the order of the specification and the first
    that holds decides; in particular, with more than 8 moves played, a
    position whose features satisfy both the Endgame rule and the
    Critical rule is tagged Endgame. *)
Theorem classify_position_first_match :
  (∀ (b1 b2 : Board) (features : gmap string Q),
     length (move_stack b1) = length (move_stack b2) →
     _classify_position b1 features = _classify_position b2 features)
  ∧ (∀ (board : Board) (features : gmap string Q) (pc ps cc cx tac mb sc : Q),
       features !! "piece_count"%string = Some pc →
       features !! "pawn_structure"%string = Some ps →
       features !! "center_control"%string = Some cc →
       features !! "position_complexity"%string = Some cx →
       features !! "tactical_opportunities"%string = Some tac →
       features !! "material_balance"%string = Some mb →
       features !! "space_control"%string = Some sc →
       _classify_position board features
       = Some (classify_spec (length (move_stack board)) pc ps cc cx tac mb sc))
  ∧ (∀ (board : Board) (features : gmap string Q) (pc tac mb : Q),
       8 < length (move_stack board) →
       features !! "piece_count"%string = Some pc →
       features !! "tactical_opportunities"%string = Some tac →
       features !! "material_balance"%string = Some mb →
       (0.8 <= pc)%Q →
       (0.7 <= tac ∨ 0.5 <= mb)%Q →
       _classify_position board features = Some ENDGAME).
Proof.
  split; [|split].
  - intros b1 b2 features Hlen. unfold _classify_position. by rewrite Hlen.
  - intros board features pc ps cc cx tac mb sc Hpc Hps Hcc Hcx Htac Hmb Hsc.
    unfold _classify_position, classify_spec, ge, le, getitem, Qgeb, Qleb.
    rewrite Hpc, Hps, Hcc, Hcx, Htac, Hmb, Hsc. simpl.
    destruct (length (move_stack board) <=? 8); [done|].
    destruct (Qle_bool 0.8 pc); [done|].
    destruct (Qle_bool 0.7 ps), (Qle_bool cc 0.3), (Qle_bool 0.6 cx); simpl; try done;
      destruct (Qle_bool 0.7 tac), (Qle_bool 0.5 mb); simpl; try done;
      destruct (Qle_bool 0.5 tac); simpl; try done;
      destruct (Qle_bool 0.6 ps), (Qle_bool 0.5 sc); simpl; try done;
      destruct (Qle_bool 0.7 cx); simpl; try done;
      destruct (Qle_bool 0.5 cc); simpl; done.
  - intros board features pc tac mb Hmoves Hpc Htac Hmb Hend Hcrit.
    unfold _classify_position, ge, getitem, Qgeb. rewrite Hpc. simpl.
    apply Nat.leb_gt in Hmoves. rewrite Hmoves.
    apply Qle_bool_iff in Hend. by rewrite Hend.
Qed.

Lemma classify_position_first_match_witness :
  8 < length (move_stack kings_played)
  ∧ (0.8 <= 0.9375)%Q
  ∧ (0.7 <= 0 ∨ 0.5 <= 0.6)%Q
  ∧ _classify_position kings_played
      (<["piece_count"%string := 0.9375%Q]>
         (<["tactical_opportunities"%string := 0%Q]>
            {[ "material_balance"%string := 0.6%Q ]}))
    = Some ENDGAME.
Proof.
  assert (H1 : 8 < length (move_stack kings_played)) by (vm_compute; lia).
  assert (H2 : (0.8 <= 0.9375)%Q) by lra.
  assert (H3 : (0.7 <= 0 ∨ 0.5 <= 0.6)%Q) by (right; lra).
  split; [exact H1|]. split; [exact H2|]. split; [exact H3|].
  apply (proj2 (proj2 classify_position_first_match) kings_played _ 0.9375%Q 0%Q 0.6%Q);
    [exact H1|reflexivity|reflexivity|reflexivity|exact H2|exact H3].
Defined.

(** The claim as written fails: the tag is not a function of the
    canonical serialization. A board set up from a FEN has an empty move
    stack and is tagged as an opening; the board that reached the same
    FEN by twelve moves is tagged as an endgame. *)
Lemma same_fen_different_tag :
  fen kings_set_up = fen kings_played
  ∧ position_type <$> analyze_position kings_set_up = Some OPENING
  ∧ position_type <$> analyze_position kings_played = Some ENDGAME.
Proof. vm_compute. repeat split; reflexivity. Qed.

(** C7. With the search engine chosen, the time budget is 2.0 seconds
    times 1.5 when [position_complexity >= 0.7], times 2.0 for a Critical
    position, times 0.7 for an Endgame position; the depth budget is 20
    plies plus 10, plus 15 and plus 5 under the same three conditions. *)
Theorem time_and_depth_allocation (tag : PositionType) (features : gmap string Q)
  (complexity : Q) :
  features !! "position_complexity"%string = Some complexity →
  _calculate_time_allocation tag features
  = Some (2.0 * (if Qle_bool 0.7 complexity then 1.5 else 1)
              * (if decide (tag = CRITICAL) then 2.0 else 1)
              * (if decide (tag = ENDGAME) then 0.7 else 1))%Q
  ∧ _calculate_depth_allocation tag features
    = Some (20 + (if Qle_bool 0.7 complexity then 10 else 0)
               + (if decide (tag = CRITICAL) then 15 else 0)
               + (if decide (tag = ENDGAME) then 5 else 0)).
Proof.
  intros Hcx. unfold _calculate_time_allocation, _calculate_depth_allocation, getitem, Qgeb.
  rewrite Hcx.
  destruct (Qle_bool 0.7 complexity); destruct tag; split; reflexivity.
Qed.

Lemma time_and_depth_allocation_witness :
  ({[ "position_complexity"%string := 0.75%Q ]} : gmap string Q)
    !! "position_complexity"%string = Some 0.75%Q
  ∧ _calculate_time_allocation CRITICAL {[ "position_complexity"%string := 0.75%Q ]}
    = Some (2.0 * 1.5 * 2.0 * 1)%Q
  ∧ _calculate_depth_allocation CRITICAL {[ "position_complexity"%string := 0.75%Q ]}
    = Some 45.
Proof.
  split; [reflexivity|].
  apply (time_and_depth_allocation CRITICAL {[ "position_complexity"%string := 0.75%Q ]}
           0.75%Q).
  reflexivity.
Defined.

End ClassifierClaims.

(* ===================================================================== *)
(** * The priority chain of move sources *)
(* ===================================================================== *)

Section ChainClaims.
Import Chess Wrapper Samples.

(** The failure semantics in the words of the specification: the
    sources are tried in priority order, the first one that yields a
    move gives the result, and the result is "no move" when all fail. *)
Fixpoint first_available (sources : list (M (option Move))) : M (option Move) :=
  match sources with
  | [] => mret None
  | source :: lower =>
      move ← source;
      match move with
      | Some m => mret (Some m)
      | None => first_available lower
      end
  end.

Definition is_probe (e : Event) : Prop :=
  match e with TablebaseProbe _ => True | _ => False end.

Definition probed (tb : Tablebase) `{Rules} (board : Board) (m : Move) : Prop :=
  is_Some (probe_dtz tb (push board m)).

(** The choice made by one iteration, without its effects. *)
Definition dtz_pick (best : option Move * option Z) (move : Move) (move_dtz : option Z)
  : option Move * option Z :=
  match move_dtz with
  | Some d =>
      if match snd best with
         | None => true
         | Some bd => (Z.abs d <? Z.abs bd)%Z
         end
      then (Some move, Some d) else best
  | None => best
  end.

Lemma dtz_step_eq `{Rules} (tb : Tablebase) (board : Board)
  (best : option Move * option Z) (move : Move) (w : World) :
  dtz_step tb board best move w
  = (dtz_pick best move (probe_dtz tb (push board move)), w,
     [TablebaseProbe (push board move)]).
Proof.
  destruct best as [bm bd].
  unfold dtz_step, dtz_pick, probe, emit, mbind, M_bind, mret, M_ret. cbn.
  destruct (probe_dtz tb (push board move)) as [d|]; [|done].
  destruct bd as [old|]; cbn; [|done]. by destruct (Z.abs d <? Z.abs old)%Z.
Qed.

Lemma dtz_loop_cons `{Rules} (tb : Tablebase) (board : Board) (move : Move)
  (rest : list Move) (best : option Move * option Z) (w : World) :
  dtz_loop tb board (move :: rest) best w
  = let r := dtz_loop tb board rest
                      (dtz_pick best move (probe_dtz tb (push board move))) w in
    (result r, world r, TablebaseProbe (push board move) :: events r).
Proof.
  cbn [dtz_loop]. unfold mbind at 1, M_bind. rewrite dtz_step_eq.
  by destruct (dtz_loop tb board rest _ w) as [[best' w'] evs].
Qed.

Lemma dtz_loop_effects `{Rules} (tb : Tablebase) (board : Board) (moves : list Move)
  (best : option Move * option Z) (w : World) :
  world (dtz_loop tb board moves best w) = w
  ∧ Forall is_probe (events (dtz_loop tb board moves best w)).
Proof.
  revert best. induction moves as [|move rest IH]; intros best.
  - split; [done|constructor].
  - rewrite dtz_loop_cons. cbn. destruct (IH (dtz_pick best move
      (probe_dtz tb (push board move)))) as [Hw Hev].
    split; [done|]. by constructor.
Qed.

(** The loop hands back a legal move as soon as one successor is known
    to the tablebase. *)
Lemma dtz_loop_result `{Rules} (tb : Tablebase) (board : Board) (moves : list Move)
  (bm : option Move) (bd : option Z) (w : World) :
  (is_Some bd → is_Some bm) →
  match fst (result (dtz_loop tb board moves (bm, bd) w)) with
  | Some m => m ∈ moves ∨ Some m = bm
  | None => bm = None ∧ Forall (fun m => ¬ probed tb board m) moves
  end.
Proof.
  revert bm bd. induction moves as [|move rest IH]; intros bm bd Hpair.
  - cbn. destruct bm as [m|]; [by right|]. split; [done|constructor].
  - rewrite dtz_loop_cons. cbn [result fst snd].
    destruct (probe_dtz tb (push board move)) as [d|] eqn:Hd.
    + assert (Hcases : dtz_pick (bm, bd) move (Some d) = (Some move, Some d)
                       ∨ dtz_pick (bm, bd) move (Some d) = (bm, bd) ∧ is_Some bm).
      { unfold dtz_pick. cbn. destruct bd as [old|]; [|by left].
        destruct (Z.abs d <? Z.abs old)%Z; [by left|].
        right. split; [done|]. apply Hpair. by eexists. }
      destruct Hcases as [-> |[-> Hbm]].
      * specialize (IH (Some move) (Some d) (fun _ => ltac:(by eexists))).
        unfold result in IH.
        destruct (dtz_loop tb board rest (Some move, Some d) w) as [[[r1 r2] w2] evs2].
        cbn in *. destruct r1 as [m|].
        -- destruct IH as [?|[= ->]]; left; [by apply list_elem_of_further|].
           apply list_elem_of_here.
        -- by destruct IH.
      * specialize (IH bm bd Hpair). unfold result in IH.
        destruct (dtz_loop tb board rest (bm, bd) w) as [[[r1 r2] w2] evs2].
        cbn in *. destruct r1 as [m|].
        -- destruct IH as [?|?]; [left; by apply list_elem_of_further|by right].
        -- destruct IH as [-> _]. by destruct Hbm.
    + cbn [dtz_pick]. specialize (IH bm bd Hpair). unfold result in IH.
      destruct (dtz_loop tb board rest (bm, bd) w) as [[[r1 r2] w2] evs2].
      cbn in *. destruct r1 as [m|].
      * destruct IH as [?|?]; [left; by apply list_elem_of_further|by right].
      * destruct IH as [-> Hall]. split; [done|]. constructor; [|done].
        unfold probed. rewrite Hd. by intros [? [=]].
Qed.

Lemma get_tablebase_move_eq `{Rules} (tb : Tablebase) (board : Board) (w : World) :
  _get_tablebase_move tb board w
  = match probe_wdl tb board with
    | None => (None, w, [TablebaseProbe board])
    | Some _ =>
        match probe_dtz tb board with
        | None => (None, w, [TablebaseProbe board; TablebaseProbe board])
        | Some _ =>
            let r := dtz_loop tb board (legal_moves board) (None, None) w in
            (fst (result r), world r,
             TablebaseProbe board :: TablebaseProbe board :: events r)
        end
    end.
Proof.
  unfold _get_tablebase_move, probe, emit, mbind, M_bind, mret, M_ret. cbn.
  destruct (probe_wdl tb board) as [wdl|]; [|done].
  destruct (probe_dtz tb board) as [dtz|]; [|done].
  destruct (dtz_loop tb board (legal_moves board) (None, None) w) as [[best w1] evs].
  cbn. by rewrite app_nil_r.
Qed.

Lemma get_tablebase_move_effects `{Rules} (tb : Tablebase) (board : Board) (w : World) :
  world (_get_tablebase_move tb board w) = w
  ∧ Forall is_probe (events (_get_tablebase_move tb board w))
  ∧ TablebaseProbe board ∈ events (_get_tablebase_move tb board w).
Proof.
  rewrite get_tablebase_move_eq.
  destruct (probe_wdl tb board) as [wdl|].
  - destruct (probe_dtz tb board) as [dtz|].
    + destruct (dtz_loop_effects tb board (legal_moves board) (None, None) w) as [Hw Hev].
      cbn. split; [done|]. split; [|apply list_elem_of_here].
      by repeat constructor.
    + split; [done|]. split; [repeat constructor|apply list_elem_of_here].
  - split; [done|]. split; [repeat constructor|apply list_elem_of_here].
Qed.

Lemma get_tablebase_move_result `{Rules} (tb : Tablebase) (board : Board) (w : World) :
  is_Some (probe_wdl tb board) →
  is_Some (probe_dtz tb board) →
  Exists (probed tb board) (legal_moves board) →
  ∃ m, result (_get_tablebase_move tb board w) = Some m ∧ m ∈ legal_moves board.
Proof.
  intros [wdl Hwdl] [dtz Hdtz] Hex.
  rewrite get_tablebase_move_eq, Hwdl, Hdtz. cbn [result fst].
  pose proof (dtz_loop_result tb board (legal_moves board) None None w
                (fun Hs => ltac:(by destruct Hs))) as Hres.
  destruct (fst (result (dtz_loop tb board (legal_moves board) (None, None) w)))
    as [m|].
  - exists m. split; [done|]. by destruct Hres.
  - destruct Hres as [_ Hall]. apply Exists_exists in Hex as (m & Hm & Hp).
    rewrite Forall_forall in Hall. by destruct (Hall m Hm).
Qed.

(** ** The weighted draw from the book *)

Definition advance (w : World) : World := mkWorld (rand w) (below w) (S (cursor w)).

(** The running total of the scan after the entries of [l], started at [c]. *)
Definition cumulative (c : N) (l : list Entry) : N :=
  fold_left (fun acc e => (acc + weight e)%N) l c.

(** In the words of the specification: [e] is the entry at which the
    cumulative weights, scanned from the front, first reach the draw [r]. *)
Definition first_reaching (r : Q) (c : N) (entries : list Entry) (e : Entry) : Prop :=
  ∃ before after,
    entries = before ++ e :: after
    ∧ (r <= QofN (cumulative c (before ++ [e])))%Q
    ∧ ∀ p x q, before = p ++ x :: q → (QofN (cumulative c (p ++ [x])) < r)%Q.

Lemma cumulative_snoc (c : N) (l : list Entry) (e : Entry) :
  cumulative c (l ++ [e]) = (cumulative c l + weight e)%N.
Proof. unfold cumulative. by rewrite fold_left_app. Qed.

Lemma scan_first_reaching (r : Q) (c : N) (entries : list Entry) (e : Entry) :
  scan r c entries = Some e → first_reaching r c entries e.
Proof.
  revert c. induction entries as [|x rest IH]; intros c; cbn [scan]; [done|].
  destruct (Qle_bool r (QofN (c + weight x))) eqn:Hle.
  - intros [= <-]. exists [], rest. split; [done|]. split.
    + by apply Qle_bool_iff in Hle.
    + intros p y q Hsplit. by destruct p.
  - intros Hrest. destruct (IH _ Hrest) as (before & after & -> & Hreach & Hfirst).
    exists (x :: before), after. split; [done|]. split; [exact Hreach|].
    intros p y q Hsplit. destruct p as [|x' p]; simplify_eq/=.
    + apply Qnot_le_lt. intros Hn. apply Qle_bool_iff in Hn.
      unfold cumulative in Hn. cbn in Hn. congruence.
    + by eapply Hfirst.
Qed.

Lemma scan_hits (r : Q) (c : N) (entries : list Entry) :
  entries ≠ [] → (r <= QofN (cumulative c entries))%Q → is_Some (scan r c entries).
Proof.
  revert c. induction entries as [|x rest IH]; intros c Hne Hr; [done|]. cbn [scan].
  destruct (Qle_bool r (QofN (c + weight x))) eqn:Hle; [by eexists|].
  apply IH; [|exact Hr]. intros ->. cbn in Hr.
  apply Qle_bool_iff in Hr. congruence.
Qed.

Lemma QofN_add (a b : N) : (QofN (a + b) == QofN a + QofN b)%Q.
Proof. unfold QofN. by rewrite N2Z.inj_add, inject_Z_plus. Qed.

Lemma QofN_pos (n : N) : (0 < QofN n)%Q → (0 < n)%N.
Proof.
  unfold QofN. intros Hn. destruct n as [|p]; [|lia].
  cbn in Hn. by apply Qlt_irrefl in Hn.
Qed.

Lemma QofN_nonneg (n : N) : (0 <= QofN n)%Q.
Proof. unfold QofN. change 0%Q with (inject_Z 0). rewrite <- Zle_Qle. lia. Qed.

Lemma first_reaching_weight (r : Q) (entries : list Entry) (e : Entry) :
  (0 < r)%Q → first_reaching r 0 entries e → (0 < weight e)%N.
Proof.
  intros Hr (before & after & -> & Hreach & Hfirst).
  rewrite cumulative_snoc, QofN_add in Hreach. apply QofN_pos.
  destruct (decide (before = [])) as [-> |Hne].
  - change (QofN (cumulative 0 [])) with 0%Q in Hreach. lra.
  - destruct (exists_last Hne) as (p & x & ->).
    specialize (Hfirst p x [] eq_refl). lra.
Qed.

Lemma first_reaching_elem (r : Q) (c : N) (entries : list Entry) (e : Entry) :
  first_reaching r c entries e → e ∈ entries.
Proof.
  intros (before & after & -> & _). apply elem_of_app. right. apply list_elem_of_here.
Qed.

Lemma uniform_range (total u : Q) :
  (0 < total)%Q → (0 <= u < 1)%Q →
  (0 <= 0 + (total - 0) * u < total)%Q.
Proof. intros Ht [Hu0 Hu1]. split; nra. Qed.

Lemma select_entry_eq (entries : list Entry) (w : World) :
  entries ≠ [] →
  select_entry entries w
  = (if (sum_weights entries =? 0)%N
     then entries !! below w (cursor w) (length entries)
     else weighted_pick (0 + (QofN (sum_weights entries) - 0) * rand w (cursor w))%Q
                        entries,
     advance w, []).
Proof.
  intros Hne. destruct entries as [|e0 rest]; [done|].
  unfold select_entry, choice, uniform, random, mbind, M_bind, mret, M_ret, advance.
  by destruct (sum_weights (e0 :: rest) =? 0)%N.
Qed.

Lemma find_all_Some (bk : Book) (board : Board) (minimum_weight : N)
  (entries : list Entry) :
  find_all bk board minimum_weight = Some entries →
  ∃ raw, bk board = Some raw
         ∧ entries = filter (fun entry => (minimum_weight <= weight entry)%N) raw.
Proof.
  unfold find_all. destruct (bk board) as [raw|]; [|done].
  intros [= <-]. by exists raw.
Qed.

Lemma find_all_weight (bk : Book) (board : Board) (minimum_weight : N)
  (entries : list Entry) (e : Entry) :
  find_all bk board minimum_weight = Some entries → e ∈ entries →
  (minimum_weight <= weight e)%N ∧ ∃ raw, bk board = Some raw ∧ e ∈ raw.
Proof.
  intros Hfound He. apply find_all_Some in Hfound as (raw & Hraw & ->).
  apply list_elem_of_filter in He as [Hweight He]. split; [done|]. by exists raw.
Qed.

Lemma cumulative_grows (c : N) (l : list Entry) : (c <= cumulative c l)%N.
Proof.
  revert c. induction l as [|e rest IH]; intros c; [done|].
  unfold cumulative in *. cbn [fold_left]. specialize (IH (c + weight e)%N). lia.
Qed.

Lemma sum_weights_pos (entries : list Entry) :
  entries ≠ [] → (∀ e, e ∈ entries → (1 <= weight e)%N) → (0 < sum_weights entries)%N.
Proof.
  destruct entries as [|e0 rest]; [done|]. intros _ Hall.
  pose proof (Hall e0 (list_elem_of_here _ _)) as He0.
  pose proof (cumulative_grows (0 + weight e0) rest) as Hrest.
  unfold sum_weights, cumulative in *. cbn [fold_left]. lia.
Qed.

(** The scan of a list of positive total weight. *)
Lemma select_entry_scan (entries : list Entry) (w : World) :
  (0 < sum_weights entries)%N →
  (0 <= rand w (cursor w) < 1)%Q →
  let r := (0 + (QofN (sum_weights entries) - 0) * rand w (cursor w))%Q in
  (0 <= r < QofN (sum_weights entries))%Q
  ∧ ∃ e, select_entry entries w = (Some e, advance w, [])
         ∧ first_reaching r 0 entries e.
Proof.
  intros Hpos Hu r.
  assert (Hne : entries ≠ []) by (intros ->; cbn in Hpos; lia).
  assert (Hrange : (0 <= r < QofN (sum_weights entries))%Q).
  { apply uniform_range; [|done]. unfold QofN.
    change 0%Q with (inject_Z 0). rewrite <- Zlt_Qlt. lia. }
  split; [exact Hrange|]. rewrite select_entry_eq by done.
  destruct (sum_weights entries =? 0)%N eqn:Hz; [apply N.eqb_eq in Hz; lia|].
  destruct (scan_hits r 0 entries Hne) as [e He].
  { destruct Hrange as [_ Hlt]. by apply Qlt_le_weak. }
  exists e. unfold weighted_pick. fold r. rewrite He.
  split; [done|]. by apply scan_first_reaching.
Qed.

Definition zero_entry : Entry := mkEntry (mv E2 E4) 0.
Definition heavy_entry : Entry := mkEntry (mv D2 D4) 5.
Definition light_entry : Entry := mkEntry (mv G1 21) 3.

(** A reader whose file holds three entries for every position, the
    first of weight 0. *)
Definition sample_book : Book := fun _ => Some [zero_entry; heavy_entry; light_entry].

Definition book_only : EngineWrapper := mkWrapper None None (Some sample_book).

(** C8. The entries handed to the selection are those [find_all] yields,
    all of weight at least 1. Whenever that list is not empty its total
    weight is positive, one random value [u] in [0, 1) is drawn, the draw
    [r = total * u] lies in [0, total), and the move returned is that of
    the first entry at which the cumulative weights reach [r]; that entry
    has a positive weight, and an entry of weight 0 in the book file is
    not even among the entries scanned. *)
Theorem book_entry_weighted_draw (self : EngineWrapper) (bk : Book) (board : Board)
  (entries : list Entry) (w : World) :
  book self = Some bk →
  find_all bk board 1 = Some entries →
  entries ≠ [] →
  (0 <= rand w (cursor w) < 1)%Q →
  let total_weight := sum_weights entries in
  let r := (0 + (QofN total_weight - 0) * rand w (cursor w))%Q in
  (0 < total_weight)%N
  ∧ (0 <= r < QofN total_weight)%Q
  ∧ (∃ e, _get_book_move self board w
          = (Some (entry_move e), advance w, [BookLookup board])
          ∧ first_reaching r 0 entries e
          ∧ e ∈ entries
          ∧ (0 < weight e)%N)
  ∧ (∀ raw e, bk board = Some raw → e ∈ raw → weight e = 0%N → e ∉ entries).
Proof.
  intros Hbook Hfound Hne Hu total_weight r.
  assert (Hpos : (0 < total_weight)%N).
  { apply sum_weights_pos; [done|]. intros e He.
    by destruct (find_all_weight _ _ _ _ _ Hfound He). }
  destruct (select_entry_scan entries w Hpos Hu) as (Hrange & e & Hselect & Hfirst).
  split; [exact Hpos|]. split; [exact Hrange|]. split.
  - exists e. pose proof (first_reaching_elem _ _ _ _ Hfirst) as He.
    split; [|split; [done|split; [done|]]].
    + unfold _get_book_move. rewrite Hbook, Hfound.
      unfold emit, mbind, M_bind, mret, M_ret. by rewrite Hselect.
    + destruct (find_all_weight _ _ _ _ _ Hfound He) as [Hweight _]. lia.
  - intros raw e' Hraw He' Hzero Hin.
    destruct (find_all_weight _ _ _ _ _ Hfound Hin) as [Hweight _]. lia.
Qed.

Lemma book_entry_weighted_draw_witness :
  book book_only = Some sample_book
  ∧ find_all sample_book starting_board 1 = Some [heavy_entry; light_entry]
  ∧ [heavy_entry; light_entry] ≠ []
  ∧ (0 <= rand (mkWorld (draws [0.7%Q]) first_index 0)
               (cursor (mkWorld (draws [0.7%Q]) first_index 0)) < 1)%Q
  ∧ (0 < sum_weights [heavy_entry; light_entry])%N
  ∧ ∃ e, _get_book_move book_only starting_board (mkWorld (draws [0.7%Q]) first_index 0)
         = (Some (entry_move e), advance (mkWorld (draws [0.7%Q]) first_index 0),
            [BookLookup starting_board])
         ∧ first_reaching
             (0 + (QofN (sum_weights [heavy_entry; light_entry]) - 0)
                  * rand (mkWorld (draws [0.7%Q]) first_index 0)
                         (cursor (mkWorld (draws [0.7%Q]) first_index 0)))%Q
             0 [heavy_entry; light_entry] e
         ∧ e ∈ [heavy_entry; light_entry]
         ∧ (0 < weight e)%N.
Proof.
  assert (H1 : book book_only = Some sample_book) by reflexivity.
  assert (H2 : find_all sample_book starting_board 1 = Some [heavy_entry; light_entry])
    by (vm_compute; reflexivity).
  assert (H3 : [heavy_entry; light_entry] ≠ []) by done.
  assert (H4 : (0 <= rand (mkWorld (draws [0.7%Q]) first_index 0)
                          (cursor (mkWorld (draws [0.7%Q]) first_index 0)) < 1)%Q)
    by (cbn; split; lra).
  split; [exact H1|]. split; [exact H2|]. split; [exact H3|]. split; [exact H4|].
  pose proof (book_entry_weighted_draw book_only sample_book starting_board
                [heavy_entry; light_entry] (mkWorld (draws [0.7%Q]) first_index 0)
                H1 H2 H3 H4) as Hdraw.
  cbv zeta in Hdraw. split; [exact (proj1 Hdraw)|].
  exact (proj1 (proj2 (proj2 Hdraw))).
Defined.

(** A draw of 5.6 out of 8 passes the entry of weight 5 and stops at the
    one of weight 3. *)
Example weighted_draw_sample :
  _get_book_move book_only starting_board (mkWorld (draws [0.7%Q]) first_index 0)
  = (Some (entry_move light_entry), mkWorld (draws [0.7%Q]) first_index 1,
     [BookLookup starting_board]).
Proof. vm_compute. reflexivity. Qed.

(** Even a draw of exactly 0 does not select the entry of weight 0 that
    leads the book file: the lookup has dropped it. *)
Example zero_draw_skips_zero_weight :
  _get_book_move book_only starting_board (mkWorld (draws [0%Q]) first_index 0)
  = (Some (entry_move heavy_entry), mkWorld (draws [0%Q]) first_index 1,
     [BookLookup starting_board]).
Proof. vm_compute. reflexivity. Qed.

(** ** The three stages of [get_move] *)

Lemma select_entry_effects (entries : list Entry) (w : World) :
  events (select_entry entries w) = [].
Proof.
  destruct entries as [|e0 rest]; [done|].
  by rewrite select_entry_eq.
Qed.

Lemma select_entry_elem (entries : list Entry) (w : World) (e : Entry) :
  result (select_entry entries w) = Some e → e ∈ entries.
Proof.
  destruct entries as [|e0 rest]; [done|].
  rewrite select_entry_eq by done. unfold result. cbn [fst].
  destruct (sum_weights (e0 :: rest) =? 0)%N.
  - apply list_elem_of_lookup_2.
  - unfold weighted_pick.
    destruct (scan _ 0 (e0 :: rest)) as [e'|] eqn:Hscan.
    + intros [= <-]. eapply first_reaching_elem. by apply scan_first_reaching.
    + intros [= <-]. apply list_elem_of_here.
Qed.

Lemma tablebase_stage_eq `{Rules} (self : EngineWrapper) (board : Board) (w : World) :
  tablebase_stage self board w
  = match tablebase self with
    | Some tb =>
        if length (piece_map board) <=? 6 then
          let r := _get_tablebase_move tb board w in
          (if truthy (result r) then result r else None, world r, events r)
        else (None, w, [])
    | None => (None, w, [])
    end.
Proof.
  unfold tablebase_stage, _should_use_tablebase.
  destruct (tablebase self) as [tb|]; [|done].
  change Config.SYZYGY_probe_limit with 6.
  destruct (length (piece_map board) <=? 6); [|done].
  unfold mbind, M_bind, mret, M_ret, result, world, events.
  destruct (_get_tablebase_move tb board w) as [[move w1] evs]. cbn.
  by rewrite app_nil_r.
Qed.

Lemma book_stage_eq `{Rules} (self : EngineWrapper) (board : Board) (w : World) :
  book_stage self board w
  = match book self with
    | Some bk =>
        if length (move_stack board) <? 15 then
          if Qle_bool 0.8 (rand w (cursor w)) then (None, advance w, [])
          else
            match find_all bk board 1 with
            | Some entries =>
                let r := select_entry entries (advance w) in
                let move := entry_move <$> result r in
                (if truthy move then move else None, world r, [BookLookup board])
            | None => (None, advance w, [BookLookup board])
            end
        else (None, w, [])
    | None => (None, w, [])
    end.
Proof.
  unfold book_stage, _should_use_book, _get_book_move.
  destruct (book self) as [bk|]; [|done].
  change Config.BOOK_max_book_moves with 15.
  change Config.GAME_book_probability with 0.8%Q.
  destruct (length (move_stack board) <? 15); [|done].
  unfold random, emit, mbind, M_bind, mret, M_ret. cbn.
  destruct (Qle_bool 0.8 (rand w (cursor w))); cbn; [done|]. fold (advance w).
  destruct (find_all bk board 1) as [entries|]; [|done].
  pose proof (select_entry_effects entries (advance w)) as Hev.
  unfold result, world, events in *.
  destruct (select_entry entries (advance w)) as [[e w1] evs]. cbn in *. by subst evs.
Qed.

Lemma engine_stage_eq `{Rules} (self : EngineWrapper) (board : Board)
  (time_limit : option Q) (w : World) :
  engine_stage self board time_limit w
  = match engine self with
    | Some eng =>
        let t := default Config.GAME_engine_time_limit time_limit in
        (if truthy (eng board t) then eng board t else None, w, [EnginePlay board t])
    | None => (None, w, [])
    end.
Proof.
  unfold engine_stage, _get_engine_move. by destruct (engine self) as [eng|].
Qed.

Lemma truthy_Some (o : option Move) (m : Move) :
  (if truthy o then o else None) = Some m → o = Some m ∧ Move_bool m = true.
Proof. destruct o as [m'|]; cbn; [|done]. by destruct (Move_bool m') eqn:Hb; intros [= <-]. Qed.

Definition tablebase_only : EngineWrapper := mkWrapper None (Some sample_tablebase) None.

Definition fresh_world : World := mkWorld (draws []) first_index 0.

(** C9. On a board that is already game over, the move request returns
    [None] at once: no collaborator is called and no random value is
    drawn. *)
Theorem game_over_returns_none `{Rules} (self : EngineWrapper) (board : Board)
  (time_limit : option Q) (w : World) :
  is_game_over board = true →
  get_move self board time_limit w = (None, w, []).
Proof. intros Hover. unfold get_move. by rewrite Hover. Qed.

Lemma game_over_returns_none_witness :
  is_game_over kqk_drawn = true
  ∧ get_move tablebase_only kqk_drawn None fresh_world = (None, fresh_world, []).
Proof.
  assert (H1 : is_game_over kqk_drawn = true) by (vm_compute; reflexivity).
  split; [exact H1|].
  exact (game_over_returns_none tablebase_only kqk_drawn None fresh_world H1).
Defined.

(** C2, as the code has it. On a board that is not game over the sources
    are tried in the fixed order tablebase, book, engine; the first that
    yields a move gives the result and the result is [None] when all
    fail. The tablebase is consulted exactly when it is loaded and at most
    6 pieces are on the board; the book exactly when it is loaded, fewer
    than 15 moves are on the move stack and the random value drawn for
    this call is below 0.8; the engine exactly when it is loaded and the
    two others gave nothing. A move handed back by a stage comes from that
    stage's collaborator (for the book, from an entry of weight at least
    1). For a 3-piece position that the tablebase knows,
    with a distance for at least one successor, the move returned is the
    tablebase's, and neither the book nor the engine nor the random
    generator is touched. *)
Theorem get_move_priority_chain `{Rules} (self : EngineWrapper) (board : Board)
  (time_limit : option Q) (w : World) :
  is_game_over board = false →
  get_move self board time_limit w
  = first_available [ tablebase_stage self board; book_stage self board;
                      engine_stage self board time_limit ] w
  ∧ (∀ w', (∃ b, TablebaseProbe b ∈ events (tablebase_stage self board w'))
           ↔ is_Some (tablebase self) ∧ length (piece_map board) ≤ 6)
  ∧ (∀ w', BookLookup board ∈ events (book_stage self board w')
           ↔ is_Some (book self) ∧ length (move_stack board) < 15
             ∧ (rand w' (cursor w') < 0.8)%Q)
  ∧ (∀ w', (∃ t, EnginePlay board t ∈ events (engine_stage self board time_limit w'))
           ↔ is_Some (engine self))
  ∧ (∀ w' m, result (tablebase_stage self board w') = Some m →
             ∃ tb, tablebase self = Some tb
                   ∧ result (_get_tablebase_move tb board w') = Some m)
  ∧ (∀ w' m, result (book_stage self board w') = Some m →
             ∃ bk entries e, book self = Some bk ∧ bk board = Some entries
                             ∧ e ∈ entries ∧ entry_move e = m
                             ∧ (1 <= weight e)%N)
  ∧ (∀ w' m, result (engine_stage self board time_limit w') = Some m →
             ∃ eng, engine self = Some eng
                    ∧ eng board (default Config.GAME_engine_time_limit time_limit) = Some m)
  ∧ (∀ tb, tablebase self = Some tb →
           length (piece_map board) = 3 →
           is_Some (probe_wdl tb board) →
           is_Some (probe_dtz tb board) →
           Exists (probed tb board) (legal_moves board) →
           (∀ m, m ∈ legal_moves board → Move_bool m = true) →
           ∃ m, get_move self board time_limit w
                = (Some m, w, events (_get_tablebase_move tb board w))
                ∧ result (_get_tablebase_move tb board w) = Some m
                ∧ m ∈ legal_moves board
                ∧ Forall is_probe (events (_get_tablebase_move tb board w))).
Proof.
  intros Hgo.
  assert (Hchain : get_move self board time_limit w
    = first_available [ tablebase_stage self board; book_stage self board;
                        engine_stage self board time_limit ] w).
  { unfold get_move. by rewrite Hgo. }
  split; [exact Hchain|].
  split; [|split; [|split; [|split; [|split; [|split]]]]].
  - intros w'. rewrite tablebase_stage_eq. split.
    + destruct (tablebase self) as [tb|].
      * destruct (length (piece_map board) <=? 6) eqn:Hcount.
        -- intros _. split; [by eexists|]. by apply Nat.leb_le.
        -- intros (b & Hb). by apply elem_of_nil in Hb.
      * intros (b & Hb). by apply elem_of_nil in Hb.
    + intros [[tb Htb] Hcount]. rewrite Htb.
      apply Nat.leb_le in Hcount. rewrite Hcount. exists board. cbn.
      apply get_tablebase_move_effects.
  - intros w'. rewrite book_stage_eq. split.
    + destruct (book self) as [bk|].
      * destruct (length (move_stack board) <? 15) eqn:Hnum.
        -- destruct (Qle_bool 0.8 (rand w' (cursor w'))) eqn:Hdraw.
           ++ intros Hb. by apply elem_of_nil in Hb.
           ++ intros _. split; [by eexists|]. split; [by apply Nat.ltb_lt|].
              apply Qnot_le_lt. intros Hle. apply Qle_bool_iff in Hle. congruence.
        -- intros Hb. by apply elem_of_nil in Hb.
      * intros Hb. by apply elem_of_nil in Hb.
    + intros ([bk Hbk] & Hnum & Hdraw). rewrite Hbk.
      apply Nat.ltb_lt in Hnum. rewrite Hnum.
      destruct (Qle_bool 0.8 (rand w' (cursor w'))) eqn:Hle.
      * apply Qle_bool_iff in Hle. lra.
      * destruct (find_all bk board 1); apply list_elem_of_here.
  - intros w'. rewrite engine_stage_eq. split.
    + destruct (engine self) as [eng|]; [by eexists|].
      intros (t & Ht). by apply elem_of_nil in Ht.
    + intros [eng Heng]. rewrite Heng. eexists. apply list_elem_of_here.
  - intros w' m. rewrite tablebase_stage_eq. destruct (tablebase self) as [tb|]; [|done].
    destruct (length (piece_map board) <=? 6); [|done].
    unfold result at 1. cbn [fst]. intros Hm. apply truthy_Some in Hm as [Hm _].
    by exists tb.
  - intros w' m. rewrite book_stage_eq. destruct (book self) as [bk|]; [|done].
    destruct (length (move_stack board) <? 15); [|done].
    destruct (Qle_bool 0.8 (rand w' (cursor w'))); [done|].
    destruct (find_all bk board 1) as [entries|] eqn:Hentries; [|done].
    unfold result at 1. cbn [fst]. intros Hm. apply truthy_Some in Hm as [Hm _].
    destruct (result (select_entry entries (advance w'))) as [e|] eqn:He; [|done].
    injection Hm as <-.
    destruct (find_all_weight _ _ _ _ e Hentries) as (Hweight & raw & Hraw & Hin);
      [by eapply select_entry_elem|].
    by exists bk, raw, e.
  - intros w' m. rewrite engine_stage_eq. destruct (engine self) as [eng|]; [|done].
    unfold result. cbn [fst]. intros Hm. apply truthy_Some in Hm as [Hm _].
    by exists eng.
  - intros tb Htb Hcount Hwdl Hdtz Hex Hbool.
    destruct (get_tablebase_move_result tb board w Hwdl Hdtz Hex) as (m & Hm & Hlegal).
    destruct (get_tablebase_move_effects tb board w) as (Hw & Hev & _).
    exists m. split; [|by repeat split].
    rewrite Hchain. cbn [first_available]. unfold mbind at 1, M_bind.
    rewrite tablebase_stage_eq, Htb, Hcount. cbn [Nat.leb].
    cbv zeta. rewrite Hm, Hw. cbn [truthy]. rewrite (Hbool m Hlegal).
    unfold mret, M_ret. by rewrite app_nil_r.
Qed.

Lemma get_move_priority_chain_witness :
  is_game_over kqk_board = false
  ∧ tablebase tablebase_only = Some sample_tablebase
  ∧ length (piece_map kqk_board) = 3
  ∧ ∃ m, get_move tablebase_only kqk_board None fresh_world
         = (Some m, fresh_world,
            events (_get_tablebase_move sample_tablebase kqk_board fresh_world))
         ∧ result (_get_tablebase_move sample_tablebase kqk_board fresh_world) = Some m
         ∧ m ∈ legal_moves kqk_board
         ∧ Forall is_probe
             (events (_get_tablebase_move sample_tablebase kqk_board fresh_world)).
Proof.
  assert (H1 : is_game_over kqk_board = false) by (vm_compute; reflexivity).
  assert (H2 : length (piece_map kqk_board) = 3) by (vm_compute; reflexivity).
  split; [exact H1|]. split; [reflexivity|]. split; [exact H2|].
  apply (proj2 (proj2 (proj2 (proj2 (proj2 (proj2 (proj2
           (get_move_priority_chain tablebase_only kqk_board None fresh_world H1))))))))
    ; [reflexivity|exact H2|by eexists|by eexists| |].
  - apply Exists_exists. exists (mv E1 D2). split.
    + vm_compute. apply list_elem_of_further, list_elem_of_here.
    + by eexists.
  - vm_compute. intros m Hm.
    repeat (apply elem_of_cons in Hm as [-> |Hm]; [reflexivity|]).
    by apply elem_of_nil in Hm.
Defined.

Example kqk_tablebase_move :
  get_move tablebase_only kqk_board None fresh_world
  = (Some (mv E1 D2), fresh_world,
     [ TablebaseProbe kqk_board; TablebaseProbe kqk_board;
       TablebaseProbe (push kqk_board (mv E1 5));
       TablebaseProbe (push kqk_board (mv E1 D2));
       TablebaseProbe (push kqk_board (mv E1 E2));
       TablebaseProbe (push kqk_board (mv E1 13)) ]).
Proof. vm_compute. reflexivity. Qed.

(** The claim as written fails on a board that is game over: a 3-piece
    position the tablebase knows as won, for which the tablebase lookup
    yields a move, gets no move at all. *)
Lemma game_over_blocks_tablebase :
  is_game_over kqk_drawn = true
  ∧ length (piece_map kqk_drawn) = 3
  ∧ probe_wdl sample_tablebase kqk_drawn = Some 2%Z
  ∧ result (_get_tablebase_move sample_tablebase kqk_drawn fresh_world)
    = Some (mv E1 D2)
  ∧ get_move tablebase_only kqk_drawn None fresh_world = (None, fresh_world, []).
Proof. vm_compute. repeat split; reflexivity. Qed.

End ChainClaims.

(* ===================================================================== *)
(** * Position hash and analysis cache *)
(* ===================================================================== *)

Section CacheClaims.
Import Chess Learning Samples.

(** An engine that answers every position with one line. *)
Definition one_line_engine : AnalysisEngine :=
  fun _ => Some [mkInfo [mv E2 E4] 30].

Definition empty_system : System := mkSystem (Some one_line_engine) 5 ∅ ∅ ∅ [] [].

(** C1, as the code has it. Two boards with the same FEN text (placement,
    side to move, castling rights, en-passant square, halfmove clock and
    fullmove number) have the same hash. When the hash of a position is in
    the cache, its analysis takes evaluation and best moves from the cached
    entry and leaves the system as it was, so the engine is not queried;
    in particular, after a first analysis answered by the engine, the
    analysis of any board with the same FEN text returns the same
    evaluation and best moves without a further engine query. *)
Theorem same_fen_same_hash_and_cache_reuse `{Rules} (self : System) (b1 b2 : Board) :
  fen b1 = fen b2 →
  _get_position_hash b1 = _get_position_hash b2
  ∧ (∀ cached,
       positions_cache self !! _get_position_hash b1 = Some cached →
       deep_position_analysis self b2
       = (mkAnalysis (fen b2) (_get_position_hash b2) (length (move_stack b2))
                     (length (piece_map b2))
                     (cached_evaluation cached) (cached_best_moves cached),
          self))
  ∧ (∀ sf first rest,
       positions_cache self !! _get_position_hash b1 = None →
       stockfish self = Some sf →
       sf b1 = Some (first :: rest) →
       engine_queries (snd (deep_position_analysis self b1)) = engine_queries self ++ [b1]
       ∧ snd (deep_position_analysis (snd (deep_position_analysis self b1)) b2)
         = snd (deep_position_analysis self b1)
       ∧ evaluation (fst (deep_position_analysis (snd (deep_position_analysis self b1)) b2))
         = evaluation (fst (deep_position_analysis self b1))
       ∧ best_moves (fst (deep_position_analysis (snd (deep_position_analysis self b1)) b2))
         = best_moves (fst (deep_position_analysis self b1))).
Proof.
  intros Hfen.
  assert (Hhash : _get_position_hash b1 = _get_position_hash b2).
  { unfold _get_position_hash. rewrite Hfen. reflexivity. }
  split; [exact Hhash|].
  unfold deep_position_analysis. rewrite <- Hhash.
  generalize (_get_position_hash b1). intros h. split.
  - intros cached Hcached. rewrite Hcached. reflexivity.
  - intros sf first rest Hmiss Hsf Hanswer.
    rewrite Hmiss, Hsf, Hanswer.
    cbn [fst snd engine_queries positions_cache stockfish].
    rewrite lookup_insert_eq.
    cbn [fst snd evaluation best_moves cached_evaluation cached_best_moves].
    repeat split; reflexivity.
Qed.

Lemma same_fen_same_hash_and_cache_reuse_witness :
  fen kings_set_up = fen kings_played
  ∧ _get_position_hash kings_set_up = _get_position_hash kings_played
  ∧ engine_queries
      (snd (deep_position_analysis
              (snd (deep_position_analysis empty_system kings_set_up)) kings_played))
    = engine_queries (snd (deep_position_analysis empty_system kings_set_up)).
Proof.
  assert (H1 : fen kings_set_up = fen kings_played) by (vm_compute; reflexivity).
  split; [exact H1|].
  destruct (same_fen_same_hash_and_cache_reuse empty_system kings_set_up kings_played H1)
    as (Hhash & _ & Hreuse).
  split; [exact Hhash|].
  destruct (Hreuse one_line_engine (mkInfo [mv E2 E4] 30) []) as (_ & Hsame & _);
    [vm_compute; reflexivity|reflexivity|reflexivity|].
  rewrite Hsame. reflexivity.
Defined.

(** The claim as written fails: the two move orders 1. e4 e5 2. Nf3 Nc6
    and 1. Nf3 Nc6 2. e4 e5 lead to the same placement, side to move,
    castling rights and en-passant state, but the halfmove clocks differ,
    so do the hashes, and the second position is sent to the engine
    although the first one is cached. *)
Lemma transposition_hash_differs :
  Forall (fun sq => piece_at open_game_a sq = piece_at open_game_b sq) SQUARES
  ∧ turn open_game_a = turn open_game_b
  ∧ castling_rights open_game_a = castling_rights open_game_b
  ∧ ep_square open_game_a = ep_square open_game_b
  ∧ _get_position_hash open_game_a ≠ _get_position_hash open_game_b
  ∧ length (engine_queries
              (snd (deep_position_analysis
                      (snd (deep_position_analysis empty_system open_game_a))
                      open_game_b))) = 2.
Proof.
  split; [vm_compute; repeat constructor|].
  split; [reflexivity|]. split; [reflexivity|]. split; [reflexivity|].
  split; [vm_compute; discriminate|vm_compute; reflexivity].
Qed.

End CacheClaims.

(* ===================================================================== *)
(** * Feature extraction *)
(* ===================================================================== *)

Section FeatureClaims.
Import Chess Analyzer Samples.

Lemma foldM_total {A B : Type} (f : B → A → option B) (l : list A) (acc : B) :
  (∀ acc' x, x ∈ l → is_Some (f acc' x)) → is_Some (foldM f acc l).
Proof.
  revert acc. induction l as [|x rest IH]; intros acc Hf; cbn; [by eexists|].
  destruct (Hf acc x (list_elem_of_here _ _)) as [acc' ->].
  apply IH. intros acc'' y Hy. by apply Hf, list_elem_of_further.
Qed.

Lemma foldM_grows {A : Type} (f : Q → A → option Q) (l : list A) (acc r : Q) :
  (∀ acc' x r', f acc' x = Some r' → (acc' <= r')%Q) →
  foldM f acc l = Some r → (acc <= r)%Q.
Proof.
  intros Hf. revert acc. induction l as [|x rest IH]; intros acc; cbn.
  - intros [= <-]. apply Qle_refl.
  - destruct (f acc x) as [acc'|] eqn:Hx; [|done]. intros Hrest.
    eapply Qle_trans; [by eapply Hf|by apply IH].
Qed.

Lemma square_union_pawn (board : Board) (sq : Square) :
  sq ∈ square_union (pieces board PAWN WHITE) (pieces board PAWN BLACK) →
  ∃ c, piece_at board sq = Some (mkPiece PAWN c).
Proof.
  unfold square_union, pieces. rewrite list_elem_of_filter.
  intros [[Hw|Hb] _].
  - apply list_elem_of_filter in Hw as [Hw _]. by exists WHITE.
  - apply list_elem_of_filter in Hb as [Hb _]. by exists BLACK.
Qed.

(** The pawn-structure loop never raises: it only visits squares that
    hold a pawn. *)
Lemma analyze_pawn_structure_total (board : Board) :
  ∃ v, _analyze_pawn_structure board = Some v ∧ (0 <= v <= 1)%Q.
Proof.
  unfold _analyze_pawn_structure.
  set (body := fun (complexity : Q) (sq : Square) => _).
  destruct (foldM_total body
              (square_union (pieces board PAWN WHITE) (pieces board PAWN BLACK)) 0%Q)
    as [c Hc].
  { intros acc sq Hsq. destruct (square_union_pawn board sq Hsq) as [col Hcol].
    unfold body, _is_isolated_pawn. rewrite Hcol.
    by destruct (negb _); eexists. }
  rewrite Hc. eexists. split; [done|].
  assert (Hpos : (0 <= c)%Q).
  { eapply foldM_grows; [|exact Hc]. intros acc sq r. unfold body.
    destruct (_is_isolated_pawn board sq) as [[|]|]; [| |done];
      intros [= <-]; destruct (_ && _); lra. }
  split; [by apply Q.min_glb; [lra|]|apply Q.le_min_l].
Qed.

Lemma extract_features_lookup `{Rules} (board : Board) (features : gmap string Q) :
  _extract_features board = Some features →
  features !! "piece_count"%string = Some (_analyze_piece_count board)
  ∧ features !! "pawn_structure"%string = _analyze_pawn_structure board
  ∧ features !! "center_control"%string = Some (_analyze_center_control board)
  ∧ features !! "development"%string = Some (_analyze_development board)
  ∧ features !! "king_safety"%string = Some (_analyze_king_safety board)
  ∧ features !! "tactical_opportunities"%string
    = Some (_analyze_tactical_opportunities board)
  ∧ features !! "position_complexity"%string = Some (_analyze_complexity board)
  ∧ features !! "material_balance"%string = Some (_analyze_material_balance board)
  ∧ features !! "space_control"%string = Some (_analyze_space_control board)
  ∧ features !! "pawn_chain_structure"%string = Some (_analyze_pawn_chains board).
Proof.
  unfold _extract_features.
  destruct (_analyze_pawn_structure board) as [ps|]; [|done].
  intros [= <-]. repeat split; by simplify_map_eq.
Qed.

(** Extraction returns a dictionary with every key of the schema. *)
Lemma extract_features_schema `{Rules} (board : Board) :
  ∃ features, _extract_features board = Some features
              ∧ ∀ key, key ∈ schema → is_Some (features !! key).
Proof.
  destruct (analyze_pawn_structure_total board) as (ps & Hps & _).
  destruct (_extract_features board) as [features|] eqn:Hf.
  - exists features. split; [done|].
    destruct (extract_features_lookup board features Hf)
      as (H1 & H2 & H3 & H4 & H5 & H6 & H7 & H8 & H9 & H10).
    rewrite Hps in H2. intros key Hkey. unfold schema in Hkey.
    repeat (apply elem_of_cons in Hkey as [-> |Hkey]; [by eexists|]).
    by apply elem_of_nil in Hkey.
  - unfold _extract_features in Hf. by rewrite Hps in Hf.
Qed.

(** C4 at the input where the code leaves the unit interval: a legal
    position in which White has kept all pieces and promoted a pawn, Black
    has a bare king. Extraction succeeds and fills every key, but the
    material balance is 40/39. *)
Theorem material_balance_exceeds_one :
  length (piece_map two_queens) = 10
  ∧ _analyze_material_balance two_queens = (40 # 39)%Q
  ∧ (1 < _analyze_material_balance two_queens)%Q
  ∧ ∀ R : Rules, ∃ features,
      _extract_features two_queens = Some features
      ∧ (∀ key, key ∈ schema → is_Some (features !! key))
      ∧ features !! "material_balance"%string = Some (40 # 39)%Q.
Proof.
  assert (Hmb : _analyze_material_balance two_queens = (40 # 39)%Q)
    by (vm_compute; reflexivity).
  split; [vm_compute; reflexivity|]. split; [exact Hmb|].
  split; [rewrite Hmb; reflexivity|].
  intros R. destruct (extract_features_schema two_queens) as (features & Hf & Hkeys).
  exists features. split; [done|]. split; [done|].
  destruct (extract_features_lookup two_queens features Hf)
    as (_ & _ & _ & _ & _ & _ & _ & H8 & _).
  by rewrite H8, Hmb.
Qed.

(** ** The other nine features stay in the unit interval *)

Lemma fold_left_grows {A : Type} (f : Q → A → Q) (l : list A) (a : Q) :
  (∀ acc x, (acc <= f acc x)%Q) → (a <= fold_left f l a)%Q.
Proof.
  intros Hf. revert a. induction l as [|x rest IH]; intros a; cbn; [apply Qle_refl|].
  eapply Qle_trans; [apply (Hf a x)|apply IH].
Qed.

Lemma cond_sum_upper {A : Type} (P : A → bool) (c : Q) (l : list A) (a : Q) :
  (0 <= c)%Q →
  (fold_left (fun acc x => if P x then acc + c else acc) l a
   <= a + c * inject_Z (Z.of_nat (length l)))%Q.
Proof.
  intros Hc. revert a. induction l as [|x rest IH]; intros a.
  - cbn [fold_left length]. change (inject_Z (Z.of_nat 0)) with 0%Q. lra.
  - cbn [fold_left length]. eapply Qle_trans; [apply IH|].
    rewrite Nat2Z.inj_succ, <- Z.add_1_r, inject_Z_plus.
    assert (Hn : (0 <= inject_Z (Z.of_nat (length rest)))%Q).
    { change 0%Q with (inject_Z 0). rewrite <- Zle_Qle. lia. }
    change (inject_Z 1) with 1%Q. destruct (P x); nra.
Qed.

Lemma inject_nat_nonneg (n : nat) : (0 <= inject_Z (Z.of_nat n))%Q.
Proof. change 0%Q with (inject_Z 0). rewrite <- Zle_Qle. lia. Qed.

Lemma Qmin_unit (x : Q) : (0 <= x)%Q → (0 <= Qmin 1 x <= 1)%Q.
Proof. intros Hx. split; [apply Q.min_glb; [lra|done]|apply Q.le_min_l]. Qed.

Lemma piece_count_range (board : Board) :
  length (piece_map board) ≤ 32 →
  (0 <= _analyze_piece_count board <= 1)%Q.
Proof.
  intros Hn. unfold _analyze_piece_count.
  pose proof (inject_nat_nonneg (length (piece_map board))) as H0.
  assert (H32 : (inject_Z (Z.of_nat (length (piece_map board))) <= 32)%Q).
  { change 32%Q with (inject_Z 32). rewrite <- Zle_Qle. lia. }
  set (n := inject_Z _) in *. clearbody n.
  unfold Qdiv, Qinv; cbn [Qnum Qden]. split; lra.
Qed.

Lemma center_control_range (board : Board) :
  (0 <= _analyze_center_control board <= 1)%Q.
Proof.
  unfold _analyze_center_control. split.
  - apply fold_left_grows. intros acc sq. destruct (occupied board sq); lra.
  - eapply Qle_trans; [apply (cond_sum_upper (occupied board) 0.25); lra|].
    apply Qle_bool_iff. vm_compute. reflexivity.
Qed.

Lemma space_control_range (board : Board) :
  (0 <= _analyze_space_control board <= 1)%Q.
Proof.
  unfold _analyze_space_control. split.
  - apply fold_left_grows. intros acc sq. destruct (occupied board sq); lra.
  - eapply Qle_trans; [apply (cond_sum_upper (occupied board) 0.0625); lra|].
    apply Qle_bool_iff. vm_compute. reflexivity.
Qed.

Lemma development_range (board : Board) :
  (0 <= _analyze_development board <= 1)%Q.
Proof.
  unfold _analyze_development. apply Qmin_unit.
  pose proof (inject_nat_nonneg (length (move_stack board))) as Hn.
  set (n := inject_Z _) in *. clearbody n.
  unfold Qdiv, Qinv; cbn [Qnum Qden]. lra.
Qed.

Lemma king_term_range (k : option Square) (s : Q) :
  (s <= king_term k s <= s + 0.5)%Q.
Proof.
  unfold king_term. destruct k as [sq|]; [|lra].
  destruct (sq =? 0); [lra|]. destruct (_ && _); lra.
Qed.

Lemma king_safety_range (board : Board) :
  (0 <= _analyze_king_safety board <= 1)%Q.
Proof.
  unfold _analyze_king_safety.
  pose proof (king_term_range (king board WHITE) 0) as Hw.
  pose proof (king_term_range (king board BLACK) (king_term (king board WHITE) 0)) as Hb.
  lra.
Qed.

Lemma tactical_range `{Rules} (board : Board) :
  (0 <= _analyze_tactical_opportunities board <= 1)%Q.
Proof.
  unfold _analyze_tactical_opportunities. apply Qmin_unit.
  eapply Qle_trans; [|apply fold_left_grows].
  - eapply Qle_trans; [|apply fold_left_grows].
    + destruct (is_check board); lra.
    + intros acc sq. destruct (is_type_in _ _); lra.
  - intros acc sq. destruct (is_type_in _ _); lra.
Qed.

Lemma complexity_range `{Rules} (board : Board) :
  (0 <= _analyze_complexity board <= 1)%Q.
Proof.
  unfold _analyze_complexity. apply Qmin_unit.
  pose proof (inject_nat_nonneg (length (legal_moves board))) as Hm.
  assert (Hact : (0 <= fold_left (fun (act : Q) sq =>
                                     if occupied board sq then act + 1 else act)
                                  SQUARES 0)%Q).
  { apply fold_left_grows. intros acc sq. destruct (occupied board sq); lra. }
  set (n := inject_Z _) in *. clearbody n.
  set (act := fold_left _ _ _) in *. clearbody act.
  unfold Qdiv, Qinv; cbn [Qnum Qden]. lra.
Qed.

Lemma pawn_chains_range (board : Board) :
  (0 <= _analyze_pawn_chains board <= 1)%Q.
Proof.
  unfold _analyze_pawn_chains. apply Qmin_unit.
  apply fold_left_grows. intros acc c.
  apply fold_left_grows. intros acc' sq.
  pose proof (inject_nat_nonneg (_get_pawn_chain_length board sq c)) as Hn.
  set (n := inject_Z _) in *. clearbody n.
  unfold Qdiv, Qinv; cbn [Qnum Qden]. lra.
Qed.

(** Every feature but the material balance lies in [0, 1] on a board
    with at most 32 pieces. *)
Lemma features_in_unit_interval `{Rules} (board : Board) (features : gmap string Q) :
  length (piece_map board) ≤ 32 →
  _extract_features board = Some features →
  ∀ key, key ∈ schema → key ≠ "material_balance"%string →
         ∃ v, features !! key = Some v ∧ (0 <= v <= 1)%Q.
Proof.
  intros Hn Hf key Hkey Hnot.
  destruct (extract_features_lookup board features Hf)
    as (H1 & H2 & H3 & H4 & H5 & H6 & H7 & H8 & H9 & H10).
  destruct (analyze_pawn_structure_total board) as (ps & Hps & Hrange).
  rewrite Hps in H2. unfold schema in Hkey.
  apply elem_of_cons in Hkey as [-> |Hkey];
    [eexists; split; [exact H1|by apply piece_count_range]|].
  apply elem_of_cons in Hkey as [-> |Hkey]; [eexists; split; [exact H2|exact Hrange]|].
  apply elem_of_cons in Hkey as [-> |Hkey];
    [eexists; split; [exact H3|apply center_control_range]|].
  apply elem_of_cons in Hkey as [-> |Hkey];
    [eexists; split; [exact H4|apply development_range]|].
  apply elem_of_cons in Hkey as [-> |Hkey];
    [eexists; split; [exact H5|apply king_safety_range]|].
  apply elem_of_cons in Hkey as [-> |Hkey];
    [eexists; split; [exact H6|apply tactical_range]|].
  apply elem_of_cons in Hkey as [-> |Hkey];
    [eexists; split; [exact H7|apply complexity_range]|].
  apply elem_of_cons in Hkey as [-> |Hkey]; [exfalso; apply Hnot; reflexivity|].
  apply elem_of_cons in Hkey as [-> |Hkey];
    [eexists; split; [exact H9|apply space_control_range]|].
  apply elem_of_cons in Hkey as [-> |Hkey];
    [eexists; split; [exact H10|apply pawn_chains_range]|].
  by apply elem_of_nil in Hkey.
Qed.

(** A feature over an empty category is 0: without pawns, both pawn
    features vanish. *)
Lemma no_pawns_features_zero (board : Board) :
  pieces board PAWN WHITE = [] →
  pieces board PAWN BLACK = [] →
  _analyze_pawn_structure board = Some 0%Q ∧ _analyze_pawn_chains board = 0%Q.
Proof.
  intros Hw Hb. unfold _analyze_pawn_structure, _analyze_pawn_chains.
  cbn [fold_left]. rewrite Hw, Hb. split; reflexivity.
Qed.

Example no_pawns_sample :
  _analyze_pawn_structure no_pawns = Some 0%Q ∧ _analyze_pawn_chains no_pawns = 0%Q.
Proof. apply no_pawns_features_zero; vm_compute; reflexivity. Qed.

End FeatureClaims.

(* ===================================================================== *)
(** * Further properties of the mistake ledger and the analysis cache *)
(* ===================================================================== *)

Module Persistence.
Import Chess Learning.

(** [_load_learning_data], ledger part: the rows of [mistakes], in
    insertion order, are appended to the list of their hash. *)
Definition load_mistake (db : gmap string (list Mistake)) (row : MistakeRow)
  : gmap string (list Mistake) :=
  let previous := default [] (db !! row_position_hash row) in
  <[row_position_hash row :=
      previous ++ [mkMistake (row_move_played row) (row_best_move row)
                             (row_mistake_type row) (row_severity row)]]> db.

Definition load_mistakes (rows : list MistakeRow) : gmap string (list Mistake) :=
  fold_left load_mistake rows ∅.

(** The ledger in memory is what a start from the [mistakes] table would
    load. *)
Definition ledger_saved (s : System) : Prop :=
  mistakes_database s = load_mistakes (mistakes_table s).

End Persistence.

Module GameLoop.
Import Chess Learning.

(** The quality check of [play_learning_game]: the evaluation of the
    move played is looked up by its notation among the candidates (first
    hit), and a mistake is due when it trails the top candidate by more
    than 0.1. The result is the pair (move evaluation, best evaluation) to
    record, if any. *)
Fixpoint lookup_evaluation (best_moves : list (string * Q)) (san_move : string) : option Q :=
  match best_moves with
  | [] => None
  | (move_san, score) :: rest =>
      if String.eqb move_san san_move then Some score else lookup_evaluation rest san_move
  end.

Definition mistake_due (best_moves : list (string * Q)) (san_move : string) : option (Q * Q) :=
  match lookup_evaluation best_moves san_move, best_moves with
  | Some move_evaluation, (_, best_evaluation) :: _ =>
      if Analyzer.Qltb move_evaluation (best_evaluation - 0.1)%Q
      then Some (move_evaluation, best_evaluation) else None
  | _, _ => None
  end.

Section WithRules.
Context `{Rules}.

(** White's half of one iteration of [play_learning_game], up to the
    point where the move is pushed: analysis, choice of the move, quality
    check, recording. [None] stands for the exception of
    [board.parse_san] on the top candidate inside the recording call. *)
Definition white_turn (self : System) (board : Board) : option (option Move * System) :=
  let '(analysis, self) := deep_position_analysis self board in
  let '(move, self) := get_best_move_with_learning self board in
  if truthy move then
    match move with
    | Some m =>
        let san_move := san board m in
        match mistake_due (best_moves analysis) san_move with
        | Some (move_evaluation, best_evaluation) =>
            match best_moves analysis with
            | (top_san, _) :: _ =>
                match parse_san board top_san with
                | Some top =>
                    Some (move, record_mistake self board m move_evaluation top
                                               best_evaluation)
                | None => None
                end
            | [] => Some (move, self)
            end
        | None => Some (move, self)
        end
    | None => Some (move, self)
    end
  else Some (move, self).

End WithRules.

End GameLoop.

Section LedgerExtras.
Import Chess Learning Samples Persistence GameLoop.

Lemma record_mistake_ledger `{Rules} (self : System) (board : Board) (played best : Move)
  (move_eval best_eval : Q) :
  mistakes_database (record_mistake self board played move_eval best best_eval)
  = <[_get_position_hash board :=
        default [] (mistakes_database self !! _get_position_hash board)
        ++ [mkMistake (san board played) (san board best)
                      (fst (classify_mistake (best_eval - move_eval)))
                      (snd (classify_mistake (best_eval - move_eval)))]]>
      (mistakes_database self).
Proof.
  unfold record_mistake. by destruct (classify_mistake (best_eval - move_eval)).
Qed.

Lemma record_mistake_frame `{Rules} (self : System) (board : Board) (played best : Move)
  (move_eval best_eval : Q) :
  let self' := record_mistake self board played move_eval best best_eval in
  stockfish self' = stockfish self
  ∧ max_variations self' = max_variations self
  ∧ positions_cache self' = positions_cache self
  ∧ position_analyses_table self' = position_analyses_table self
  ∧ engine_queries self' = engine_queries self.
Proof.
  unfold record_mistake. by destruct (classify_mistake (best_eval - move_eval)).
Qed.

Lemma record_mistake_flags `{Rules} (self : System) (board : Board) (played best : Move)
  (move_eval best_eval : Q) :
  flagged (mistakes_database (record_mistake self board played move_eval best best_eval))
          (_get_position_hash board) (san board played).
Proof.
  rewrite record_mistake_ledger.
  set (entry := mkMistake (san board played) _ _ _).
  exists (default [] (mistakes_database self !! _get_position_hash board) ++ [entry]), entry.
  split; [apply lookup_insert_eq|]. split; [|reflexivity].
  apply elem_of_app. right. apply list_elem_of_here.
Qed.

Lemma deep_position_analysis_table `{Rules} (self : System) (board : Board) :
  mistakes_table (snd (deep_position_analysis self board)) = mistakes_table self.
Proof.
  unfold deep_position_analysis. destruct (positions_cache self !! _); [done|].
  destruct (stockfish self) as [sf|]; [|done].
  by destruct (sf board) as [[|first rest]|].
Qed.

Lemma get_best_move_ledger `{Rules} (self : System) (board : Board) :
  mistakes_database (snd (get_best_move_with_learning self board)) = mistakes_database self
  ∧ mistakes_table (snd (get_best_move_with_learning self board)) = mistakes_table self.
Proof.
  rewrite get_best_move_with_learning_eq. cbn [snd].
  by rewrite deep_position_analysis_ledger, deep_position_analysis_table.
Qed.

(** The ledger only grows. Recording flags the move played for the hash
    of the board, keeps every earlier flag, leaves the lists of all
    other hashes alone, and adds exactly one row to the table; analysing
    a position or choosing a move never touches the ledger. *)
Theorem ledger_is_append_only `{Rules} (self : System) (board : Board)
  (played best : Move) (move_eval best_eval : Q) :
  let self' := record_mistake self board played move_eval best best_eval in
  flagged (mistakes_database self') (_get_position_hash board) (san board played)
  ∧ (∀ h move_san, flagged (mistakes_database self) h move_san →
                   flagged (mistakes_database self') h move_san)
  ∧ (∀ h, h ≠ _get_position_hash board →
          mistakes_database self' !! h = mistakes_database self !! h)
  ∧ length (mistakes_table self') = S (length (mistakes_table self))
  ∧ mistakes_database (snd (deep_position_analysis self board)) = mistakes_database self
  ∧ mistakes_table (snd (deep_position_analysis self board)) = mistakes_table self
  ∧ mistakes_database (snd (get_best_move_with_learning self board))
    = mistakes_database self
  ∧ mistakes_table (snd (get_best_move_with_learning self board)) = mistakes_table self.
Proof.
  intros self'. subst self'. rewrite record_mistake_ledger.
  set (h0 := _get_position_hash board).
  set (entry := mkMistake _ _ _ _).
  split; [|split; [|split; [|split]]].
  - exists (default [] (mistakes_database self !! h0) ++ [entry]), entry.
    split; [apply lookup_insert_eq|]. split; [|done].
    apply elem_of_app. right. apply list_elem_of_here.
  - intros h move_san (ms & m & Hms & Hm & Hmove).
    destruct (decide (h = h0)) as [-> |Hne].
    + exists (default [] (mistakes_database self !! h0) ++ [entry]), m.
      split; [apply lookup_insert_eq|]. split; [|done].
      rewrite Hms. apply elem_of_app. by left.
    + exists ms, m. by rewrite lookup_insert_ne.
  - intros h Hne. by rewrite lookup_insert_ne.
  - unfold record_mistake. destruct (classify_mistake _). cbn.
    rewrite length_app. cbn. lia.
  - rewrite get_best_move_with_learning_eq. cbn [snd].
    assert (Htable : mistakes_table (snd (deep_position_analysis self board))
                     = mistakes_table self).
    { unfold deep_position_analysis. destruct (positions_cache self !! _); [done|].
      destruct (stockfish self) as [sf|]; [|done].
      by destruct (sf board) as [[|first rest]|]. }
    by rewrite deep_position_analysis_ledger, Htable.
Qed.

Lemma load_mistakes_snoc (rows : list MistakeRow) (row : MistakeRow) :
  load_mistakes (rows ++ [row]) = load_mistake (load_mistakes rows) row.
Proof. unfold load_mistakes. by rewrite fold_left_app. Qed.

(** The ledger survives a restart. If the ledger in memory is what
    [_load_learning_data] rebuilds from the rows of the [mistakes] table,
    it still is after any analysis, any choice of a move and any recorded
    mistake: every mistake in memory has its row, in the same order under
    its hash, and a start from the table loads exactly the ledger that
    was in memory. *)
Theorem ledger_survives_restart `{Rules} (self : System) :
  ledger_saved self →
  (∀ board, ledger_saved (snd (deep_position_analysis self board)))
  ∧ (∀ board, ledger_saved (snd (get_best_move_with_learning self board)))
  ∧ (∀ board played best move_eval best_eval,
       ledger_saved (record_mistake self board played move_eval best best_eval))
  ∧ load_mistakes (mistakes_table self) = mistakes_database self.
Proof.
  unfold ledger_saved. intros Hledger. split; [|split; [|split; [|done]]].
  - intros board.
    by rewrite deep_position_analysis_ledger, deep_position_analysis_table.
  - intros board. rewrite get_best_move_with_learning_eq. cbn [snd].
    by rewrite deep_position_analysis_ledger, deep_position_analysis_table.
  - intros board played best move_eval best_eval.
    rewrite record_mistake_ledger. unfold record_mistake.
    destruct (classify_mistake (best_eval - move_eval)) as [ty sev].
    cbn [mistakes_table fst snd]. rewrite load_mistakes_snoc, <- Hledger.
    reflexivity.
Qed.

Lemma ledger_survives_restart_witness :
  ledger_saved empty_system
  ∧ ledger_saved (record_mistake empty_system starting_board (mv E2 E4) 0.1%Q
                                 (mv D2 D4) 1.3%Q).
Proof.
  assert (H1 : ledger_saved empty_system) by reflexivity.
  split; [exact H1|].
  exact (proj1 (proj2 (proj2 (ledger_survives_restart empty_system H1)))
           starting_board (mv E2 E4) (mv D2 D4) 0.1%Q 1.3%Q).
Defined.



(** Without an answer from the engine and without a cache entry, the
    analysis is the fallback (evaluation 0.0, no candidates), nothing is
    cached, and the move chosen is the first legal move, or [None] when
    there is none. *)
Theorem no_analysis_falls_back_to_first_legal_move `{Rules} (self : System)
  (board : Board) :
  positions_cache self !! _get_position_hash board = None →
  (stockfish self = None
   ∨ ∃ sf, stockfish self = Some sf ∧ (sf board = None ∨ sf board = Some [])) →
  evaluation (fst (deep_position_analysis self board)) = 0%Q
  ∧ best_moves (fst (deep_position_analysis self board)) = []
  ∧ positions_cache (snd (deep_position_analysis self board)) = positions_cache self
  ∧ fst (get_best_move_with_learning self board) = head (legal_moves board)
  ∧ (fst (get_best_move_with_learning self board) = None ↔ legal_moves board = []).
Proof.
  intros Hmiss Hengine.
  assert (Hfall : fst (deep_position_analysis self board)
                  = fallback_analysis board (_get_position_hash board)
                  ∧ positions_cache (snd (deep_position_analysis self board))
                    = positions_cache self).
  { unfold deep_position_analysis. rewrite Hmiss.
    destruct Hengine as [-> |(sf & -> & [-> | ->])]; done. }
  destruct Hfall as [Hfst Hsnd].
  assert (Hmove : fst (get_best_move_with_learning self board) = head (legal_moves board)).
  { rewrite get_best_move_with_learning_eq, Hfst. cbn [fst fallback_analysis best_moves].
    rewrite filter_candidates_unfold. by rewrite filter_nil. }
  rewrite Hfst, Hsnd, Hmove. split; [done|]. split; [done|]. split; [done|].
  split; [done|]. by destruct (legal_moves board).
Qed.

Lemma no_analysis_falls_back_to_first_legal_move_witness :
  positions_cache (mkSystem None 5 ∅ ∅ ∅ [] []) !! _get_position_hash kqk_board = None
  ∧ fst (get_best_move_with_learning (mkSystem None 5 ∅ ∅ ∅ [] []) kqk_board)
    = head (legal_moves kqk_board).
Proof.
  assert (H1 : positions_cache (mkSystem None 5 ∅ ∅ ∅ [] [])
               !! _get_position_hash kqk_board = None) by apply lookup_empty.
  split; [exact H1|].
  exact (proj1 (proj2 (proj2 (proj2
           (no_analysis_falls_back_to_first_legal_move
              (mkSystem None 5 ∅ ∅ ∅ [] []) kqk_board H1 (or_introl eq_refl)))))).
Defined.

(** The severity grows with the evaluation gap and stays within
    [0.2, 1.0]. *)
Theorem severity_is_monotone (diff1 diff2 : Q) :
  (diff1 <= diff2)%Q →
  (snd (classify_mistake diff1) <= snd (classify_mistake diff2))%Q
  ∧ (0.2 <= snd (classify_mistake diff1) <= 1)%Q.
Proof.
  intros Hle. unfold classify_mistake.
  destruct (Analyzer.Qgtb diff1 2.0) eqn:H12;
    [apply Qgtb_true in H12|apply Qgtb_false in H12];
  destruct (Analyzer.Qgtb diff1 1.0) eqn:H11;
    [apply Qgtb_true in H11|apply Qgtb_false in H11| |];
  try (apply Qgtb_true in H11); try (apply Qgtb_false in H11);
  destruct (Analyzer.Qgtb diff1 0.5) eqn:H10;
  try (apply Qgtb_true in H10); try (apply Qgtb_false in H10);
  destruct (Analyzer.Qgtb diff2 2.0) eqn:H22;
  try (apply Qgtb_true in H22); try (apply Qgtb_false in H22);
  destruct (Analyzer.Qgtb diff2 1.0) eqn:H21;
  try (apply Qgtb_true in H21); try (apply Qgtb_false in H21);
  destruct (Analyzer.Qgtb diff2 0.5) eqn:H20;
  try (apply Qgtb_true in H20); try (apply Qgtb_false in H20);
  cbn [snd]; repeat split; lra.
Qed.

Lemma severity_is_monotone_witness :
  (0.3 <= 1.2)%Q
  ∧ (snd (classify_mistake 0.3) <= snd (classify_mistake 1.2))%Q
  ∧ (0.2 <= snd (classify_mistake 0.3) <= 1)%Q.
Proof.
  assert (H1 : (0.3 <= 1.2)%Q) by lra.
  split; [exact H1|]. exact (severity_is_monotone 0.3 1.2 H1).
Defined.

(** The analysis read from a system depends on its engine, its number
    of variations and its cache only. *)
Lemma deep_position_analysis_frame `{Rules} (s1 s2 : System) (board : Board) :
  stockfish s1 = stockfish s2 →
  max_variations s1 = max_variations s2 →
  positions_cache s1 = positions_cache s2 →
  fst (deep_position_analysis s1 board) = fst (deep_position_analysis s2 board).
Proof.
  intros Hsf Hmax Hcache. unfold deep_position_analysis. rewrite Hsf, Hmax, Hcache.
  destruct (positions_cache s2 !! _); [done|].
  destruct (stockfish s2) as [sf|]; [|done].
  by destruct (sf board) as [[|first rest]|].
Qed.

(** Analysing the same board twice in a row gives the same candidates. *)
Lemma deep_position_analysis_again `{Rules} (self : System) (board : Board) :
  best_moves (fst (deep_position_analysis (snd (deep_position_analysis self board)) board))
  = best_moves (fst (deep_position_analysis self board)).
Proof.
  unfold deep_position_analysis at 2 3.
  destruct (positions_cache self !! _get_position_hash board) as [cached|] eqn:Hc.
  { cbn [fst snd]. unfold deep_position_analysis. by rewrite Hc. }
  destruct (stockfish self) as [sf|] eqn:Hsf.
  - destruct (sf board) as [[|first rest]|] eqn:Hans; cbn [fst snd].
    + unfold deep_position_analysis. cbn [positions_cache stockfish].
      by rewrite Hc, Hans.
    + unfold deep_position_analysis. cbn [positions_cache].
      by rewrite lookup_insert_eq.
    + unfold deep_position_analysis. cbn [positions_cache stockfish].
      by rewrite Hc, Hans.
  - cbn [fst snd]. unfold deep_position_analysis. by rewrite Hc, Hsf.
Qed.

(** Learning takes effect at the next visit. After a mistake is recorded
    for a board, the candidates for that board are the same as before, and
    whenever one of them is not flagged the move chosen is the
    highest-ranked unflagged one (if its notation parses), which is never
    the move just recorded. *)
Theorem recorded_move_is_avoided `{Rules} (self : System) (board : Board)
  (played best : Move) (move_eval best_eval : Q) :
  let self' := record_mistake self board played move_eval best best_eval in
  let candidates := best_moves (fst (deep_position_analysis self' board)) in
  candidates = best_moves (fst (deep_position_analysis self board))
  ∧ ∀ c, highest_ranked_unflagged
           (bad_set (mistakes_database self') (_get_position_hash board)) candidates
         = Some c →
         fst c ≠ san board played
         ∧ ∀ m, parse_san board (fst c) = Some m →
                fst (get_best_move_with_learning self' board) = Some m.
Proof.
  intros self' candidates.
  destruct (record_mistake_frame self board played best move_eval best_eval)
    as (Hsf & Hmax & Hcache & _).
  split.
  { subst candidates. f_equal. by apply deep_position_analysis_frame. }
  intros c Hc.
  destruct (highest_ranked_unflagged_Some _ _ _ Hc) as (above & below & _ & Hout & _).
  split.
  - intros Heq. apply Hout. rewrite Heq. apply elem_of_bad_set.
    apply record_mistake_flags.
  - intros m Hparse. rewrite get_best_move_with_learning_eq. cbn [fst].
    rewrite filter_candidates_unfold.
    pose proof (head_filter_unflagged
                  (bad_set (mistakes_database self') (_get_position_hash board))
                  candidates) as Hhead.
    rewrite Hc in Hhead. subst candidates.
    destruct (filter _ _) as [|[san0 score0] kept]; [done|].
    cbn in Hhead. injection Hhead as <-. cbn in *. by rewrite Hparse.
Qed.

Lemma lookup_evaluation_head (san_move : string) (score : Q) (rest : list (string * Q)) :
  lookup_evaluation ((san_move, score) :: rest) san_move = Some score.
Proof. cbn. by rewrite String.eqb_refl. Qed.

Lemma mistake_due_top (san_move : string) (score : Q) (rest : list (string * Q)) :
  mistake_due ((san_move, score) :: rest) san_move = None.
Proof.
  unfold mistake_due. rewrite lookup_evaluation_head.
  unfold Analyzer.Qltb.
  assert (Hle : Qle_bool (score - 0.1) score = true) by (apply Qle_bool_iff; lra).
  by rewrite Hle.
Qed.

(** A position without flagged candidates teaches nothing. If no
    candidate of the board is flagged for its hash (as on an empty
    ledger) and the top candidate, when its notation parses, is the
    notation of the move it parses to (as is a notation that [board.san]
    produced), a turn of the learning game at that board records no
    mistake: the move chosen is the top candidate, whose evaluation cannot
    trail itself. The turn can only end without a result when the top
    candidate does not parse. *)
Theorem unflagged_position_records_nothing `{Rules} (self : System) (board : Board) :
  (∀ top score rest m,
     best_moves (fst (deep_position_analysis self board)) = (top, score) :: rest →
     parse_san board top = Some m → san board m = top) →
  (∀ c, c ∈ best_moves (fst (deep_position_analysis self board)) →
        ¬ flagged (mistakes_database self) (_get_position_hash board) (fst c)) →
  (∀ move self', white_turn self board = Some (move, self') →
                 mistakes_database self' = mistakes_database self
                 ∧ mistakes_table self' = mistakes_table self)
  ∧ (white_turn self board = None →
     ∃ top score rest,
       best_moves (fst (deep_position_analysis self board)) = (top, score) :: rest
       ∧ parse_san board top = None).
Proof.
  intros Hround Hfresh.
  destruct (get_best_move_ledger (snd (deep_position_analysis self board)) board)
    as [Hdb2 Htable2].
  pose proof (deep_position_analysis_ledger self board) as Hdb1.
  pose proof (deep_position_analysis_table self board) as Htable1.
  pose proof (deep_position_analysis_again self board) as Hagain.
  unfold white_turn.
  rewrite (surjective_pairing (deep_position_analysis self board)).
  rewrite get_best_move_with_learning_eq in *.
  cbn [fst snd] in *.
  set (a1 := fst (deep_position_analysis self board)) in *.
  set (s1 := snd (deep_position_analysis self board)) in *.
  set (s2 := snd (deep_position_analysis s1 board)) in *.
  rewrite Hagain, Hdb1.
  assert (Hkeep : filter_candidates (mistakes_database self) (_get_position_hash board)
                    (best_moves a1) = best_moves a1).
  { rewrite filter_candidates_unfold. rewrite filter_none_flagged; [by destruct (best_moves a1)|].
    intros c Hc. rewrite elem_of_bad_set. by apply Hfresh. }
  rewrite Hkeep.
  assert (Hsame : mistakes_database s2 = mistakes_database self
                  ∧ mistakes_table s2 = mistakes_table self).
  { by rewrite Hdb2, Htable2, Hdb1, Htable1. }
  destruct (best_moves a1) as [|[top score] rest] eqn:Hcand; cbn [head].
  - split; [|by destruct (truthy _), (head (legal_moves board))].
    intros move self' Hturn.
    destruct (truthy (head (legal_moves board))), (head (legal_moves board));
      cbn in Hturn; by injection Hturn as <- <-.
  - destruct (parse_san board top) as [m|] eqn:Hparse.
    + rewrite (Hround top score rest m eq_refl Hparse), mistake_due_top.
      split; [|by destruct (truthy (Some m))].
      intros move self' Hturn. destruct (truthy (Some m)); by injection Hturn as <- <-.
    + split; [|intros _; by exists top, score, rest].
      intros move self' Hturn.
      destruct (truthy (head (legal_moves board))); [|by injection Hturn as <- <-].
      destruct (head (legal_moves board)) as [f|]; [|by injection Hturn as <- <-].
      destruct (mistake_due ((top, score) :: rest) (san board f)) as [[me be]|];
        [done|by injection Hturn as <- <-].
Qed.

Lemma unflagged_position_records_nothing_witness :
  (∀ top score rest m,
     best_moves (fst (deep_position_analysis empty_system starting_board))
     = (top, score) :: rest →
     parse_san starting_board top = Some m → san starting_board m = top)
  ∧ (∀ c, c ∈ best_moves (fst (deep_position_analysis empty_system starting_board)) →
          ¬ flagged (mistakes_database empty_system)
                    (_get_position_hash starting_board) (fst c))
  ∧ (∀ move self', white_turn empty_system starting_board = Some (move, self') →
                   mistakes_database self' = mistakes_database empty_system
                   ∧ mistakes_table self' = mistakes_table empty_system).
Proof.
  assert (H1 : ∀ top score rest m,
                 best_moves (fst (deep_position_analysis empty_system starting_board))
                 = (top, score) :: rest →
                 parse_san starting_board top = Some m → san starting_board m = top).
  { intros text score rest m _ Hparse. cbn in Hparse. unfold simple_parse_san in Hparse.
    apply head_Some_elem_of, list_elem_of_filter in Hparse. by destruct Hparse as [(_ & _ & ?) _]. }
  assert (H2 : ∀ c, c ∈ best_moves (fst (deep_position_analysis empty_system
                                                 starting_board)) →
                    ¬ flagged (mistakes_database empty_system)
                              (_get_position_hash starting_board) (fst c)).
  { intros c _ (ms & m & Hms & _). cbn in Hms. by rewrite lookup_empty in Hms. }
  split; [exact H1|]. split; [exact H2|].
  exact (proj1 (unflagged_position_records_nothing empty_system starting_board H1 H2)).
Defined.

End LedgerExtras.

(* ===================================================================== *)
(** * Further properties of the position analyzer *)
(* ===================================================================== *)

Section AnalyzerExtras.
Import Chess Analyzer Samples.

(** The white and black material totals summed by
    [_analyze_material_balance]. *)
Definition material_totals (board : Board) : Z * Z :=
  fold_left (fun '(w, b) sq =>
               match piece_at board sq with
               | Some piece =>
                   let value := piece_values (piece_type piece) in
                   match color piece with
                   | WHITE => (w + value, b)%Z
                   | BLACK => (w, b + value)%Z
                   end
               | None => (w, b)
               end)
            SQUARES (0, 0)%Z.

Lemma material_balance_eq (board : Board) :
  _analyze_material_balance board
  = (inject_Z (Z.abs (fst (material_totals board) - snd (material_totals board))) / 39)%Q.
Proof.
  unfold _analyze_material_balance, material_totals.
  by destruct (fold_left _ SQUARES (0, 0)%Z).
Qed.

(** The material balance is never negative, and it stays within [0, 1]
    as long as neither side has more than 39 points of material, the
    material of the starting position. *)
Theorem material_balance_bounded_without_promotions (board : Board) :
  (fst (material_totals board) <= 39)%Z →
  (snd (material_totals board) <= 39)%Z →
  (0 <= fst (material_totals board))%Z
  ∧ (0 <= snd (material_totals board))%Z
  ∧ (0 <= _analyze_material_balance board <= 1)%Q.
Proof.
  intros Hw Hb.
  assert (Hpos : (0 <= fst (material_totals board))%Z ∧ (0 <= snd (material_totals board))%Z).
  { unfold material_totals.
    assert (Hgen : ∀ l w b, (0 <= w)%Z → (0 <= b)%Z →
              let r := fold_left (fun '(w, b) sq =>
                         match piece_at board sq with
                         | Some piece =>
                             let value := piece_values (piece_type piece) in
                             match color piece with
                             | WHITE => (w + value, b)%Z
                             | BLACK => (w, b + value)%Z
                             end
                         | None => (w, b)
                         end) l (w, b) in
              (0 <= fst r)%Z ∧ (0 <= snd r)%Z).
    { induction l as [|sq rest IH]; intros w b H0w H0b; [done|]. cbn [fold_left].
      destruct (piece_at board sq) as [[pt col]|]; [|by apply IH]. cbn.
      destruct col; apply IH; destruct pt; cbn; lia. }
    by apply Hgen. }
  destruct Hpos as [H0w H0b]. split; [done|]. split; [done|].
  rewrite material_balance_eq.
  set (d := Z.abs _).
  assert (Hd : (0 <= d <= 39)%Z) by (subst d; lia).
  assert (Hq : (0 <= inject_Z d <= 39)%Q).
  { split; [change 0%Q with (inject_Z 0)|change 39%Q with (inject_Z 39)];
      rewrite <- Zle_Qle; lia. }
  set (q := inject_Z d) in *. clearbody q.
  unfold Qdiv, Qinv; cbn [Qnum Qden]. split; lra.
Qed.

Lemma material_balance_bounded_without_promotions_witness :
  (fst (material_totals starting_board) <= 39)%Z
  ∧ (snd (material_totals starting_board) <= 39)%Z
  ∧ (0 <= _analyze_material_balance starting_board <= 1)%Q.
Proof.
  assert (H1 : (fst (material_totals starting_board) <= 39)%Z) by (vm_compute; discriminate).
  assert (H2 : (snd (material_totals starting_board) <= 39)%Z) by (vm_compute; discriminate).
  split; [exact H1|]. split; [exact H2|].
  exact (proj2 (proj2 (material_balance_bounded_without_promotions starting_board H1 H2))).
Defined.

Lemma chain_scan_run (board : Board) (file : nat) (c : Color) (n start len : nat) :
  let L := chain_scan board file c (seq start n) len in
  len ≤ L ∧ L ≤ len + n
  ∧ (∀ j, j < L - len → piece_at board (square file (start + j)) = Some (mkPiece PAWN c))
  ∧ (L - len < n →
     piece_at board (square file (start + (L - len))) ≠ Some (mkPiece PAWN c)).
Proof.
  revert start len. induction n as [|n IH]; intros start len; cbn.
  - split; [lia|]. split; [lia|]. split; [intros j Hj; lia|lia].
  - case_bool_decide as Hp.
    + destruct (IH (S start) (S len)) as (H1 & H2 & H3 & H4).
      split; [lia|]. split; [lia|]. split.
      * intros j Hj. destruct j as [|j]; [by rewrite Nat.add_0_r|].
        replace (start + S j) with (S start + j) by lia. apply H3. lia.
      * intros Hlt.
        replace (start + (chain_scan board file c (seq (S start) n) (S len) - len))
          with (S start + (chain_scan board file c (seq (S start) n) (S len) - S len))
          by lia.
        apply H4. lia.
    + split; [lia|]. split; [lia|]. split; [intros j Hj; lia|].
      intros _. by rewrite Nat.sub_diag, Nat.add_0_r.
Qed.

(** The chain length of a pawn is 1 plus the unbroken run of pawns of
    its colour directly above it on its file (towards the eighth rank,
    for either colour); it lies between 1 and the number of ranks from
    the pawn's rank to the eighth. *)
Theorem pawn_chain_length_is_run_above (board : Board) (sq : Square) (c : Color) :
  sq < 64 →
  let L := _get_pawn_chain_length board sq c in
  1 ≤ L ∧ L ≤ 8 - square_rank sq
  ∧ (∀ j, 1 ≤ j < L →
          piece_at board (square (square_file sq) (square_rank sq + j))
          = Some (mkPiece PAWN c))
  ∧ (L < 8 - square_rank sq →
     piece_at board (square (square_file sq) (square_rank sq + L))
     ≠ Some (mkPiece PAWN c)).
Proof.
  intros Hsq L. subst L. unfold _get_pawn_chain_length.
  assert (Hrank : square_rank sq < 8).
  { unfold square_rank. apply Nat.Div0.div_lt_upper_bound. lia. }
  destruct (chain_scan_run board (square_file sq) c
              (8 - (square_rank sq + 1)) (square_rank sq + 1) 1)
    as (H1 & H2 & H3 & H4).
  set (L := chain_scan _ _ _ _ _) in *.
  split; [lia|]. split; [lia|]. split.
  - intros j Hj. replace (square_rank sq + j) with (square_rank sq + 1 + (j - 1)) by lia.
    apply H3. lia.
  - intros Hlt. replace (square_rank sq + L) with (square_rank sq + 1 + (L - 1)) by lia.
    apply H4. lia.
Qed.

Lemma pawn_chain_length_is_run_above_witness :
  8 < 64
  ∧ 1 ≤ _get_pawn_chain_length starting_board 8 WHITE
  ∧ _get_pawn_chain_length starting_board 8 WHITE ≤ 8 - square_rank 8.
Proof.
  assert (H1 : 8 < 64) by lia.
  split; [exact H1|].
  destruct (pawn_chain_length_is_run_above starting_board 8 WHITE H1) as (Ha & Hb & _).
  split; [exact Ha|exact Hb].
Defined.

Lemma classify_position_eq (board : Board) (features : gmap string Q)
  (pc ps cc cx tac mb sc : Q) :
  features !! "piece_count"%string = Some pc →
  features !! "pawn_structure"%string = Some ps →
  features !! "center_control"%string = Some cc →
  features !! "position_complexity"%string = Some cx →
  features !! "tactical_opportunities"%string = Some tac →
  features !! "material_balance"%string = Some mb →
  features !! "space_control"%string = Some sc →
  _classify_position board features
  = Some (classify_spec (length (move_stack board)) pc ps cc cx tac mb sc).
Proof.
  intros Hpc Hps Hcc Hcx Htac Hmb Hsc.
  unfold _classify_position, classify_spec, ge, le, getitem, Qgeb, Qleb.
  rewrite Hpc, Hps, Hcc, Hcx, Htac, Hmb, Hsc. cbn [fmap option_fmap option_map].
  cbn [first_match and_then or_else].
  destruct (length (move_stack board) <=? 8); [done|].
  destruct (Qle_bool 0.8 pc); [done|].
  destruct (Qle_bool 0.7 ps), (Qle_bool cc 0.3), (Qle_bool 0.6 cx); cbn; try done;
    destruct (Qle_bool 0.7 tac), (Qle_bool 0.5 mb); cbn; try done;
    destruct (Qle_bool 0.5 tac); cbn; try done;
    destruct (Qle_bool 0.6 ps), (Qle_bool 0.5 sc); cbn; try done;
    destruct (Qle_bool 0.7 cx); cbn; try done;
    destruct (Qle_bool 0.5 cc); cbn; done.
Qed.

Lemma classify_spec_opening (n : nat) (pc ps cc cx tac mb sc : Q) :
  classify_spec n pc ps cc cx tac mb sc = OPENING ↔ n ≤ 8.
Proof.
  unfold classify_spec. destruct (n <=? 8) eqn:Hn.
  - apply Nat.leb_le in Hn. done.
  - apply Nat.leb_gt in Hn. split; [|lia].
    destruct (Qle_bool 0.8 pc); [done|].
    destruct (_ && _ && _); [done|]. destruct (_ || _); [done|].
    destruct (Qle_bool 0.5 tac); [done|]. destruct (_ && _); [done|].
    destruct (Qle_bool 0.7 cx); [done|]. by destruct (Qle_bool 0.5 cc).
Qed.

Lemma time_allocation_range (tag : PositionType) (features : gmap string Q) :
  match _calculate_time_allocation tag features with
  | Some t => (1.4 <= t <= 6)%Q
  | None => features !! "position_complexity"%string = None
  end.
Proof.
  unfold _calculate_time_allocation, getitem.
  destruct (features !! "position_complexity"%string) as [cx|]; [|done].
  destruct (Qgeb cx 0.7), tag; cbn [bool_decide decide_rel];
    split; apply Qle_bool_iff; reflexivity.
Qed.

Lemma depth_allocation_range (tag : PositionType) (features : gmap string Q) :
  match _calculate_depth_allocation tag features with
  | Some d => 20 ≤ d ≤ 45
  | None => features !! "position_complexity"%string = None
  end.
Proof.
  unfold _calculate_depth_allocation, getitem.
  destruct (features !! "position_complexity"%string) as [cx|]; [|done].
  destruct (Qgeb cx 0.7), tag; split; apply Nat.leb_le; reflexivity.
Qed.

(** The search budget is bounded: whatever the tag and the features,
    the time allotted lies between 1.4 and 6.0 seconds and the depth
    between 20 and 45 plies; the two computations fail only when the
    dictionary lacks the [position_complexity] key. *)
Theorem search_budget_is_bounded (tag : PositionType) (features : gmap string Q) :
  match _calculate_time_allocation tag features with
  | Some t => (1.4 <= t <= 6)%Q
  | None => features !! "position_complexity"%string = None
  end
  ∧ match _calculate_depth_allocation tag features with
    | Some d => 20 ≤ d ≤ 45
    | None => features !! "position_complexity"%string = None
    end.
Proof. split; [apply time_allocation_range|apply depth_allocation_range]. Qed.

(** The whole analysis never raises. For every board, features are
    extracted, classified and budgeted without a missing key or a missing
    piece, the features of the result are the extracted ones, and the tag
    is OPENING exactly when at most 8 moves are on the move stack. *)
Theorem analyze_position_never_raises `{Rules} (board : Board) :
  ∃ analysis,
    analyze_position board = Some analysis
    ∧ _extract_features board = Some (features analysis)
    ∧ (∀ key, key ∈ schema → is_Some (features analysis !! key))
    ∧ (position_type analysis = OPENING ↔ length (move_stack board) ≤ 8)
    ∧ recommended_engine analysis ≠ CUSTOM
    ∧ (1.4 <= time_allocation analysis <= 6)%Q
    ∧ 20 ≤ depth_allocation analysis ≤ 45.
Proof.
  destruct (extract_features_schema board) as (f & Hf & Hkeys).
  destruct (extract_features_lookup board f Hf)
    as (H1 & H2 & H3 & H4 & H5 & H6 & H7 & H8 & H9 & H10).
  destruct (analyze_pawn_structure_total board) as (ps & Hps & _).
  rewrite Hps in H2.
  pose proof (classify_position_eq board f _ _ _ _ _ _ _ H1 H2 H3 H7 H6 H8 H9) as Hcls.
  set (tag := classify_spec _ _ _ _ _ _ _ _) in Hcls.
  pose proof (time_allocation_range tag f) as Htime.
  pose proof (depth_allocation_range tag f) as Hdepth.
  destruct (_calculate_time_allocation tag f) as [t|] eqn:Ht; [|congruence].
  destruct (_calculate_depth_allocation tag f) as [d|] eqn:Hd; [|congruence].
  exists (mkPositionAnalysis tag (_calculate_confidence f) f (_recommend_engine tag f) t d).
  split.
  { unfold analyze_position. rewrite Hf. cbn [mbind option_bind].
    rewrite Hcls. cbn [mbind option_bind]. rewrite Ht. cbn [mbind option_bind].
    by rewrite Hd. }
  cbn [features position_type recommended_engine time_allocation depth_allocation].
  split; [done|]. split; [done|]. split; [apply classify_spec_opening|].
  split; [by destruct tag|]. done.
Qed.

Lemma confidence_step (features : gmap string Q) (acc : Q) (key : string) (weight v : Q)
  (rest : list (string * Q)) :
  features !! key = Some v →
  fold_left (fun (confidence : Q) '(feature, weight) =>
               match features !! feature with
               | Some v => (confidence + v * weight)%Q
               | None => confidence
               end)
            ((key, weight) :: rest) acc
  = fold_left (fun (confidence : Q) '(feature, weight) =>
                 match features !! feature with
                 | Some v => (confidence + v * weight)%Q
                 | None => confidence
                 end)
              rest (acc + v * weight)%Q.
Proof. intros Hkey. cbn [fold_left]. by rewrite Hkey. Qed.

Lemma confidence_of_lookups (features : gmap string Q) (pc ps cc dev ks tac : Q) :
  features !! "piece_count"%string = Some pc →
  features !! "pawn_structure"%string = Some ps →
  features !! "center_control"%string = Some cc →
  features !! "development"%string = Some dev →
  features !! "king_safety"%string = Some ks →
  features !! "tactical_opportunities"%string = Some tac →
  _calculate_confidence features
  = Qmin 1 (0 + pc * 0.15 + ps * 0.20 + cc * 0.15 + dev * 0.10 + ks * 0.15
            + tac * 0.25)%Q.
Proof.
  intros H1 H2 H3 H4 H5 H6. unfold _calculate_confidence, feature_weights.
  rewrite (confidence_step features _ _ _ _ _ H1).
  rewrite (confidence_step features _ _ _ _ _ H2).
  rewrite (confidence_step features _ _ _ _ _ H3).
  rewrite (confidence_step features _ _ _ _ _ H4).
  rewrite (confidence_step features _ _ _ _ _ H5).
  rewrite (confidence_step features _ _ _ _ _ H6).
  reflexivity.
Qed.

Lemma weighted_sum_unit (pc ps cc dev ks tac : Q) :
  (0 <= pc <= 1)%Q → (0 <= ps <= 1)%Q → (0 <= cc <= 1)%Q →
  (0 <= dev <= 1)%Q → (0 <= ks <= 1)%Q → (0 <= tac <= 1)%Q →
  (Qmin 1 (0 + pc * 0.15 + ps * 0.20 + cc * 0.15 + dev * 0.10 + ks * 0.15 + tac * 0.25)
   == 0.15 * pc + 0.20 * ps + 0.15 * cc + 0.10 * dev + 0.15 * ks + 0.25 * tac)%Q
  ∧ (0 <= Qmin 1 (0 + pc * 0.15 + ps * 0.20 + cc * 0.15 + dev * 0.10 + ks * 0.15
                  + tac * 0.25) <= 1)%Q.
Proof.
  intros H1 H2 H3 H4 H5 H6.
  assert (Hmin : (Qmin 1 (0 + pc * 0.15 + ps * 0.20 + cc * 0.15 + dev * 0.10
                          + ks * 0.15 + tac * 0.25)
                  == 0 + pc * 0.15 + ps * 0.20 + cc * 0.15 + dev * 0.10 + ks * 0.15
                     + tac * 0.25)%Q) by (apply Q.min_r; lra).
  split.
  - eapply Qeq_trans; [exact Hmin|]. ring.
  - split.
    + eapply Qle_trans; [|apply Qle_lteq; right; apply Qeq_sym; exact Hmin]. lra.
    + apply Q.le_min_l.
Qed.

(** The confidence of an analysis is the weighted sum of six features
    with the fixed weights 0.15, 0.20, 0.15, 0.10, 0.15 and 0.25; on a
    board with at most 32 pieces the sum already lies in [0, 1], so the
    final clamp [min(1.0, ...)] never changes it. *)
Theorem confidence_is_weighted_sum `{Rules} (board : Board) :
  length (piece_map board) ≤ 32 →
  ∃ features pawn_structure,
    _extract_features board = Some features
    ∧ _analyze_pawn_structure board = Some pawn_structure
    ∧ (_calculate_confidence features
       == 0.15 * _analyze_piece_count board + 0.20 * pawn_structure
          + 0.15 * _analyze_center_control board + 0.10 * _analyze_development board
          + 0.15 * _analyze_king_safety board
          + 0.25 * _analyze_tactical_opportunities board)%Q
    ∧ (0 <= _calculate_confidence features <= 1)%Q.
Proof.
  intros Hn.
  destruct (extract_features_schema board) as (f & Hf & _).
  destruct (extract_features_lookup board f Hf)
    as (H1 & H2 & H3 & H4 & H5 & H6 & _).
  destruct (analyze_pawn_structure_total board) as (ps & Hps & Hrps).
  rewrite Hps in H2. exists f, ps. split; [done|]. split; [done|].
  rewrite (confidence_of_lookups f _ _ _ _ _ _ H1 H2 H3 H4 H5 H6).
  apply weighted_sum_unit;
    [by apply piece_count_range|exact Hrps|apply center_control_range
    |apply development_range|apply king_safety_range|apply tactical_range].
Qed.

Lemma confidence_is_weighted_sum_witness :
  length (piece_map two_queens) ≤ 32
  ∧ ∃ features pawn_structure,
      _extract_features two_queens = Some features
      ∧ _analyze_pawn_structure two_queens = Some pawn_structure
      ∧ (_calculate_confidence features
         == 0.15 * _analyze_piece_count two_queens + 0.20 * pawn_structure
            + 0.15 * _analyze_center_control two_queens
            + 0.10 * _analyze_development two_queens
            + 0.15 * _analyze_king_safety two_queens
            + 0.25 * _analyze_tactical_opportunities two_queens)%Q
      ∧ (0 <= _calculate_confidence features <= 1)%Q.
Proof.
  assert (H1 : length (piece_map two_queens) ≤ 32) by (vm_compute; lia).
  split; [exact H1|]. exact (confidence_is_weighted_sum two_queens H1).
Defined.

End AnalyzerExtras.

(* ===================================================================== *)
(** * engine_wrapper.py: MultiEngineWrapper *)
(* ===================================================================== *)

Module Multi.
Import Chess Wrapper.

Record MultiEngineWrapper := mkMulti {
  engines : gmap string EngineWrapper;
  current_engine : option string
}.

Section WithRules.
Context `{Rules}.

(** [EngineWrapper(engine_name)]; [None] stands for an exception of the
    constructor. *)
Variable construct : string -> option EngineWrapper.

(** One iteration of the loop of [__init__]. *)
Definition load_engine (self : MultiEngineWrapper) (engine_name : string)
  : MultiEngineWrapper :=
  match construct engine_name with
  | Some wrapper =>
      mkMulti (<[engine_name := wrapper]> (engines self))
              (match current_engine self with
               | None => Some engine_name
               | Some current => Some current
               end)
  | None => self
  end.

Definition __init__ (engines : option (list string)) : MultiEngineWrapper :=
  let engines := default ["stockfish"%string] engines in
  fold_left load_engine engines (mkMulti ∅ None).

Definition get_move (self : MultiEngineWrapper) (board : Board)
  (engine_name : option string) (time_limit : option Q) : M (option Move) :=
  let engine_name :=
    match engine_name with
    | None => current_engine self
    | Some name => Some name
    end in
  match engine_name with
  | Some name =>
      match engines self !! name with
      | Some wrapper => Wrapper.get_move wrapper board time_limit
      | None => mret None
      end
  | None => mret None
  end.

Definition switch_engine (self : MultiEngineWrapper) (engine_name : string)
  : MultiEngineWrapper :=
  match engines self !! engine_name with
  | Some _ => mkMulti (engines self) (Some engine_name)
  | None => self
  end.

End WithRules.

End Multi.

Section WrapperExtras.
Import Chess Wrapper Samples.

(** The best pair of the tablebase loop after the moves in [seen]: the
    first of the moves with the smallest distance. *)
Definition best_so_far `{Rules} (tb : Tablebase) (board : Board) (seen : list Move)
  (best : option Move * option Z) : Prop :=
  match best with
  | (Some m, Some d) =>
      probe_dtz tb (push board m) = Some d
      ∧ (∀ m' d', m' ∈ seen → probe_dtz tb (push board m') = Some d' →
                  (Z.abs d <= Z.abs d')%Z)
      ∧ ∃ before after,
          seen = before ++ m :: after
          ∧ ∀ m' d', m' ∈ before → probe_dtz tb (push board m') = Some d' →
                     (Z.abs d < Z.abs d')%Z
  | (None, None) => ∀ m', m' ∈ seen → probe_dtz tb (push board m') = None
  | _ => False
  end.

Lemma dtz_pick_best `{Rules} (tb : Tablebase) (board : Board) (seen : list Move)
  (best : option Move * option Z) (move : Move) :
  best_so_far tb board seen best →
  best_so_far tb board (seen ++ [move])
              (dtz_pick best move (probe_dtz tb (push board move))).
Proof.
  unfold dtz_pick.
  destruct best as [[m|] [d|]]; cbn [best_so_far snd]; try done.
  - intros (Hd & Hmin & before & after & Hseen & Hfirst).
    destruct (probe_dtz tb (push board move)) as [d0|] eqn:Hd0.
    + destruct (Z.abs d0 <? Z.abs d)%Z eqn:Hlt; cbn [best_so_far].
      * apply Z.ltb_lt in Hlt. split; [done|]. split.
        -- intros m' d' Hm' Hd'. apply elem_of_app in Hm' as [Hm'|Hm'].
           ++ specialize (Hmin m' d' Hm' Hd'). lia.
           ++ apply list_elem_of_singleton in Hm' as ->. rewrite Hd0 in Hd'.
              injection Hd' as <-. lia.
        -- exists seen, []. split; [done|]. intros m' d' Hm' Hd'.
           specialize (Hmin m' d' Hm' Hd'). lia.
      * apply Z.ltb_ge in Hlt. split; [done|]. split.
        -- intros m' d' Hm' Hd'. apply elem_of_app in Hm' as [Hm'|Hm'].
           ++ by apply (Hmin m' d').
           ++ apply list_elem_of_singleton in Hm' as ->. rewrite Hd0 in Hd'.
              by injection Hd' as <-.
        -- exists before, (after ++ [move]). split; [|done].
           by rewrite Hseen, <- app_assoc.
    + cbn [best_so_far]. split; [done|]. split.
      * intros m' d' Hm' Hd'. apply elem_of_app in Hm' as [Hm'|Hm'].
        -- by apply (Hmin m' d').
        -- apply list_elem_of_singleton in Hm' as ->. congruence.
      * exists before, (after ++ [move]). split; [|done].
        by rewrite Hseen, <- app_assoc.
  - intros Hnone.
    destruct (probe_dtz tb (push board move)) as [d0|] eqn:Hd0; cbn [best_so_far].
    + split; [done|]. split.
      * intros m' d' Hm' Hd'. apply elem_of_app in Hm' as [Hm'|Hm'].
        -- rewrite (Hnone m' Hm') in Hd'. done.
        -- apply list_elem_of_singleton in Hm' as ->. rewrite Hd0 in Hd'.
           injection Hd' as <-. lia.
      * exists seen, []. split; [done|]. intros m' d' Hm' Hd'.
        rewrite (Hnone m' Hm') in Hd'. done.
    + intros m' Hm'. apply elem_of_app in Hm' as [Hm'|Hm'].
      * by apply Hnone.
      * by apply list_elem_of_singleton in Hm' as ->.
Qed.

Lemma dtz_loop_best `{Rules} (tb : Tablebase) (board : Board) (moves seen : list Move)
  (best : option Move * option Z) (w : World) :
  best_so_far tb board seen best →
  best_so_far tb board (seen ++ moves) (result (dtz_loop tb board moves best w)).
Proof.
  revert seen best. induction moves as [|move rest IH]; intros seen best Hbest.
  - by rewrite app_nil_r.
  - rewrite dtz_loop_cons. cbn [result fst].
    replace (seen ++ move :: rest) with ((seen ++ [move]) ++ rest)
      by (by rewrite <- app_assoc).
    apply IH. by apply dtz_pick_best.
Qed.

(** No move is taken from the tablebase exactly when the position itself
    is unknown to the tablebase (its WDL or its DTZ probe fails) or no
    successor position is known. Otherwise the move is the first legal
    move whose successor has the smallest distance-to-zero, in absolute
    value, among all legal moves with a known successor. *)
Theorem tablebase_move_minimises_distance `{Rules} (tb : Tablebase) (board : Board)
  (w : World) :
  (result (_get_tablebase_move tb board w) = None
   ↔ probe_wdl tb board = None ∨ probe_dtz tb board = None
     ∨ ∀ m', m' ∈ legal_moves board → probe_dtz tb (push board m') = None)
  ∧ ∀ m, result (_get_tablebase_move tb board w) = Some m →
         ∃ d before after,
           probe_dtz tb (push board m) = Some d
           ∧ legal_moves board = before ++ m :: after
           ∧ (∀ m' d', m' ∈ legal_moves board →
                       probe_dtz tb (push board m') = Some d' →
                       (Z.abs d <= Z.abs d')%Z)
           ∧ (∀ m' d', m' ∈ before → probe_dtz tb (push board m') = Some d' →
                       (Z.abs d < Z.abs d')%Z).
Proof.
  rewrite get_tablebase_move_eq.
  destruct (probe_wdl tb board) as [wdl|]; [|split; [split; [by left|done]|done]].
  destruct (probe_dtz tb board) as [dtz|];
    [|split; [split; [right; by left|done]|done]].
  cbn [result fst].
  pose proof (dtz_loop_best tb board (legal_moves board) [] (None, None) w) as Hbest.
  cbn [app] in Hbest. specialize (Hbest (fun m' Hm' => ltac:(by apply elem_of_nil in Hm'))).
  destruct (result (dtz_loop tb board (legal_moves board) (None, None) w))
    as [[m|] [d|]]; cbn [best_so_far fst] in *; try done.
  - destruct Hbest as (Hd & Hmin & before & after & Hlegal & Hfirst). split.
    + split; [done|]. intros [?|[?|Hnone]]; [done|done|].
      rewrite (Hnone m) in Hd; [done|]. rewrite Hlegal. apply elem_of_app. right.
      apply list_elem_of_here.
    + intros m0 [= <-]. by exists d, before, after.
  - split; [|done]. split; [|done]. intros _. right. by right.
Qed.

Example tablebase_move_sample :
  result (_get_tablebase_move sample_tablebase kqk_board fresh_world) = Some (mv E1 D2).
Proof. vm_compute. reflexivity. Qed.

Lemma filter_truthy (o : option Move) (m : Move) :
  (if truthy o then o else None) = Some m → Move_bool m = true.
Proof. intros Hm. by apply truthy_Some in Hm as [_ ?]. Qed.

Lemma tablebase_stage_effects `{Rules} (self : EngineWrapper) (board : Board) (w : World) :
  world (tablebase_stage self board w) = w
  ∧ Forall is_probe (events (tablebase_stage self board w))
  ∧ ∀ m, result (tablebase_stage self board w) = Some m → Move_bool m = true.
Proof.
  rewrite tablebase_stage_eq. destruct (tablebase self) as [tb|]; [|by repeat split].
  destruct (length (piece_map board) <=? 6); [|by repeat split].
  destruct (get_tablebase_move_effects tb board w) as (Hw & Hev & _).
  split; [done|]. split; [done|]. intros m. apply filter_truthy.
Qed.

Lemma select_entry_world (entries : list Entry) (w : World) :
  rand (world (select_entry entries w)) = rand w
  ∧ cursor w ≤ cursor (world (select_entry entries w)) ≤ S (cursor w).
Proof.
  destruct entries as [|e0 rest]; [cbn; split; [done|lia]|].
  rewrite select_entry_eq by done. unfold world, advance. cbn. split; [done|lia].
Qed.

Lemma book_stage_effects `{Rules} (self : EngineWrapper) (board : Board) (w : World) :
  rand (world (book_stage self board w)) = rand w
  ∧ cursor w ≤ cursor (world (book_stage self board w)) ≤ cursor w + 2
  ∧ (events (book_stage self board w) = []
     ∨ events (book_stage self board w) = [BookLookup board])
  ∧ ∀ m, result (book_stage self board w) = Some m → Move_bool m = true.
Proof.
  rewrite book_stage_eq. unfold world, events, result.
  destruct (book self) as [bk|]; cbn [fst snd];
    [|split; [done|]; split; [lia|]; split; [by left|done]].
  destruct (length (move_stack board) <? 15); cbn [fst snd];
    [|split; [done|]; split; [lia|]; split; [by left|done]].
  destruct (Qle_bool 0.8 (rand w (cursor w))); cbn [fst snd].
  { unfold advance. cbn. split; [done|]. split; [lia|]. split; [by left|done]. }
  destruct (find_all bk board 1) as [entries|]; cbn [fst snd].
  - destruct (select_entry_world entries (advance w)) as [Hrand Hcursor].
    unfold world in Hrand, Hcursor. cbv zeta. cbn [fst snd].
    set (w1 := (select_entry entries (advance w)).1.2) in *.
    change (cursor (advance w)) with (S (cursor w)) in Hcursor.
    split; [exact Hrand|]. split; [lia|]. split; [by right|].
    intros m. apply filter_truthy.
  - unfold advance. cbn. split; [done|]. split; [lia|]. split; [by right|done].
Qed.

Lemma engine_stage_effects `{Rules} (self : EngineWrapper) (board : Board)
  (time_limit : option Q) (w : World) :
  world (engine_stage self board time_limit w) = w
  ∧ (events (engine_stage self board time_limit w) = []
     ∨ ∃ t, events (engine_stage self board time_limit w) = [EnginePlay board t])
  ∧ ∀ m, result (engine_stage self board time_limit w) = Some m → Move_bool m = true.
Proof.
  rewrite engine_stage_eq. destruct (engine self) as [eng|]; [|by repeat split; [left|]].
  cbn [world result events fst snd]. split; [done|]. split; [right; by eexists|].
  intros m. apply filter_truthy.
Qed.

Lemma get_move_eq `{Rules} (self : EngineWrapper) (board : Board)
  (time_limit : option Q) (w : World) :
  is_game_over board = false →
  get_move self board time_limit w
  = let r1 := tablebase_stage self board w in
    match result r1 with
    | Some m => (Some m, world r1, events r1)
    | None =>
        let r2 := book_stage self board (world r1) in
        match result r2 with
        | Some m => (Some m, world r2, events r1 ++ events r2)
        | None =>
            let r3 := engine_stage self board time_limit (world r2) in
            (result r3, world r3, events r1 ++ events r2 ++ events r3)
        end
    end.
Proof.
  intros Hgo. unfold get_move. rewrite Hgo.
  unfold mbind, M_bind, mret, M_ret, result, world, events.
  destruct (tablebase_stage self board w) as [[[m1|] w1] evs1]; cbn [fst snd].
  { by rewrite app_nil_r. }
  destruct (book_stage self board w1) as [[[m2|] w2] evs2]; cbn [fst snd].
  { by rewrite app_nil_r. }
  destruct (engine_stage self board time_limit w2) as [[[m3|] w3] evs3]; cbn [fst snd];
    by rewrite app_nil_r.
Qed.

(** What one move request can do. A move handed back is never the null
    move; the request draws at most two random values; and its calls to
    collaborators are, in this order, tablebase probes, at most one book
    lookup and at most one engine call, all for the board of the
    request's own position or its successors. *)
Theorem get_move_effects_are_bounded `{Rules} (self : EngineWrapper) (board : Board)
  (time_limit : option Q) (w : World) :
  (∀ m, result (get_move self board time_limit w) = Some m → Move_bool m = true)
  ∧ rand (world (get_move self board time_limit w)) = rand w
  ∧ cursor w ≤ cursor (world (get_move self board time_limit w)) ≤ cursor w + 2
  ∧ ∃ probes lookups plays,
      events (get_move self board time_limit w) = probes ++ lookups ++ plays
      ∧ Forall is_probe probes
      ∧ (lookups = [] ∨ lookups = [BookLookup board])
      ∧ (plays = [] ∨ ∃ t, plays = [EnginePlay board t]).
Proof.
  destruct (is_game_over board) eqn:Hover.
  { unfold get_move. rewrite Hover. cbn. split; [done|]. split; [done|]. split; [lia|].
    exists [], [], []. split; [done|]. split; [constructor|]. split; by left. }
  rewrite get_move_eq by done. cbv zeta.
  destruct (tablebase_stage_effects self board w) as (Hw1 & Hev1 & Ht1).
  destruct (result (tablebase_stage self board w)) as [m1|] eqn:Hr1.
  { cbn [result world events fst snd]. rewrite Hw1.
    split; [intros m [= <-]; by apply Ht1|]. split; [done|]. split; [lia|].
    exists (events (tablebase_stage self board w)), [], [].
    rewrite !app_nil_r. split; [done|]. split; [done|]. split; by left. }
  rewrite Hw1.
  destruct (book_stage_effects self board w) as (Hrand2 & Hcur2 & Hev2 & Ht2).
  destruct (result (book_stage self board w)) as [m2|] eqn:Hr2.
  { cbn [result world events fst snd].
    split; [intros m [= <-]; by apply Ht2|]. split; [done|]. split; [done|].
    exists (events (tablebase_stage self board w)), (events (book_stage self board w)), [].
    rewrite !app_nil_r. split; [done|]. split; [done|]. split; [done|by left]. }
  destruct (engine_stage_effects self board time_limit (world (book_stage self board w)))
    as (Hw3 & Hev3 & Ht3).
  cbn [result world events fst snd]. fold (result (engine_stage self board time_limit
    (world (book_stage self board w)))).
  rewrite Hw3. split; [exact Ht3|]. split; [done|]. split; [done|].
  exists (events (tablebase_stage self board w)), (events (book_stage self board w)),
         (events (engine_stage self board time_limit (world (book_stage self board w)))).
  by repeat split.
Qed.

End WrapperExtras.

Section MultiExtras.
Import Chess Wrapper Multi.
Context `{Rules}.
Variable construct : string -> option EngineWrapper.

(** The current engine, when there is one, is a key of [engines]; there
    is none only while no engine is loaded. *)
Definition current_is_loaded (self : MultiEngineWrapper) : Prop :=
  match current_engine self with
  | Some name => is_Some (engines self !! name)
  | None => engines self = ∅
  end.

Lemma load_engine_current (self : MultiEngineWrapper) (name : string) :
  current_is_loaded self → current_is_loaded (load_engine construct self name).
Proof.
  unfold current_is_loaded, load_engine. intros Hself.
  destruct (construct name) as [wrapper|]; [|done]. cbn.
  destruct (current_engine self) as [current|].
  - destruct (decide (name = current)) as [->|Hne].
    + rewrite lookup_insert_eq. by eexists.
    + by rewrite lookup_insert_ne.
  - rewrite lookup_insert_eq. by eexists.
Qed.

Lemma load_engine_engines (self : MultiEngineWrapper) (name key : string) :
  is_Some (engines (load_engine construct self name) !! key)
  ↔ is_Some (engines self !! key) ∨ (key = name ∧ is_Some (construct name)).
Proof.
  unfold load_engine. destruct (construct name) as [wrapper|] eqn:Hc; cbn.
  - destruct (decide (name = key)) as [->|Hne].
    + rewrite lookup_insert_eq. split; [intros _; right; split; [done|by eexists]|by eexists].
    + rewrite lookup_insert_ne by done. split; [by left|]. intros [?|[-> _]]; done.
  - split; [by left|]. intros [?|[_ [? ?]]]; done.
Qed.

Lemma load_all_current (names : list string) (self : MultiEngineWrapper) :
  current_is_loaded self → current_is_loaded (fold_left (load_engine construct) names self).
Proof.
  revert self. induction names as [|name names IH]; intros self Hself; [done|].
  cbn [fold_left]. apply IH. by apply load_engine_current.
Qed.

Lemma load_all_engines (names : list string) (self : MultiEngineWrapper) (key : string) :
  is_Some (engines (fold_left (load_engine construct) names self) !! key)
  ↔ is_Some (engines self !! key) ∨ (key ∈ names ∧ is_Some (construct key)).
Proof.
  revert self. induction names as [|name names IH]; intros self; cbn [fold_left].
  - split; [by left|]. intros [?|[Hin _]]; [done|]. by apply elem_of_nil in Hin.
  - rewrite IH, load_engine_engines, elem_of_cons. split.
    + intros [[?|[-> ?]]|[? ?]]; [by left|right|right]; split; auto.
    + intros [?|[[->|?] ?]]; [left; by left|left; right; by split|right; by split].
Qed.

Lemma switch_engine_current (self : MultiEngineWrapper) (name : string) :
  current_is_loaded self → current_is_loaded (switch_engine self name).
Proof.
  unfold current_is_loaded, switch_engine. intros Hself.
  destruct (engines self !! name) as [wrapper|] eqn:Hname; [|done].
  cbn. rewrite Hname. by eexists.
Qed.

Lemma switch_engine_engines (self : MultiEngineWrapper) (name : string) :
  engines (switch_engine self name) = engines self.
Proof. unfold switch_engine. by destruct (engines self !! name). Qed.

Lemma switch_all (requests : list string) (self : MultiEngineWrapper) :
  current_is_loaded self →
  current_is_loaded (fold_left switch_engine requests self)
  ∧ engines (fold_left switch_engine requests self) = engines self.
Proof.
  revert self. induction requests as [|name requests IH]; intros self Hself; [done|].
  cbn [fold_left].
  destruct (IH (switch_engine self name)) as [Hcur Heng]; [by apply switch_engine_current|].
  split; [done|]. by rewrite Heng, switch_engine_engines.
Qed.

(** A multi-engine wrapper built from any list of engine names and then
    asked for any sequence of engine switches holds exactly the engines
    whose construction succeeded; switching to a name that is not loaded
    changes nothing, so the current engine is always a loaded one and a
    default move request is that engine's own request; when no engine
    could be loaded every request returns [None] without any effect. *)
Theorem current_engine_is_always_loaded (names : option (list string))
  (requests : list string) :
  let self := fold_left switch_engine requests (__init__ construct names) in
  (∀ key, is_Some (engines self !! key)
          ↔ key ∈ default ["stockfish"%string] names ∧ is_Some (construct key))
  ∧ match current_engine self with
    | Some name =>
        ∃ wrapper, engines self !! name = Some wrapper
          ∧ ∀ board time_limit,
              Multi.get_move self board None time_limit
              = Wrapper.get_move wrapper board time_limit
    | None =>
        (∀ key, construct key = None ∨ key ∉ default ["stockfish"%string] names)
        ∧ ∀ board engine_name time_limit w,
            Multi.get_move self board engine_name time_limit w = (None, w, [])
    end.
Proof.
  intros self.
  assert (Hinit : current_is_loaded (__init__ construct names)).
  { unfold __init__. by apply load_all_current. }
  destruct (switch_all requests _ Hinit) as [Hcur Heng]. fold self in Hcur, Heng.
  assert (Hkeys : ∀ key, is_Some (engines self !! key)
            ↔ key ∈ default ["stockfish"%string] names ∧ is_Some (construct key)).
  { intros key. rewrite Heng. unfold __init__. rewrite load_all_engines. cbn.
    rewrite lookup_empty. split; [intros [[? ?]|?]; done|by right]. }
  split; [exact Hkeys|].
  unfold current_is_loaded in Hcur. unfold Multi.get_move.
  destruct (current_engine self) as [name|].
  - destruct Hcur as [wrapper Hwrapper]. exists wrapper. split; [done|].
    intros board time_limit. by rewrite Hwrapper.
  - split.
    + intros key. destruct (construct key) as [wrapper|] eqn:Hc; [right|by left].
      intros Hin. assert (Hsome : is_Some (engines self !! key)).
      { apply Hkeys. split; [done|]. rewrite Hc. by eexists. }
      rewrite Hcur, lookup_empty in Hsome. by destruct Hsome.
    + intros board engine_name time_limit w. rewrite Hcur.
      destruct engine_name as [name|]; [|done]. by rewrite lookup_empty.
Qed.

End MultiExtras.

(** * The tournament loop ([tournament_learning_system.py])

    [play_single_game] plays one game against the engine and learns from
    it; here it is a function of the game number, the tournament id and
    the state of the learning system. Of a game's result dictionary the
    tournament code reads the keys below; the two tables are the rows
    written by [_save_game_result] and [_save_tournament_result]. *)

Module Tournament.

Record MistakeNote := mkNote {
  move_played : string;
  best_move : string
}.

Record GameResult := mkGame {
  result : string;
  winner : string;
  moves : list string;
  mistakes : list MistakeNote;
  final_fen : string
}.

Record TournamentResult := mkTournamentResult {
  tournament_id : string;
  games_played : nat;
  wins : nat;
  draws : nat;
  losses : nat;
  win_rate : Q;
  total_moves : nat;
  average_game_length : Q;
  learning_insights : list string
}.

Record GameRow := mkGameRow {
  row_tournament : string;
  row_game_id : string;
  row_result : string;
  row_moves : list string;
  row_mistakes : list MistakeNote
}.

Definition QofNat (n : nat) : Q := inject_Z (Z.of_nat n).

Definition _get_winner (result : string) : string :=
  if String.eqb result "1-0" then "Beyaz (Bot)"
  else if String.eqb result "0-1" then "Siyah (Stockfish)"
  else "Beraberlik".

Section WithGames.
Variable Memory : Type.
Variable play_single_game : nat -> string -> Memory -> GameResult * Memory.
(** The id of the tournament with a given count, which depends on the
    clock. *)
Variable name_tournament : nat -> string.

Record System := mkSystem {
  games_per_tournament : nat;
  target_win_rate : Q;
  max_tournaments : nat;
  memory : Memory;
  game_results : list GameRow;
  tournament_results : list TournamentResult
}.

(** The parameters of [__init__]. *)
Definition new_system (m : Memory) : System := mkSystem 5 0.6 50 m [] [].

(** One iteration of [for game_num in range(1, games_per_tournament + 1)]:
    the loop body is the single assignment to [game_result]. *)
Definition play_step (tournament : string) (acc : option GameResult * Memory)
  (game_num : nat) : option GameResult * Memory :=
  let played := play_single_game game_num tournament (snd acc) in
  (Some (fst played), snd played).

Definition play_games (tournament : string) (n : nat) (m : Memory)
  : option GameResult * Memory :=
  fold_left (play_step tournament) (seq 1 n) (None, m).

Definition insight (game_num : nat) (mistake : MistakeNote) : string :=
  "Oyun " +:+ pretty game_num +:+ ": " +:+ move_played mistake +:+ " yerine "
  +:+ best_move mistake +:+ " oynanmalı".

Definition _save_game_result (tournament : string) (game : GameResult) : GameRow :=
  mkGameRow tournament (tournament +:+ "_game_" +:+ pretty (length (moves game)))
            (result game) (moves game) (mistakes game).

(** [None] is the [NameError] of reading [game_result] after a loop that
    never ran. *)
Definition play_tournament (self : System) (tournament : string)
  : option (TournamentResult * System) :=
  let n := games_per_tournament self in
  match play_games tournament n (memory self) with
  | (None, _) => None
  | (Some game_result, m) =>
      let game_num := n in
      let wins := if String.eqb (result game_result) "1-0" then 1 else 0 in
      let losses :=
        if String.eqb (result game_result) "1-0" then 0
        else if String.eqb (result game_result) "0-1" then 1 else 0 in
      let draws :=
        if String.eqb (result game_result) "1-0" then 0
        else if String.eqb (result game_result) "0-1" then 0 else 1 in
      let total_moves := 0 + length (moves game_result) in
      let learning_insights := insight game_num <$> mistakes game_result in
      let games_played := n in
      let tournament_result :=
        mkTournamentResult tournament games_played wins draws losses
          (QofNat wins / QofNat games_played) total_moves
          (QofNat total_moves / QofNat games_played) learning_insights in
      Some (tournament_result,
            mkSystem (games_per_tournament self) (target_win_rate self)
                     (max_tournaments self) m
                     (game_results self ++ [_save_game_result tournament game_result])
                     (tournament_results self ++ [tournament_result]))
  end.

(** The [while tournament_count < max_tournaments] loop of
    [run_learning_tournaments], with the tournaments left as the
    decreasing measure; the result is the final tournament count and the
    best win rate. *)
Fixpoint tournaments_loop (remaining : nat) (tournament_count : nat) (best_win_rate : Q)
  (self : System) : option (nat * Q * System) :=
  match remaining with
  | 0 => Some (tournament_count, best_win_rate, self)
  | S remaining =>
      let tournament_count := S tournament_count in
      match play_tournament self (name_tournament tournament_count) with
      | None => None
      | Some (tournament_result, self) =>
          let best_win_rate :=
            if Analyzer.Qgtb (win_rate tournament_result) best_win_rate
            then win_rate tournament_result else best_win_rate in
          if Qle_bool (target_win_rate self) (win_rate tournament_result)
          then Some (tournament_count, best_win_rate, self)
          else tournaments_loop remaining tournament_count best_win_rate self
      end
  end.

Definition run_learning_tournaments (self : System) : option (nat * Q * System) :=
  tournaments_loop (max_tournaments self) 0 0 self.

End WithGames.

End Tournament.

Section TournamentExtras.
Import Tournament.
Variable Memory : Type.
Variable play_single_game : nat -> string -> Memory -> GameResult * Memory.
Variable name_tournament : nat -> string.

#[local] Abbreviation play_games := (Tournament.play_games Memory play_single_game).
#[local] Abbreviation play_tournament := (Tournament.play_tournament Memory play_single_game).
#[local] Abbreviation run_learning_tournaments :=
  (Tournament.run_learning_tournaments Memory play_single_game name_tournament).
#[local] Abbreviation tournaments_loop :=
  (Tournament.tournaments_loop Memory play_single_game name_tournament).
#[local] Abbreviation System := (Tournament.System Memory).

(** The last game of a tournament of [S k] games: game [S k], played in
    the memory that the first [k] games left. *)
Definition last_game (tournament : string) (k : nat) (m : Memory) : GameResult * Memory :=
  play_single_game (S k) tournament (snd (play_games tournament k m)).

Lemma play_games_S (tournament : string) (k : nat) (m : Memory) :
  play_games tournament (S k) m
  = (Some (fst (last_game tournament k m)), snd (last_game tournament k m)).
Proof.
  unfold last_game, Tournament.play_games. by rewrite seq_S, fold_left_app.
Qed.

Lemma QofNat_pos (k : nat) : (0 < QofNat (S k))%Q.
Proof. unfold QofNat, Qlt. cbn. lia. Qed.

Lemma one_game_rate (wins k : nat) :
  wins ≤ 1 → (0 <= QofNat wins / QofNat (S k) <= 1 / QofNat (S k))%Q.
Proof.
  intros Hwins. pose proof (QofNat_pos k) as Hpos.
  assert (Hinv : (0 <= / QofNat (S k))%Q) by (apply Qinv_le_0_compat; lra).
  assert (Hw : (0 <= QofNat wins <= 1)%Q).
  { unfold QofNat, Qle. cbn. lia. }
  unfold Qdiv. split.
  - apply Qmult_le_0_compat; [apply Hw|done].
  - apply Qmult_le_compat_r; [apply Hw|done].
Qed.

Lemma play_tournament_shape (self : System) (tournament : string) (k : nat) :
  games_per_tournament _ self = S k →
  ∃ r self',
    play_tournament self tournament = Some (r, self')
    ∧ games_per_tournament _ self' = S k
    ∧ target_win_rate _ self' = target_win_rate _ self
    ∧ (0 <= win_rate r <= 1 / QofNat (S k))%Q
    ∧ length (game_results _ self') = S (length (game_results _ self))
    ∧ length (tournament_results _ self') = S (length (tournament_results _ self)).
Proof.
  intros Hn. unfold Tournament.play_tournament. rewrite Hn, play_games_S.
  eexists _, _. split; [done|]. cbn.
  split; [done|]. split; [done|]. split.
  - apply one_game_rate. destruct (String.eqb _ _); lia.
  - rewrite !length_app. cbn. split; lia.
Qed.

(** A tournament counts one game. The result-counting block follows the
    loop over the games instead of being part of it, so whatever the
    number of games and their outcomes, the tournament result scores
    exactly one game, the last one: the three counters add up to 1, the
    move total and the saved row are the last game's, and the win rate
    is at most one over the number of games. All the games are played,
    though, and the memory is the one they leave behind. With no game
    to play the call fails. *)
Theorem tournament_counts_only_last_game (self : System) (tournament : string) :
  match play_tournament self tournament with
  | None => games_per_tournament _ self = 0
  | Some (r, self') =>
      ∃ k, games_per_tournament _ self = S k
        ∧ let last := last_game tournament k (memory _ self) in
          wins r + draws r + losses r = 1
          ∧ (wins r = 1 ↔ result (fst last) = "1-0"%string)
          ∧ (losses r = 1 ↔ result (fst last) = "0-1"%string)
          ∧ total_moves r = length (moves (fst last))
          ∧ games_played r = S k
          ∧ (win_rate r <= 1 / QofNat (S k))%Q
          ∧ memory _ self' = snd last
          ∧ game_results _ self'
            = game_results _ self ++ [_save_game_result tournament (fst last)]
  end.
Proof.
  unfold Tournament.play_tournament.
  destruct (games_per_tournament _ self) as [|k] eqn:Hn; [done|].
  rewrite play_games_S. exists k. split; [done|]. cbv zeta. cbn [wins draws losses
    total_moves games_played win_rate memory game_results fst snd].
  set (last := last_game tournament k (memory _ self)).
  destruct (String.eqb (result last.1) "1-0") eqn:Hwon.
  - apply String.eqb_eq in Hwon. rewrite Hwon.
    split; [done|]. split; [done|]. split; [done|]. split; [done|]. split; [done|].
    split; [apply one_game_rate; lia|done].
  - apply String.eqb_neq in Hwon.
    split; [by destruct (String.eqb _ _)|]. split; [done|]. split.
    { destruct (String.eqb (result last.1) "0-1") eqn:Hlost.
      - by apply String.eqb_eq in Hlost.
      - by apply String.eqb_neq in Hlost. }
    split; [done|]. split; [done|]. split; [apply one_game_rate; lia|done].
Qed.

Lemma tournaments_loop_runs_out (remaining : nat) (k : nat) :
  ∀ (tournament_count : nat) (best_win_rate : Q) (self : System),
  games_per_tournament _ self = S k →
  (1 / QofNat (S k) < target_win_rate _ self)%Q →
  (best_win_rate <= 1 / QofNat (S k))%Q →
  ∃ best self',
    tournaments_loop remaining tournament_count best_win_rate self
    = Some (tournament_count + remaining, best, self')
    ∧ (best <= 1 / QofNat (S k))%Q
    ∧ length (game_results _ self') = length (game_results _ self) + remaining
    ∧ length (tournament_results _ self')
      = length (tournament_results _ self) + remaining.
Proof.
  induction remaining as [|remaining IH]; intros count best self Hn Htarget Hbest.
  { exists best, self. cbn. rewrite !Nat.add_0_r. by repeat split. }
  cbn [Tournament.tournaments_loop].
  destruct (play_tournament_shape self (name_tournament (S count)) k Hn)
    as (r & self1 & -> & Hn1 & Htarget1 & [Hrate0 Hrate] & Hgames & Htours).
  assert (Hmiss : Qle_bool (target_win_rate _ self1) (win_rate r) = false).
  { apply not_true_iff_false. rewrite Qle_bool_iff, Htarget1. lra. }
  rewrite Hmiss.
  destruct (IH (S count)
              (if Analyzer.Qgtb (win_rate r) best then win_rate r else best) self1)
    as (best' & self' & -> & Hbest' & Hgames' & Htours').
  - done.
  - by rewrite Htarget1.
  - by destruct (Analyzer.Qgtb _ _).
  - exists best', self'. split; [f_equal; f_equal; f_equal; lia|].
    split; [done|]. split; lia.
Qed.

(** The learning loop cannot reach a target above one over the number of
    games. Since a tournament scores one game, its win rate is at most
    [1 / games_per_tournament]; when the target win rate is above that
    (as with the defaults, 5 games and a target of 0.6) the loop never
    stops early: whatever the games' outcomes it plays all
    [max_tournaments] tournaments and ends with a best win rate below
    the target. *)
Theorem target_win_rate_out_of_reach (self : System) :
  1 ≤ games_per_tournament _ self →
  (1 / QofNat (games_per_tournament _ self) < target_win_rate _ self)%Q →
  ∃ best self',
    run_learning_tournaments self = Some (max_tournaments _ self, best, self')
    ∧ (best < target_win_rate _ self)%Q
    ∧ length (tournament_results _ self')
      = length (tournament_results _ self) + max_tournaments _ self
    ∧ length (game_results _ self')
      = length (game_results _ self) + max_tournaments _ self.
Proof.
  intros Hgames Htarget.
  destruct (games_per_tournament _ self) as [|k] eqn:Hn; [lia|].
  destruct (tournaments_loop_runs_out (max_tournaments _ self) k 0 0 self Hn Htarget)
    as (best & self' & Hrun & Hbest & Hrows & Htours).
  { apply (one_game_rate 0 k). lia. }
  exists best, self'. unfold Tournament.run_learning_tournaments.
  rewrite Hrun. split; [done|]. split; [lra|]. by split.
Qed.

End TournamentExtras.

Definition won_game : Tournament.GameResult :=
  Tournament.mkGame "1-0" "Beyaz (Bot)" ["e4"; "e5"; "Qh5"; "Ke7"; "Qxe5#"] [] "".

(** A bot that wins every game; its memory is the number of games
    played. *)
Definition always_wins (game_num : nat) (tournament : string) (played : nat)
  : Tournament.GameResult * nat :=
  (won_game, S played).

Lemma target_win_rate_out_of_reach_witness :
  1 ≤ 5
  ∧ (1 / Tournament.QofNat 5 < 0.6)%Q
  ∧ ∃ best self',
      Tournament.run_learning_tournaments nat always_wins pretty
        (Tournament.new_system nat 0) = Some (50, best, self')
      ∧ (best < 0.6)%Q
      ∧ length (Tournament.tournament_results nat self') = 0 + 50
      ∧ length (Tournament.game_results nat self') = 0 + 50.
Proof.
  assert (H1 : 1 ≤ 5) by lia.
  assert (H2 : (1 / Tournament.QofNat 5 < 0.6)%Q) by reflexivity.
  split; [exact H1|]. split; [exact H2|].
  exact (target_win_rate_out_of_reach nat always_wins pretty
           (Tournament.new_system nat 0) H1 H2).
Defined.

(** Five games won out of five are scored as one win and a win rate of
    one fifth. *)
Example five_wins_count_once :
  match Tournament.play_tournament nat always_wins (Tournament.new_system nat 0) "T001" with
  | Some (r, self) =>
      Tournament.wins r = 1 ∧ Tournament.draws r = 0 ∧ Tournament.losses r = 0
      ∧ Tournament.games_played r = 5 ∧ Tournament.win_rate r = ((1 # 1) / (5 # 1))%Q
      ∧ Tournament.memory nat self = 5
  | None => False
  end.
Proof. cbn. by repeat split. Qed.

(** * The engine manager ([AdvancedEngineManager])

    The engines are external processes: [start] stands for
    [popen_uci(config.path)] followed by [engine.configure], and an
    engine's [play] for [engine.play(board, limit)]; [None] is an
    exception of either. A Python dict that is iterated is an
    association list in insertion order. *)

Module Manager.
Import Chess Analyzer.

#[global] Instance EngineType_eq_dec : EqDecision EngineType.
Proof. solve_decision. Defined.

Definition EngineType_value (t : EngineType) : string :=
  match t with
  | STOCKFISH => "stockfish"
  | LCZERO => "lc0"
  | CUSTOM => "custom"
  end.

Record EngineConfig := mkConfig {
  name : string;
  path : string;
  type : EngineType;
  hash_size : Z;
  threads : Z;
  depth_limit : Z;
  time_limit : Q;
  contempt : Z;
  skill_level : Z;
  uci_options : option (list (string * string))
}.

Record PlayResult := mkPlayResult {
  move : option Move;
  info : gmap string Q
}.

Record Engine := mkEngine {
  play : Board -> Q -> nat -> option PlayResult
}.

Record History := mkHistory {
  wins : nat;
  losses : nat;
  draws : nat;
  avg_time : Q;
  avg_depth : Q
}.

(** The dictionary returned beside the move; the empty dictionary [{}]
    is [None]. *)
Record MoveInfo := mkMoveInfo {
  info_engine : string;
  time_used : Q;
  depth_reached : Q;
  nodes_searched : Q
}.

Record AdvancedEngineManager := mkManager {
  configs : list (string * EngineConfig);
  engines : gmap string Engine;
  performance_history : gmap string History
}.

(** [d[key] = value] on an insertion-ordered dict. *)
Fixpoint dict_set {V : Type} (d : list (string * V)) (key : string) (value : V)
  : list (string * V) :=
  match d with
  | [] => [(key, value)]
  | (k, v) :: rest =>
      if String.eqb k key then (k, value) :: rest else (k, v) :: dict_set rest key value
  end.

Section WithStart.
Variable start : EngineConfig -> option Engine.

(** One iteration of the loop of [_initialize_engines]. *)
Definition initialize_engine (self : AdvancedEngineManager) (item : string * EngineConfig)
  : AdvancedEngineManager :=
  match start (snd item) with
  | Some engine =>
      mkManager (configs self) (<[fst item := engine]> (engines self))
                (<[fst item := mkHistory 0 0 0 0 0]> (performance_history self))
  | None => self
  end.

Definition _initialize_engines (self : AdvancedEngineManager) : AdvancedEngineManager :=
  fold_left initialize_engine (configs self) self.

Definition __init__ (configs : list EngineConfig) : AdvancedEngineManager :=
  _initialize_engines
    (mkManager (fold_left (fun d config => dict_set d (name config) config) configs [])
               ∅ ∅).

End WithStart.

(** The name of the first configuration of a type, as both loops over
    [self.configs.items()] find it. *)
Fixpoint first_of_type (engine_type : EngineType) (items : list (string * EngineConfig))
  : option string :=
  match items with
  | [] => None
  | (name, config) :: rest =>
      if bool_decide (type config = engine_type) then Some name
      else first_of_type engine_type rest
  end.

Fixpoint get_engine_loop (engines : gmap string Engine) (engine_type : EngineType)
  (items : list (string * EngineConfig)) : option Engine :=
  match items with
  | [] => None
  | (name, config) :: rest =>
      if bool_decide (type config = engine_type) then engines !! name
      else get_engine_loop engines engine_type rest
  end.

Definition get_engine (self : AdvancedEngineManager) (engine_type : EngineType)
  : option Engine :=
  get_engine_loop (engines self) engine_type (configs self).

(** [None] is the [KeyError] of [self.performance_history[engine_name]]. *)
Definition _update_performance (self : AdvancedEngineManager) (engine_type : EngineType)
  (result : PlayResult) : option AdvancedEngineManager :=
  match first_of_type engine_type (configs self) with
  | Some engine_name =>
      if String.eqb engine_name "" then Some self
      else
        history ← performance_history self !! engine_name;
        let history :=
          mkHistory (wins history) (losses history) (draws history)
                    ((avg_time history + default 0%Q (info result !! "time")) / 2)
                    (avg_depth history) in
        let history :=
          mkHistory (wins history) (losses history) (draws history) (avg_time history)
                    ((avg_depth history + default 0%Q (info result !! "depth")) / 2) in
        Some (mkManager (configs self) (engines self)
                        (<[engine_name := history]> (performance_history self)))
  | None => Some self
  end.

Definition get_best_move (self : AdvancedEngineManager) (board : Board)
  (analysis : PositionAnalysis)
  : option Move * option MoveInfo * AdvancedEngineManager :=
  let engine := get_engine self (recommended_engine analysis) in
  let engine :=
    match engine with
    | Some engine => Some engine
    | None => get_engine self STOCKFISH
    end in
  match engine with
  | None => (None, None, self)
  | Some engine =>
      match play engine board (time_allocation analysis) (depth_allocation analysis) with
      | Some result =>
          match _update_performance self (recommended_engine analysis) result with
          | Some self' =>
              (move result,
               Some (mkMoveInfo (EngineType_value (recommended_engine analysis))
                                (default 0%Q (info result !! "time"))
                                (default 0%Q (info result !! "depth"))
                                (default 0%Q (info result !! "nodes"))),
               self')
          | None => (None, None, self)
          end
      | None => (None, None, self)
      end
  end.

End Manager.

Section ManagerExtras.
Import Chess Analyzer Manager.

(** Every engine that is running has a performance entry and the other
    way round. *)
Definition history_matches_engines (self : AdvancedEngineManager) : Prop :=
  ∀ name, engines self !! name = None ↔ performance_history self !! name = None.

Lemma initialize_engine_history (start : EngineConfig -> option Engine)
  (self : AdvancedEngineManager) (item : string * EngineConfig) :
  history_matches_engines self →
  history_matches_engines (initialize_engine start self item)
  ∧ configs (initialize_engine start self item) = configs self.
Proof.
  intros Hself. unfold initialize_engine.
  destruct (start item.2) as [engine|]; [|done]. split; [|done].
  intros key. cbn. destruct (decide (item.1 = key)) as [->|Hne].
  - by rewrite !lookup_insert_eq.
  - rewrite !lookup_insert_ne by done. apply Hself.
Qed.

Lemma initialize_engines_history (start : EngineConfig -> option Engine)
  (items : list (string * EngineConfig)) (self : AdvancedEngineManager) :
  history_matches_engines self →
  history_matches_engines (fold_left (initialize_engine start) items self)
  ∧ configs (fold_left (initialize_engine start) items self) = configs self.
Proof.
  revert self. induction items as [|item items IH]; intros self Hself; [done|].
  cbn [fold_left].
  destruct (initialize_engine_history start self item Hself) as [Hnext Hconfigs].
  destruct (IH _ Hnext) as [Hall Hsame]. split; [done|]. by rewrite Hsame.
Qed.

Lemma init_history (start : EngineConfig -> option Engine) (cs : list EngineConfig) :
  history_matches_engines (__init__ start cs).
Proof.
  unfold __init__, _initialize_engines. apply initialize_engines_history.
  intros key. cbn. by rewrite !lookup_empty.
Qed.

Lemma get_engine_first (self : AdvancedEngineManager) (engine_type : EngineType) :
  get_engine self engine_type
  = first_of_type engine_type (configs self) ≫= (engines self !!.).
Proof.
  unfold get_engine. induction (configs self) as [|[n c] rest IH]; [done|].
  cbn. by destruct (bool_decide (type c = engine_type)).
Qed.

(** When the recommended engine is not running, [get_best_move] falls
    back to Stockfish, but the fallback yields a move only for an engine
    type that has no configuration at all. When the type is configured
    (under a non-empty name) and its engine did not start, the
    performance update that follows the fallback engine's search looks
    up the history of the engine that never started, the lookup fails
    inside the [try], and the call returns no move whatever the fallback
    engine found. When the type has no configuration the fallback
    engine's move is returned, labelled with the recommended engine's
    name, and no performance is recorded. *)
Theorem fallback_needs_unconfigured_engine_type (start : EngineConfig -> option Engine)
  (cs : list EngineConfig) (board : Board) (analysis : PositionAnalysis) :
  let self := __init__ start cs in
  get_engine self (recommended_engine analysis) = None →
  match first_of_type (recommended_engine analysis) (configs self) with
  | Some engine_name =>
      engine_name ≠ ""%string → get_best_move self board analysis = (None, None, self)
  | None =>
      get_best_move self board analysis
      = match get_engine self STOCKFISH
              ≫= λ engine, play engine board (time_allocation analysis)
                                (depth_allocation analysis) with
        | Some result =>
            (move result,
             Some (mkMoveInfo (EngineType_value (recommended_engine analysis))
                              (default 0%Q (info result !! "time"%string))
                              (default 0%Q (info result !! "depth"%string))
                              (default 0%Q (info result !! "nodes"%string))),
             self)
        | None => (None, None, self)
        end
  end.
Proof.
  intros self Hnone. pose proof (init_history start cs) as Hinv. fold self in Hinv.
  unfold get_best_move. rewrite Hnone.
  pose proof Hnone as Hfirst. rewrite get_engine_first in Hfirst.
  unfold _update_performance.
  destruct (first_of_type (recommended_engine analysis) (configs self))
    as [engine_name|] eqn:Hname.
  - intros Hne. cbn in Hfirst. apply Hinv in Hfirst.
    apply String.eqb_neq in Hne. rewrite Hne, Hfirst.
    destruct (get_engine self STOCKFISH) as [engine|]; [|done].
    by destruct (play engine board _ _).
  - destruct (get_engine self STOCKFISH) as [engine|]; [|done]. cbn.
    by destruct (play engine board _ _).
Qed.

End ManagerExtras.

Definition stockfish_config : Manager.EngineConfig :=
  Manager.mkConfig "stockfish" "/usr/games/stockfish" Analyzer.STOCKFISH
                   2048 4 30 3.0 10 20 None.

Definition lc0_config : Manager.EngineConfig :=
  Manager.mkConfig "lc0" "/usr/local/bin/lc0" Analyzer.LCZERO 1024 2 20 2.0 0 20 None.

(** An engine that always answers e2e4. *)
Definition pawn_pusher : Manager.Engine :=
  Manager.mkEngine (λ _ _ _, Some (Manager.mkPlayResult (Some (Samples.mv Samples.E2 Chess.E4)) ∅)).

(** Stockfish starts, lc0 does not. *)
Definition only_stockfish_starts (config : Manager.EngineConfig) : option Manager.Engine :=
  if String.eqb (Manager.name config) "stockfish" then Some pawn_pusher else None.

Definition strategic_analysis : Analyzer.PositionAnalysis :=
  Analyzer.mkPositionAnalysis Analyzer.STRATEGIC 0.5 ∅ Analyzer.LCZERO 2.4 25.

Definition half_started : Manager.AdvancedEngineManager :=
  Manager.__init__ only_stockfish_starts [stockfish_config; lc0_config].

Lemma fallback_needs_unconfigured_engine_type_witness :
  Manager.get_engine half_started Analyzer.LCZERO = None
  ∧ (∃ engine, Manager.get_engine half_started Analyzer.STOCKFISH = Some engine)
  ∧ Manager.get_best_move half_started Chess.starting_board strategic_analysis
    = (None, None, half_started).
Proof.
  assert (H1 : Manager.get_engine half_started Analyzer.LCZERO = None) by reflexivity.
  split; [exact H1|]. split; [by eexists|].
  refine (fallback_needs_unconfigured_engine_type only_stockfish_starts
            [stockfish_config; lc0_config] Chess.starting_board strategic_analysis H1 _).
  discriminate.
Defined.

(** * The hybrid engine's own tablebase stage and statistics
    ([AdvancedHybridEngine]) *)

Module Hybrid.
Import Chess Wrapper.

(** One record of [learning_data], with the keys the statistics read
    and the ones [_save_learning_data] computes from the move and the
    manager's answer. *)
Record LearningRecord := mkLearningRecord {
  record_fen : string;
  record_position_type : string;
  record_recommended_engine : string;
  record_move : option Move;
  record_time_used : Q;
  record_depth_reached : Q
}.

Section WithRules.
Context `{Rules}.

(** One iteration of the loop over the legal moves; [best_dtz] starts
    at infinity, which is [None] here. *)
Definition dtz_step (tb : Tablebase) (board : Board) (best : option Move * option Z)
  (move : Move) : option Move * option Z :=
  match probe_dtz tb (push board move) with
  | Some move_dtz =>
      match snd best with
      | Some best_dtz =>
          if (move_dtz <? best_dtz)%Z then (Some move, Some move_dtz) else best
      | None => (Some move, Some move_dtz)
      end
  | None => best
  end.

Definition _get_tablebase_move (tb : Tablebase) (board : Board) : option Move :=
  match probe_wdl tb board with
  | None => None
  | Some wdl =>
      match probe_dtz tb board with
      | None => None
      | Some dtz =>
          if (0 <? wdl)%Z
          then fst (fold_left (dtz_step tb board) (legal_moves board) (None, None))
          else None
      end
  end.

End WithRules.

(** One iteration of the loop of [_get_position_type_distribution]. *)
Definition count_record (distribution : gmap string nat) (data : LearningRecord)
  : gmap string nat :=
  let pos_type := record_position_type data in
  <[pos_type := default 0 (distribution !! pos_type) + 1]> distribution.

Definition _get_position_type_distribution (learning_data : list LearningRecord)
  : gmap string nat :=
  fold_left count_record learning_data ∅.

End Hybrid.

Section HybridExtras.
Import Chess Wrapper Hybrid.

(** The best pair of the hybrid loop after the moves in [seen]: the
    first of the moves with the smallest signed value. *)
Definition least_so_far `{Rules} (tb : Tablebase) (board : Board) (seen : list Move)
  (best : option Move * option Z) : Prop :=
  match best with
  | (Some m, Some d) =>
      probe_dtz tb (push board m) = Some d
      ∧ (∀ m' d', m' ∈ seen → probe_dtz tb (push board m') = Some d' → (d <= d')%Z)
      ∧ ∃ before after,
          seen = before ++ m :: after
          ∧ ∀ m' d', m' ∈ before → probe_dtz tb (push board m') = Some d' → (d < d')%Z
  | (None, None) => ∀ m', m' ∈ seen → probe_dtz tb (push board m') = None
  | _ => False
  end.

Lemma dtz_step_least `{Rules} (tb : Tablebase) (board : Board) (seen : list Move)
  (best : option Move * option Z) (move : Move) :
  least_so_far tb board seen best →
  least_so_far tb board (seen ++ [move]) (Hybrid.dtz_step tb board best move).
Proof.
  unfold Hybrid.dtz_step.
  destruct best as [[m|] [d|]]; cbn [least_so_far snd]; try done.
  - intros (Hd & Hmin & before & after & Hseen & Hfirst).
    destruct (probe_dtz tb (push board move)) as [d0|] eqn:Hd0.
    + destruct (d0 <? d)%Z eqn:Hlt; cbn [least_so_far].
      * apply Z.ltb_lt in Hlt. split; [done|]. split.
        -- intros m' d' Hm' Hd'. apply elem_of_app in Hm' as [Hm'|Hm'].
           ++ specialize (Hmin m' d' Hm' Hd'). lia.
           ++ apply list_elem_of_singleton in Hm' as ->. rewrite Hd0 in Hd'.
              injection Hd' as <-. lia.
        -- exists seen, []. split; [done|]. intros m' d' Hm' Hd'.
           specialize (Hmin m' d' Hm' Hd'). lia.
      * apply Z.ltb_ge in Hlt. split; [done|]. split.
        -- intros m' d' Hm' Hd'. apply elem_of_app in Hm' as [Hm'|Hm'].
           ++ by apply (Hmin m' d').
           ++ apply list_elem_of_singleton in Hm' as ->. rewrite Hd0 in Hd'.
              by injection Hd' as <-.
        -- exists before, (after ++ [move]). split; [|done].
           by rewrite Hseen, <- app_assoc.
    + cbn [least_so_far]. split; [done|]. split.
      * intros m' d' Hm' Hd'. apply elem_of_app in Hm' as [Hm'|Hm'].
        -- by apply (Hmin m' d').
        -- apply list_elem_of_singleton in Hm' as ->. congruence.
      * exists before, (after ++ [move]). split; [|done].
        by rewrite Hseen, <- app_assoc.
  - intros Hnone.
    destruct (probe_dtz tb (push board move)) as [d0|] eqn:Hd0; cbn [least_so_far].
    + split; [done|]. split.
      * intros m' d' Hm' Hd'. apply elem_of_app in Hm' as [Hm'|Hm'].
        -- rewrite (Hnone m' Hm') in Hd'. done.
        -- apply list_elem_of_singleton in Hm' as ->. rewrite Hd0 in Hd'.
           injection Hd' as <-. lia.
      * exists seen, []. split; [done|]. intros m' d' Hm' Hd'.
        rewrite (Hnone m' Hm') in Hd'. done.
    + intros m' Hm'. apply elem_of_app in Hm' as [Hm'|Hm'].
      * by apply Hnone.
      * by apply list_elem_of_singleton in Hm' as ->.
Qed.

Lemma dtz_fold_least `{Rules} (tb : Tablebase) (board : Board) (moves seen : list Move)
  (best : option Move * option Z) :
  least_so_far tb board seen best →
  least_so_far tb board (seen ++ moves) (fold_left (Hybrid.dtz_step tb board) moves best).
Proof.
  revert seen best. induction moves as [|move rest IH]; intros seen best Hbest.
  - by rewrite app_nil_r.
  - cbn [fold_left].
    replace (seen ++ move :: rest) with ((seen ++ [move]) ++ rest)
      by (by rewrite <- app_assoc).
    apply IH. by apply dtz_step_least.
Qed.

(** The hybrid engine takes no tablebase move exactly when a probe of the
    position fails, the position is not scored as won for the side to
    move, or no successor is known. Otherwise the move is the first
    legal move whose successor has the smallest signed distance-to-zero
    among the successors the tablebase knows: the comparison is on the
    signed value, not on the distance, so among successors lost for the
    opponent (negative values) the one furthest from zeroing is taken. *)
Theorem hybrid_tablebase_move_minimises_signed_dtz `{Rules} (tb : Tablebase)
  (board : Board) :
  (Hybrid._get_tablebase_move tb board = None
   ↔ probe_wdl tb board = None ∨ probe_dtz tb board = None
     ∨ (∃ wdl, probe_wdl tb board = Some wdl ∧ (wdl <= 0)%Z)
     ∨ ∀ m', m' ∈ legal_moves board → probe_dtz tb (push board m') = None)
  ∧ ∀ m, Hybrid._get_tablebase_move tb board = Some m →
         ∃ d before after,
           probe_dtz tb (push board m) = Some d
           ∧ legal_moves board = before ++ m :: after
           ∧ (∀ m' d', m' ∈ legal_moves board →
                       probe_dtz tb (push board m') = Some d' → (d <= d')%Z)
           ∧ (∀ m' d', m' ∈ before → probe_dtz tb (push board m') = Some d' →
                       (d < d')%Z).
Proof.
  unfold Hybrid._get_tablebase_move.
  destruct (probe_wdl tb board) as [wdl|]; [|split; [split; [by left|done]|done]].
  destruct (probe_dtz tb board) as [dtz|];
    [|split; [split; [right; by left|done]|done]].
  destruct (0 <? wdl)%Z eqn:Hwdl.
  - apply Z.ltb_lt in Hwdl.
    pose proof (dtz_fold_least tb board (legal_moves board) [] (None, None)) as Hbest.
    cbn [app] in Hbest.
    specialize (Hbest (fun m' Hm' => ltac:(by apply elem_of_nil in Hm'))).
    destruct (fold_left (Hybrid.dtz_step tb board) (legal_moves board) (None, None))
      as [[m|] [d|]]; cbn [least_so_far fst] in *; try done.
    + destruct Hbest as (Hd & Hmin & before & after & Hlegal & Hfirst). split.
      * split; [done|]. intros [?|[?|[(wdl' & [= <-] & ?)|Hnone]]]; [done|done|lia|].
        rewrite (Hnone m) in Hd; [done|]. rewrite Hlegal. apply elem_of_app. right.
        apply list_elem_of_here.
      * intros m0 [= <-]. by exists d, before, after.
    + split; [|done]. split; [|done]. intros _. right. right. by right.
  - apply Z.ltb_ge in Hwdl. split; [|done]. split; [|done].
    intros _. right. right. left. by exists wdl.
Qed.

(** The number of records of a position type. *)
Definition occurrences (pos_type : string) (learning_data : list LearningRecord) : nat :=
  length (filter (λ data, record_position_type data = pos_type) learning_data).

Definition total_count (distribution : gmap string nat) : nat :=
  map_fold (λ _ n total, n + total) 0 distribution.

Lemma total_count_insert (distribution : gmap string nat) (key : string) (n : nat) :
  distribution !! key = None →
  total_count (<[key := n]> distribution) = n + total_count distribution.
Proof.
  intros Hkey. unfold total_count. rewrite map_fold_insert_L; [done| |done].
  intros. lia.
Qed.

Lemma total_count_bump (distribution : gmap string nat) (key : string) :
  total_count (<[key := default 0 (distribution !! key) + 1]> distribution)
  = total_count distribution + 1.
Proof.
  destruct (distribution !! key) as [n|] eqn:Hkey; cbn [default].
  - rewrite <- (insert_delete_id distribution key n) at 2 by done.
    rewrite <- insert_delete_eq.
    rewrite !total_count_insert by apply lookup_delete_eq. unfold id. lia.
  - rewrite total_count_insert by done. lia.
Qed.

Lemma occurrences_snoc (pos_type : string) (learning_data : list LearningRecord)
  (data : LearningRecord) :
  occurrences pos_type (learning_data ++ [data])
  = occurrences pos_type learning_data
    + (if decide (record_position_type data = pos_type) then 1 else 0).
Proof.
  unfold occurrences. rewrite filter_app, length_app. f_equal.
  destruct (decide (record_position_type data = pos_type)) as [Heq|Hne].
  - by rewrite filter_cons_True.
  - by rewrite filter_cons_False.
Qed.

(** What the counting loop has after the records in [seen]. *)
Definition counted (seen : list LearningRecord) (distribution : gmap string nat) : Prop :=
  (∀ pos_type,
     distribution !! pos_type
     = if occurrences pos_type seen =? 0 then None else Some (occurrences pos_type seen))
  ∧ total_count distribution = length seen.

Lemma count_record_counted (seen : list LearningRecord) (distribution : gmap string nat)
  (data : LearningRecord) :
  counted seen distribution → counted (seen ++ [data]) (count_record distribution data).
Proof.
  intros [Hkeys Htotal]. unfold count_record. split.
  - intros pos_type. rewrite occurrences_snoc.
    destruct (decide (record_position_type data = pos_type)) as [->|Hne].
    + rewrite lookup_insert_eq, Hkeys.
      destruct (occurrences pos_type seen) as [|n] eqn:Hn; cbn [Nat.eqb default].
      * done.
      * replace (S n + 1 =? 0) with false by (symmetry; apply Nat.eqb_neq; lia). done.
    + rewrite lookup_insert_ne by done. by rewrite Nat.add_0_r.
  - rewrite total_count_bump, Htotal, length_app. cbn. lia.
Qed.

Lemma count_all_counted (learning_data seen : list LearningRecord)
  (distribution : gmap string nat) :
  counted seen distribution →
  counted (seen ++ learning_data) (fold_left count_record learning_data distribution).
Proof.
  revert seen distribution.
  induction learning_data as [|data rest IH]; intros seen distribution Hseen.
  - by rewrite app_nil_r.
  - cbn [fold_left].
    replace (seen ++ data :: rest) with ((seen ++ [data]) ++ rest)
      by (by rewrite <- app_assoc).
    apply IH. by apply count_record_counted.
Qed.

(** The position-type distribution of the statistics is an exact tally
    of the learning records: a type has an entry just when some record
    has it, the entry is the number of such records, and the entries add
    up to the number of records. *)
Theorem position_type_distribution_is_a_tally (learning_data : list LearningRecord) :
  let distribution := _get_position_type_distribution learning_data in
  (∀ pos_type,
     default 0 (distribution !! pos_type) = occurrences pos_type learning_data)
  ∧ (∀ pos_type,
       distribution !! pos_type = None
       ↔ ∀ data, data ∈ learning_data → record_position_type data ≠ pos_type)
  ∧ total_count distribution = length learning_data.
Proof.
  intros distribution.
  destruct (count_all_counted learning_data [] ∅) as [Hkeys Htotal].
  { split; [intros pos_type; by rewrite lookup_empty|done]. }
  cbn [app] in Hkeys, Htotal.
  fold (_get_position_type_distribution learning_data) in Hkeys, Htotal.
  fold distribution in Hkeys, Htotal.
  split; [|split; [|done]].
  - intros pos_type. rewrite Hkeys.
    by destruct (occurrences pos_type learning_data).
  - intros pos_type. rewrite Hkeys. unfold occurrences.
    destruct (filter _ learning_data) as [|data rest] eqn:Hfilter; cbn [length Nat.eqb].
    + split; [|done]. intros _ data Hdata Htype.
      assert (Hin : data ∈ filter (λ data, record_position_type data = pos_type)
                                  learning_data).
      { by apply list_elem_of_filter. }
      rewrite Hfilter in Hin. by apply elem_of_nil in Hin.
    + split; [done|]. intros Hnone.
      assert (Hin : data ∈ filter (λ data, record_position_type data = pos_type)
                                  learning_data).
      { rewrite Hfilter. apply list_elem_of_here. }
      apply list_elem_of_filter in Hin as [Htype Hdata]. by destruct (Hnone data).
Qed.

End HybridExtras.
